(** * Outlook2OneNote: the PKCE client, its token store and the notebook fallbacks

    A shallow embedding of [src/src/common/crypto-utils.js],
    [src/src/common/graphapi-auth.js], [src/src/common/auth-service.js] and the
    [PKCEAuthenticator] class and [exportConversationToOneNote] found in
    [src/unnamed/part_006].

    JavaScript strings produced by the code (base64 text, storage values,
    URLs) are modelled as Rocq [string]s (byte strings); the code-unit view of
    a JavaScript string, needed by [TextEncoder] and [charCodeAt], is a
    [list Z] of UTF-16 code units. A [Uint8Array] is a [list Byte.byte].
    [sessionStorage] is a [gmap string string]. *)

From Stdlib Require Import ZArith Lia Ascii String List Bool Sorted Permutation.
From stdpp Require Import base gmap strings.
Import ListNotations.

Open Scope Z_scope.

(* ------------------------------------------------------------------------ *)
(** ** Bytes and base64 (btoa and base64urlEncode, crypto-utils.js) *)

Definition byte_val (b : Byte.byte) : Z := Z.of_N (Byte.to_N b).

(** The standard base64 alphabet used by [btoa]. *)
Definition b64_alphabet : list ascii :=
  list_ascii_of_string
    "ABCDEFGHIJKLMNOPQRSTUVWXYZabcdefghijklmnopqrstuvwxyz0123456789+/".

Definition b64_char (n : Z) : ascii := nth (Z.to_nat n) b64_alphabet "A"%char.

Definition sextet1 (a : Z) : Z := Z.shiftr a 2.
Definition sextet2 (a b : Z) : Z := Z.lor (Z.shiftl (Z.land a 3) 4) (Z.shiftr b 4).
Definition sextet3 (b c : Z) : Z := Z.lor (Z.shiftl (Z.land b 15) 2) (Z.shiftr c 6).
Definition sextet4 (c : Z) : Z := Z.land c 63.

(** [btoa(String.fromCharCode(...data))]: the code units of
    [String.fromCharCode] applied to a [Uint8Array] are its bytes, and [btoa]
    encodes them with the standard alphabet and [=] padding. *)
Fixpoint btoa (bs : list Z) : list ascii :=
  match bs with
  | a :: b :: c :: rest =>
      b64_char (sextet1 a) :: b64_char (sextet2 a b) :: b64_char (sextet3 b c)
        :: b64_char (sextet4 c) :: btoa rest
  | [a; b] =>
      [b64_char (sextet1 a); b64_char (sextet2 a b); b64_char (sextet3 b 0); "="%char]
  | [a] => [b64_char (sextet1 a); b64_char (sextet2 a 0); "="%char; "="%char]
  | [] => []
  end.

(** [s.replace(/c/g, d)] for a one-character pattern. *)
Fixpoint replace_char (c d : ascii) (s : list ascii) : list ascii :=
  match s with
  | [] => []
  | x :: s' => (if Ascii.eqb x c then d else x) :: replace_char c d s'
  end.

(** [s.replace(/c/g, '')]. *)
Fixpoint remove_char (c : ascii) (s : list ascii) : list ascii :=
  match s with
  | [] => []
  | x :: s' => if Ascii.eqb x c then remove_char c s' else x :: remove_char c s'
  end.

(** [base64urlEncode(data)] (crypto-utils.js, lines 103-121); [data] is the
    list of element values of the [Uint8Array]. *)
Definition base64urlEncode (data : list Z) : list ascii :=
  remove_char "="%char
    (replace_char "/"%char "_"%char
       (replace_char "+"%char "-"%char (btoa data))).

(** The encoding the documentation of [base64urlEncode] describes
    (RFC 4648, section 5): URL-safe alphabet, no padding. *)
Definition b64url_alphabet : list ascii :=
  list_ascii_of_string
    "ABCDEFGHIJKLMNOPQRSTUVWXYZabcdefghijklmnopqrstuvwxyz0123456789-_".

Definition b64url_char (n : Z) : ascii := nth (Z.to_nat n) b64url_alphabet "A"%char.

Fixpoint base64url_spec (bs : list Z) : list ascii :=
  match bs with
  | a :: b :: c :: rest =>
      b64url_char (sextet1 a) :: b64url_char (sextet2 a b) :: b64url_char (sextet3 b c)
        :: b64url_char (sextet4 c) :: base64url_spec rest
  | [a; b] => [b64url_char (sextet1 a); b64url_char (sextet2 a b); b64url_char (sextet3 b 0)]
  | [a] => [b64url_char (sextet1 a); b64url_char (sextet2 a 0)]
  | [] => []
  end.

Example base64urlEncode_ex :
  base64urlEncode [251; 255] = list_ascii_of_string "-_8".
Proof. reflexivity. Qed.

(* ------------------------------------------------------------------------ *)
(** ** The platform digest: SHA-256 (FIPS 180-4), as [crypto.subtle.digest] *)

Module Sha256.

Definition mask32 : Z := 2 ^ 32 - 1.
Definition add32 (x y : Z) : Z := Z.land (x + y) mask32.
Definition rotr (x : Z) (n : Z) : Z :=
  Z.land (Z.lor (Z.shiftr x n) (Z.shiftl x (32 - n))) mask32.

Definition Ch (x y z : Z) : Z := Z.lxor (Z.land x y) (Z.land (Z.lxor x mask32) z).
Definition Maj (x y z : Z) : Z := Z.lxor (Z.lxor (Z.land x y) (Z.land x z)) (Z.land y z).
Definition Sigma0 (x : Z) : Z := Z.lxor (Z.lxor (rotr x 2) (rotr x 13)) (rotr x 22).
Definition Sigma1 (x : Z) : Z := Z.lxor (Z.lxor (rotr x 6) (rotr x 11)) (rotr x 25).
Definition sigma0 (x : Z) : Z := Z.lxor (Z.lxor (rotr x 7) (rotr x 18)) (Z.shiftr x 3).
Definition sigma1 (x : Z) : Z := Z.lxor (Z.lxor (rotr x 17) (rotr x 19)) (Z.shiftr x 10).

Definition K : list Z :=
  [1116352408; 1899447441; 3049323471; 3921009573;
   961987163; 1508970993; 2453635748; 2870763221;
   3624381080; 310598401; 607225278; 1426881987;
   1925078388; 2162078206; 2614888103; 3248222580;
   3835390401; 4022224774; 264347078; 604807628;
   770255983; 1249150122; 1555081692; 1996064986;
   2554220882; 2821834349; 2952996808; 3210313671;
   3336571891; 3584528711; 113926993; 338241895;
   666307205; 773529912; 1294757372; 1396182291;
   1695183700; 1986661051; 2177026350; 2456956037;
   2730485921; 2820302411; 3259730800; 3345764771;
   3516065817; 3600352804; 4094571909; 275423344;
   430227734; 506948616; 659060556; 883997877;
   958139571; 1322822218; 1537002063; 1747873779;
   1955562222; 2024104815; 2227730452; 2361852424;
   2428436474; 2756734187; 3204031479; 3329325298].

Definition H0 : list Z :=
  [1779033703; 3144134277; 1013904242; 2773480762;
   1359893119; 2600822924; 528734635; 1541459225].

(** Big-endian words from bytes, and back. *)
Fixpoint words_of_bytes (bs : list Z) : list Z :=
  match bs with
  | a :: b :: c :: d :: rest =>
      (a * 2 ^ 24 + b * 2 ^ 16 + c * 2 ^ 8 + d) :: words_of_bytes rest
  | _ => []
  end.

Definition bytes_of_word (w : Z) : list Z :=
  [Z.land (Z.shiftr w 24) 255; Z.land (Z.shiftr w 16) 255;
   Z.land (Z.shiftr w 8) 255; Z.land w 255].

(** Padding: [0x80], zeros, then the 64-bit big-endian bit length. *)
Definition pad (msg : list Z) : list Z :=
  let len := Z.of_nat (length msg) in
  let zeros := Z.to_nat ((55 - len) mod 64) in
  msg ++ [128] ++ repeat 0 zeros
      ++ bytes_of_word (Z.shiftr (8 * len) 32) ++ bytes_of_word (Z.land (8 * len) mask32).

Fixpoint schedule (n : nat) (w : list Z) : list Z :=
  match n with
  | O => w
  | S n' =>
      let t := length w in
      let wt := add32 (add32 (sigma1 (nth (t - 2) w 0)) (nth (t - 7) w 0))
                      (add32 (sigma0 (nth (t - 15) w 0)) (nth (t - 16) w 0)) in
      schedule n' (w ++ [wt])
  end.

Definition round (st : list Z) (kw : Z * Z) : list Z :=
  match st with
  | [a; b; c; d; e; f; g; h] =>
      let t1 := add32 (add32 (add32 h (Sigma1 e)) (add32 (Ch e f g) (fst kw))) (snd kw) in
      let t2 := add32 (Sigma0 a) (Maj a b c) in
      [add32 t1 t2; a; b; c; add32 d t1; e; f; g]
  | _ => st
  end.

Definition compress (hs : list Z) (block : list Z) : list Z :=
  let w := schedule 48 (words_of_bytes block) in
  let st := fold_left round (combine K w) hs in
  map (fun p => add32 (fst p) (snd p)) (combine hs st).

Fixpoint process (fuel : nat) (hs : list Z) (bs : list Z) : list Z :=
  match fuel with
  | O => hs
  | S fuel' =>
      match bs with
      | [] => hs
      | _ => process fuel' (compress hs (firstn 64 bs)) (skipn 64 bs)
      end
  end.

Definition sha256 (msg : list Z) : list Z :=
  let p := pad msg in
  flat_map bytes_of_word (process (length p) H0 p).

End Sha256.

Example sha256_abc :
  Sha256.sha256 [97; 98; 99] =
  [186; 120; 22; 191; 143; 1; 207; 234; 65; 65; 64; 222; 93; 174; 34; 35;
   176; 3; 97; 163; 150; 23; 122; 156; 180; 16; 255; 97; 242; 0; 21; 173].
Proof. vm_compute. reflexivity. Qed.

(* ------------------------------------------------------------------------ *)
(** ** Results of code that may throw *)

Inductive outcome (A : Type) : Type :=
  | Ok (v : A)
  | Throw (msg : string).
Arguments Ok {A} v.
Arguments Throw {A} msg%_string.

(* ------------------------------------------------------------------------ *)
(** ** TextEncoder: UTF-16 code units to UTF-8 bytes *)

Definition utf8_of_code_point (cp : Z) : list Z :=
  if cp <? 128 then [cp]
  else if cp <? 2048 then
    [Z.lor 192 (Z.shiftr cp 6); Z.lor 128 (Z.land cp 63)]
  else if cp <? 65536 then
    [Z.lor 224 (Z.shiftr cp 12); Z.lor 128 (Z.land (Z.shiftr cp 6) 63);
     Z.lor 128 (Z.land cp 63)]
  else
    [Z.lor 240 (Z.shiftr cp 18); Z.lor 128 (Z.land (Z.shiftr cp 12) 63);
     Z.lor 128 (Z.land (Z.shiftr cp 6) 63); Z.lor 128 (Z.land cp 63)].

Definition is_high_surrogate (u : Z) : bool := (55296 <=? u) && (u <=? 56319).
Definition is_low_surrogate (u : Z) : bool := (56320 <=? u) && (u <=? 57343).

(** [new TextEncoder().encode(s)]: surrogate pairs are combined, lone
    surrogates become U+FFFD. *)
Fixpoint text_encode (s : list Z) : list Z :=
  match s with
  | [] => []
  | u :: rest =>
      if is_high_surrogate u then
        match rest with
        | v :: rest' =>
            if is_low_surrogate v then
              utf8_of_code_point (65536 + Z.shiftl (u - 55296) 10 + (v - 56320))
                ++ text_encode rest'
            else utf8_of_code_point 65533 ++ text_encode rest
        | [] => utf8_of_code_point 65533
        end
      else if is_low_surrogate u then utf8_of_code_point 65533 ++ text_encode rest
      else utf8_of_code_point u ++ text_encode rest
  end.

(** The code units of a string whose characters are all below U+0100. *)
Definition code_units_of (s : list ascii) : list Z :=
  map (fun c => Z.of_nat (nat_of_ascii c)) s.

(* ------------------------------------------------------------------------ *)
(** ** fallbackSha256 (crypto-utils.js, lines 130-152) *)

Definition to_int32 (x : Z) : Z :=
  let y := x mod 2 ^ 32 in if y >=? 2 ^ 31 then y - 2 ^ 32 else y.
Definition to_uint32 (x : Z) : Z := x mod 2 ^ 32.

(** One turn of the loop: [hash = ((hash << 5) - hash) + char;
    hash = hash & hash]. *)
Definition fallback_step (hash c : Z) : Z :=
  let h := to_int32 (hash * 2 ^ 5) - hash + c in
  to_int32 (Z.land (to_int32 h) (to_int32 h)).

Definition fallbackSha256 (message : list Z) : list Z :=
  let hash := fold_left fallback_step message 0 in
  flat_map (fun i => Sha256.bytes_of_word (to_uint32 (hash + Z.of_nat i))) (seq 0 8).

(* ------------------------------------------------------------------------ *)
(** ** generateCodeChallenge (crypto-utils.js, lines 63-90) *)

(** The parts of the global environment the crypto helpers test for. *)
Record crypto_env := {
  has_text_encoder : bool;   (* typeof TextEncoder !== 'undefined' *)
  has_subtle : bool;         (* typeof crypto !== 'undefined' && crypto.subtle *)
  has_get_random_values : bool
}.

Definition generateCodeChallenge (env : crypto_env) (codeVerifier : list Z)
  : outcome (list ascii) :=
  if negb (has_text_encoder env) then
    Throw "Failed to generate code challenge: TextEncoder is not defined"
  else
    let data := text_encode codeVerifier in
    let hash := if has_subtle env then Sha256.sha256 data
                else fallbackSha256 codeVerifier in
    Ok (base64urlEncode hash).

(* ------------------------------------------------------------------------ *)
(** ** generateCodeVerifier and validateCodeVerifier (crypto-utils.js) *)

(** [generateCodeVerifier()]: 32 entries of a [Uint8Array], each filled by
    [crypto.getRandomValues] or by [Math.floor(Math.random() * 256)], then
    base64url-encoded. [rnd i] is the value the environment supplies for
    entry [i]; either source gives a byte. *)
Definition generateCodeVerifier (rnd : nat -> Byte.byte) : list ascii :=
  base64urlEncode (map (fun i => byte_val (rnd i)) (seq 0 32)).

(** The character class [[A-Za-z0-9\-._~]]. *)
Definition verifier_char (c : ascii) : bool :=
  let n := nat_of_ascii c in
  ((65 <=? n) && (n <=? 90))%nat || ((97 <=? n) && (n <=? 122))%nat
  || ((48 <=? n) && (n <=? 57))%nat
  || Ascii.eqb c "-"%char || Ascii.eqb c "."%char || Ascii.eqb c "_"%char
  || Ascii.eqb c "~"%char.

Definition validateCodeVerifier (codeVerifier : list ascii) : bool :=
  match codeVerifier with
  | [] => false
  | _ =>
      if ((length codeVerifier <? 43) || (128 <? length codeVerifier))%nat then false
      else forallb verifier_char codeVerifier
  end.

Example challenge_rfc7636 :
  generateCodeChallenge {| has_text_encoder := true; has_subtle := true;
                           has_get_random_values := true |}
    (code_units_of (list_ascii_of_string "dBjftJeZ4CVP-mB92K27uhbUJU1p1r_wW1gFWFOEjXk"))
  = Ok (list_ascii_of_string "E9Melhoa2OwvFrEMTJguCHaoeK1t8URWbuGJSstw-cM").
Proof. vm_compute. reflexivity. Qed.

(* ------------------------------------------------------------------------ *)
(** ** Numbers as the code prints and parses them *)

(** A number value of this code before rounding: an integer (milliseconds,
    seconds, the mathematical value [parseInt] reads) or [NaN] (arithmetic on
    [undefined]); [None] is [NaN]. [double_of_js_number] gives the Number. *)
Definition js_number := option Z.

Definition digit_char (d : Z) : ascii := ascii_of_nat (48 + Z.to_nat d).
Definition is_digit (c : ascii) : bool :=
  ((48 <=? nat_of_ascii c) && (nat_of_ascii c <=? 57))%nat.
Definition digit_val (c : ascii) : Z := Z.of_nat (nat_of_ascii c) - 48.

(** Decimal digits of a positive integer, least significant first. *)
Fixpoint digits_rev (fuel : nat) (n : Z) : list ascii :=
  match fuel with
  | O => []
  | S fuel' => if n =? 0 then [] else digit_char (n mod 10) :: digits_rev fuel' (n / 10)
  end.

Definition decimal (n : Z) : list ascii := rev (digits_rev (S (Z.to_nat (Z.log2 n))) n).

(** A JavaScript Number with an integral value, an infinity or [NaN]: the
    Numbers this code computes with ([Date.now()], [expires_in * 1000],
    [parseInt]). The sign of a zero is not kept; nothing here observes it. *)
Inductive double : Type :=
  | DFin (z : Z)
  | DInf (neg : bool)
  | DNaN.

(** The Number nearest to the integer [z]: 53 significant bits, ties to
    even, and [±Infinity] from [2^1024 - 2^970] on. *)
Definition round_double (z : Z) : double :=
  let a := Z.abs z in
  if a <? 2 ^ 53 then DFin z
  else
    let k := Z.log2 a - 52 in
    let q := Z.shiftr a k in
    let r := a - Z.shiftl q k in
    let half := 2 ^ (k - 1) in
    let q' := if (half <? r) || ((r =? half) && Z.odd q) then q + 1 else q in
    let m := Z.shiftl q' k in
    if 2 ^ 1024 <=? m then DInf (z <? 0) else DFin (Z.sgn z * m).

(** The Number a [js_number] denotes ([None] is [NaN]). *)
Definition double_of_js_number (x : js_number) : double :=
  match x with Some z => round_double z | None => DNaN end.

Definition d_neg (x : double) : double :=
  match x with DFin z => DFin (- z) | DInf n => DInf (negb n) | DNaN => DNaN end.

(** [x + y], [x - y], [x * y] and [x < y] on Numbers. *)
Definition d_add (x y : double) : double :=
  match x, y with
  | DNaN, _ | _, DNaN => DNaN
  | DInf a, DInf b => if Bool.eqb a b then DInf a else DNaN
  | DInf a, DFin _ | DFin _, DInf a => DInf a
  | DFin a, DFin b => round_double (a + b)
  end.

Definition d_sub (x y : double) : double := d_add x (d_neg y).

Definition d_mul (x y : double) : double :=
  match x, y with
  | DNaN, _ | _, DNaN => DNaN
  | DInf a, DInf b => DInf (xorb a b)
  | DInf a, DFin b | DFin b, DInf a => if b =? 0 then DNaN else DInf (xorb a (b <? 0))
  | DFin a, DFin b => round_double (a * b)
  end.

Definition d_lt (x y : double) : bool :=
  match x, y with
  | DFin a, DFin b => a <? b
  | DFin _, DInf n => negb n
  | DInf true, DFin _ => true
  | DInf true, DInf false => true
  | _, _ => false
  end.

(** The decimal notation of an integer, with a minus sign when negative. *)
Definition integer_digits (z : Z) : list ascii :=
  if z =? 0 then ["0"%char]
  else if z <? 0 then "-"%char :: decimal (- z) else decimal z.

(** Number::toString, step 5, for [z >= 10^21]: a [k]-digit [s] such that
    [s * 10^e] rounds to the Number [z], where [e] is the digit count of [z]
    minus [k]; of two such [s], the closer to [z], then the even one. The
    result is [(s, e)]. *)
Definition nearest_digits (z : Z) (k : nat) : option (Z * Z) :=
  let e := Z.of_nat (length (decimal z)) - Z.of_nat k in
  let p := 10 ^ e in
  let s0 := z / p in
  let denotes s := match round_double (s * p) with DFin m => m =? z | _ => false end in
  match denotes s0, denotes (s0 + 1) with
  | true, true =>
      if z - s0 * p <? (s0 + 1) * p - z then Some (s0, e)
      else if (s0 + 1) * p - z <? z - s0 * p then Some (s0 + 1, e)
      else if Z.even s0 then Some (s0, e) else Some (s0 + 1, e)
  | true, false => Some (s0, e)
  | false, true => Some (s0 + 1, e)
  | false, false => None
  end.

(** The least [k] for which [nearest_digits] finds digits. *)
Fixpoint shortest_digits (z : Z) (k fuel : nat) : Z * Z :=
  match fuel with
  | O => (z, 0)
  | S fuel' =>
      match nearest_digits z k with
      | Some r => r
      | None => shortest_digits z (S k) fuel'
      end
  end.

Fixpoint drop_zeros (l : list ascii) : list ascii :=
  match l with
  | "0"%char :: r => drop_zeros r
  | _ => l
  end.

(** The digits of [s] without its trailing zeros. *)
Definition strip_zeros (l : list ascii) : list ascii := rev (drop_zeros (rev l)).

(** Number::toString of a [z >= 10^21]: [d.ddde+n], or [de+n] for one digit. *)
Definition exponent_form (z : Z) : list ascii :=
  let '(s, e) := shortest_digits z 1 (length (decimal z)) in
  let n := Z.of_nat (length (decimal (s * 10 ^ e))) in
  let exponent := ["e"%char; "+"%char] ++ decimal (n - 1) in
  match strip_zeros (decimal s) with
  | [d] => d :: exponent
  | d :: rest => d :: "."%char :: rest ++ exponent
  | [] => exponent
  end.

(** [Number.prototype.toString()]: the plain decimal notation below 10^21,
    the exponent notation from 10^21 on. *)
Definition double_to_string (x : double) : string :=
  match x with
  | DNaN => "NaN"
  | DInf false => "Infinity"
  | DInf true => "-Infinity"
  | DFin z =>
      string_of_list_ascii
        (if Z.abs z <? 10 ^ 21 then integer_digits z
         else if z <? 0 then "-"%char :: exponent_form (- z) else exponent_form z)
  end.

(** [String(x)] of the Number a [js_number] denotes. *)
Definition number_to_string (x : js_number) : string :=
  double_to_string (double_of_js_number x).

Definition is_js_space (c : ascii) : bool :=
  let n := nat_of_ascii c in
  ((9 <=? n) && (n <=? 13))%nat || (n =? 32)%nat || (n =? 160)%nat.

Fixpoint skip_space (s : list ascii) : list ascii :=
  match s with
  | c :: s' => if is_js_space c then skip_space s' else s
  | [] => []
  end.

Fixpoint take_digits (s : list ascii) : list ascii :=
  match s with
  | c :: s' => if is_digit c then c :: take_digits s' else []
  | [] => []
  end.

(** [parseInt(s, 10)]: leading white space, an optional sign, then the
    longest run of decimal digits; no digit at all gives [NaN]. *)
Definition parseInt (s : string) : js_number :=
  let s1 := skip_space (list_ascii_of_string s) in
  let '(sign, s2) :=
    match s1 with
    | "-"%char :: r => (-1, r)
    | "+"%char :: r => (1, r)
    | _ => (1, s1)
    end in
  match take_digits s2 with
  | [] => None
  | ds => Some (sign * fold_left (fun acc c => acc * 10 + digit_val c) ds 0)
  end.

(* ------------------------------------------------------------------------ *)
(** ** Configuration (getAuthConfig, auth-service.js, lines 368-410) *)

(** [storage.keys]. *)
Definition ACCESS_TOKEN : string := "outlook2onenote_access_token".
Definition REFRESH_TOKEN : string := "outlook2onenote_refresh_token".
Definition TOKEN_EXPIRES : string := "outlook2onenote_token_expires".
Definition CODE_VERIFIER : string := "outlook2onenote_code_verifier".
Definition STATE : string := "outlook2onenote_state".
Definition USER_INFO : string := "outlook2onenote_user_info".

(* ------------------------------------------------------------------------ *)
(** ** Session storage and the token store of PKCEAuthenticator *)

(** [sessionStorage] (or [localStorage]; [storeSecurely],
    [retrieveSecurely] and [removeSecurely] use the same one). *)
Abbreviation storage := (gmap string string) (only parsing).

(** A JavaScript value that is a string or [undefined]. *)
Definition js_string := option string.

(** [storage.setItem(key, value)] converts its value to a string. *)
Definition to_js_string (v : js_string) : string :=
  match v with Some s => s | None => "undefined" end.

(** Truthiness of a string, [null] or [undefined]. *)
Definition truthy (v : option string) : bool :=
  match v with Some s => negb (String.eqb s "") | None => false end.

Definition storeSecurely (s : storage) (key : string) (value : string) : storage :=
  <[key := value]> s.

Definition retrieveSecurely (s : storage) (key : string) : option string := s !! key.

Definition removeSecurely (s : storage) (key : string) : storage := delete key s.

(** The token object built by [exchangeCodeVia*] and [refreshAccessToken]. *)
Record tokens := {
  accessToken : js_string;
  refreshToken : js_string;
  expiresIn : js_number
}.

(** [Date.now() + (tokens.expiresIn * 1000)], the expiry [storeTokens]
    computes at time [now]. *)
Definition token_expiry (now : Z) (t : tokens) : double :=
  d_add (round_double now) (d_mul (double_of_js_number (expiresIn t)) (DFin 1000)).

(** The largest time value: [new Date(x)] is an invalid date, and its
    [toISOString()] throws a [RangeError], when [x] is not finite or
    [|x| > 8.64e15] (TimeClip). *)
Definition MAX_TIME : Z := 8640000000000000.

Definition time_value_valid (x : double) : bool :=
  match x with DFin z => Z.abs z <=? MAX_TIME | _ => false end.

(** [storeTokens(tokens)] at time [now] ([Date.now()]): the three writes, then
    the log line whose [new Date(expiresAt).toISOString()] throws
    [RangeError: Invalid time value] for an invalid expiry; [storeTokens] is
    [async], so the throw rejects its promise after the writes. *)
Definition storeTokens (s : storage) (now : Z) (t : tokens) : storage * outcome unit :=
  let expiresAt := token_expiry now t in
  let s1 := storeSecurely s ACCESS_TOKEN (to_js_string (accessToken t)) in
  let s2 := storeSecurely s1 TOKEN_EXPIRES (double_to_string expiresAt) in
  let s3 :=
    if truthy (refreshToken t) then storeSecurely s2 REFRESH_TOKEN (to_js_string (refreshToken t))
    else s2 in
  (s3, if time_value_valid expiresAt then Ok tt else Throw "Invalid time value").

(** [hasValidToken()] at time [now]; [parseInt] gives the mathematical value,
    and the Number it returns is the nearest double. *)
Definition hasValidToken (s : storage) (now : Z) : bool :=
  let accessTok := retrieveSecurely s ACCESS_TOKEN in
  let expiresAt := retrieveSecurely s TOKEN_EXPIRES in
  if negb (truthy accessTok) || negb (truthy expiresAt) then false
  else
    let expirationTime := double_of_js_number (parseInt (default "" expiresAt)) in
    let bufferTime := DFin (5 * 60 * 1000) in
    d_lt (round_double now) (d_sub expirationTime bufferTime).

(** [canRefreshToken()]. *)
Definition canRefreshToken (s : storage) : bool := truthy (retrieveSecurely s REFRESH_TOKEN).

Example parseInt_ex : parseInt (number_to_string (Some 1760000000000)) = Some 1760000000000.
Proof. vm_compute. reflexivity. Qed.

(* ------------------------------------------------------------------------ *)
(** ** Calls made by the authentication code, and a traced exception monad *)

(** The observable calls, in the order the code makes them. *)
(** A JavaScript value as it reaches the code from a message or a URL:
    [undefined], [null], a string, or any other value (a number, say). *)
Inductive jsv : Type :=
  | JUndefined
  | JNull
  | JStr (s : string)
  | JOther (n : Z).

Inductive event : Type :=
  | EvGetNotebooks                (* PKCEAuthenticator.getNotebooks *)
  | EvRefresh                     (* PKCEAuthenticator.refreshAccessToken *)
  | EvStartPKCEFlow               (* PKCEAuthenticator.startPKCEFlow *)
  | EvPkceSsoFallback             (* PKCEAuthenticator.trySSoFallback *)
  | EvPkceMock                    (* PKCEAuthenticator.getMockNotebooks, in the catch *)
  | EvExchange (code : jsv)       (* PKCEAuthenticator.exchangeCodeForTokens(code) *)
  | EvOuterPkce                   (* graphapi-auth: pkceAuth.authenticateAndGetNotebooks *)
  | EvOuterSso                    (* graphapi-auth: trySSoAuthentication *)
  | EvOuterMock.                  (* graphapi-auth: getMockNotebooks, final fallback *)

(** An async function run to completion: the calls it made and whether it
    resolved or rejected. *)
Definition M (A : Type) : Type := list event * outcome A.

Definition ret {A : Type} (a : A) : M A := ([], Ok a).
Definition throw {A : Type} (msg : string) : M A := ([], Throw msg).

Definition bind {A B : Type} (m : M A) (f : A -> M B) : M B :=
  match m with
  | (tr, Ok a) => let '(tr', r) := f a in (tr ++ tr', r)
  | (tr, Throw e) => (tr, Throw e)
  end.

(** [try { m } catch (e) { h(e) }]. *)
Definition catch {A : Type} (m : M A) (h : string -> M A) : M A :=
  match m with
  | (tr, Ok a) => (tr, Ok a)
  | (tr, Throw e) => let '(tr', r) := h e in (tr ++ tr', r)
  end.

(** An awaited call whose result is supplied by the environment. *)
Definition call {A : Type} (ev : event) (o : outcome A) : M A := ([ev], o).

(** An awaited step of the code itself that makes no call. *)
Definition run_local {A : Type} (o : outcome A) : M A := ([], o).

Notation "x <- m ;; k" := (bind m (fun x => k))
  (at level 100, m at next level, right associativity).

(* ------------------------------------------------------------------------ *)
(** ** Notebooks *)

(** The fields of a notebook object that do not depend on the clock. *)
Record notebook := {
  nb_id : string;
  nb_displayName : string;
  nb_isDefault : bool
}.

(** A value the notebook functions return: an array, [null] or [undefined]. *)
Inductive nb_value : Type :=
  | NbList (l : list notebook)
  | NbNull
  | NbUndefined.

(** [if (notebooks)]: arrays are truthy, even empty ones. *)
Definition nb_truthy (v : nb_value) : bool :=
  match v with NbList _ => true | _ => false end.

(** [notebooks && notebooks.length > 0]. *)
Definition nb_nonempty (v : nb_value) : bool :=
  match v with NbList (_ :: _) => true | _ => false end.

(** [getMockNotebooks()] of graphapi-auth.js (lines 246-308). *)
Definition getMockNotebooks : list notebook :=
  [ {| nb_id := "modern-mock-1"; nb_displayName := "PKCE Authentication Test";
       nb_isDefault := false |};
    {| nb_id := "modern-mock-2"; nb_displayName := "OAuth 2.0 Secure Notebook";
       nb_isDefault := true |};
    {| nb_id := "modern-mock-3"; nb_displayName := "Modern Authentication Demo";
       nb_isDefault := false |} ].

(** [PKCEAuthenticator.getMockNotebooks()] (part_006, lines 1571-1604). *)
Definition pkce_getMockNotebooks : list notebook :=
  [ {| nb_id := "pkce-mock-1"; nb_displayName := "PKCE Test Notebook";
       nb_isDefault := true |};
    {| nb_id := "pkce-mock-2"; nb_displayName := "Secure Authentication Demo";
       nb_isDefault := false |} ].

(* ------------------------------------------------------------------------ *)
(** ** PKCEAuthenticator.authenticateAndGetNotebooks (part_006, lines 897-941) *)

(** What the environment answers to the calls this method makes: the
    storage and clock it reads, and the results of [refreshAccessToken],
    [getNotebooks] and [startPKCEFlow] (which rejects when the popup does not
    open, is closed, or the exchange fails), and whether Office.js SSO is
    present and its token request succeeds. *)
Record pkce_world := {
  pw_storage : storage;
  pw_now : Z;
  pw_refresh : outcome unit;
  pw_get_notebooks : outcome (list notebook);
  pw_flow : outcome nb_value;
  pw_office_auth : bool;          (* Office && Office.context && Office.context.auth *)
  pw_sso_token_ok : bool          (* result.status === Succeeded *)
}.

(** [trySSoFallback()] (lines 1395-1435): with a token it resolves with the
    mock notebooks, as the backend exchange is not implemented. *)
Definition trySSoFallback (w : pkce_world) : M (list notebook) :=
  call EvPkceSsoFallback
    (if negb (pw_office_auth w) then Throw "Office.js SSO not available"
     else if pw_sso_token_ok w then Ok pkce_getMockNotebooks
     else Throw "SSO failed: Unknown error").

Definition pkce_authenticateAndGetNotebooks (w : pkce_world) : M nb_value :=
  catch
    (if hasValidToken (pw_storage w) (pw_now w) then
       l <- call EvGetNotebooks (pw_get_notebooks w) ;; ret (NbList l)
     else if canRefreshToken (pw_storage w) then
       _ <- call EvRefresh (pw_refresh w) ;;
       l <- call EvGetNotebooks (pw_get_notebooks w) ;; ret (NbList l)
     else
       notebooks <- call EvStartPKCEFlow (pw_flow w) ;;
       if nb_truthy notebooks then ret notebooks
       else l <- call EvGetNotebooks (pw_get_notebooks w) ;; ret (NbList l))
    (fun _ =>
       catch (l <- trySSoFallback w ;; ret (NbList l))
             (fun _ => _ <- call EvPkceMock (Ok tt) ;; ret (NbList pkce_getMockNotebooks))).

(* ------------------------------------------------------------------------ *)
(** ** graphapi-auth.js: authenticateAndGetNotebooks (lines 71-124) *)

(** The environment of the module-level function: the PKCE authenticator's
    world, what [checkPlatformSupport] sees, and the answers to the SSO
    token request and to the Graph call made with that token. *)
Record outer_world := {
  ow_pkce : pkce_world;
  ow_has_office : bool;           (* typeof Office !== 'undefined' *)
  ow_has_auth : bool;             (* Office.context.auth.getAccessTokenAsync exists *)
  ow_sso_token : outcome string;  (* getAccessTokenAsync: token, failure or timeout *)
  ow_graph : outcome (list notebook) (* makeGraphApiRequest with that token *)
}.

Record platform_support := {
  hasOffice : bool;
  hasAuth : bool;
  supportsPKCE : bool
}.

(** [checkPlatformSupport()] (lines 36-68): [supportsPKCE] is the constant
    [true]; exceptions are caught inside. *)
Definition checkPlatformSupport (w : outer_world) : platform_support :=
  {| hasOffice := ow_has_office w; hasAuth := ow_has_office w && ow_has_auth w;
     supportsPKCE := true |}.

(** [trySSoAuthentication()] (lines 127-182). *)
Definition trySSoAuthentication (w : outer_world) : M (list notebook) :=
  call EvOuterSso
    match ow_sso_token w with
    | Throw m => Throw m
    | Ok _ =>
        match ow_graph w with
        | Ok (n :: l) => Ok (n :: l)
        | Ok [] => Ok []
        | Throw _ => Ok getMockNotebooks
        end
    end.

Definition authenticateAndGetNotebooks (w : outer_world) : M nb_value :=
  let platformSupport := checkPlatformSupport w in
  pkce <- (if supportsPKCE platformSupport then
             catch (notebooks <- (_ <- call EvOuterPkce (Ok tt) ;;
                                  pkce_authenticateAndGetNotebooks (ow_pkce w)) ;;
                    if nb_nonempty notebooks then ret (Some notebooks)
                    else match notebooks with
                         | NbNull => ret (Some NbNull)
                         | _ => ret None
                         end)
                   (fun _ => ret None)
           else ret None) ;;
  match pkce with
  | Some v => ret v
  | None =>
      sso <- (if hasOffice platformSupport && hasAuth platformSupport then
                catch (notebooks <- trySSoAuthentication w ;;
                       if nb_nonempty (NbList notebooks) then ret (Some (NbList notebooks))
                       else ret None)
                      (fun _ => ret None)
              else ret None) ;;
      match sso with
      | Some v => ret v
      | None => _ <- call EvOuterMock (Ok tt) ;; ret (NbList getMockNotebooks)
      end
  end.

(** Whether graphapi-auth's [authenticateAndGetNotebooks] goes on past the
    PKCE attempt: the PKCE call rejected, or resolved with neither a
    non-empty array nor [null]. *)
Definition pkce_falls_through (r : outcome nb_value) : bool :=
  match r with
  | Ok v => negb (nb_nonempty v) && negb (match v with NbNull => true | _ => false end)
  | Throw _ => true
  end.

(** Whether [trySSoAuthentication] resolves with a non-empty array. *)
Definition sso_yields_notebooks (w : outer_world) : bool :=
  match snd (trySSoAuthentication w) with Ok (_ :: _) => true | _ => false end.

(* ------------------------------------------------------------------------ *)
(** ** The authorization URL (PKCEAuthenticator.buildAuthorizationUrl) *)

(** The configuration the authenticator reads: [this.config] (the [azureAd]
    part of [getAuthConfig]) and [envConfig.authEndpoint]. *)
Record auth_config := {
  clientId : js_string;
  authority : string;
  redirectUri : js_string;
  scopes : list string;
  authEndpoint : js_string
}.

(** [endpoints.auth] of [getAuthConfig]:
    [envConfig.authEndpoint || `${envConfig.authority}/oauth2/v2.0/authorize`]. *)
Definition endpoints_auth (cfg : auth_config) : string :=
  if truthy (authEndpoint cfg) then to_js_string (authEndpoint cfg)
  else authority cfg ++ "/oauth2/v2.0/authorize".

(** [PKCE_CONFIG] of [getAuthConfig]. *)
Definition PKCE_responseType : string := "code".
Definition PKCE_codeChallengeMethod : string := "S256".
Definition PKCE_responseMode : string := "query".
Definition PKCE_prompt : string := "select_account".

(** [array.join(sep)] on an array of strings. *)
Definition join (sep : string) (xs : list string) : string := String.concat sep xs.

(** The record given to [new URLSearchParams({...})], in its property order;
    each value goes through [ToString] ([undefined] becomes "undefined"). *)
Definition authorization_params (cfg : auth_config) (codeChallenge state : string)
  : list (string * string) :=
  [("client_id", to_js_string (clientId cfg));
   ("response_type", PKCE_responseType);
   ("redirect_uri", to_js_string (redirectUri cfg));
   ("scope", join " " (scopes cfg));
   ("state", state);
   ("code_challenge", codeChallenge);
   ("code_challenge_method", PKCE_codeChallengeMethod);
   ("response_mode", PKCE_responseMode);
   ("prompt", PKCE_prompt)].

(** The application/x-www-form-urlencoded byte serializer of the URL
    standard: ASCII alphanumerics and [*-._] are kept, a space becomes [+],
    every other byte is percent-encoded with upper-case hex digits. *)
Definition form_unreserved (c : ascii) : bool :=
  let n := nat_of_ascii c in
  ((48 <=? n)%nat && (n <=? 57)%nat) || ((65 <=? n)%nat && (n <=? 90)%nat)
  || ((97 <=? n)%nat && (n <=? 122)%nat)
  || (n =? 42)%nat || (n =? 45)%nat || (n =? 46)%nat || (n =? 95)%nat.

Definition hex_digit (n : nat) : ascii :=
  nth n (list_ascii_of_string "0123456789ABCDEF") "0"%char.

Definition urlencode_char (c : ascii) : list ascii :=
  let n := nat_of_ascii c in
  if form_unreserved c then [c]
  else if (n =? 32)%nat then ["+"%char]
  else ["%"%char; hex_digit (n / 16); hex_digit (n mod 16)].

Definition form_urlencode (s : list ascii) : list ascii := flat_map urlencode_char s.

Fixpoint join_with (sep : ascii) (xs : list (list ascii)) : list ascii :=
  match xs with
  | [] => []
  | [x] => x
  | x :: xs' => x ++ sep :: join_with sep xs'
  end.

(** [URLSearchParams.prototype.toString]: name=value pairs joined by [&]. *)
Definition urlsearchparams_toString (ps : list (string * string)) : list ascii :=
  join_with "&"%char
    (map (fun '(k, v) =>
            form_urlencode (list_ascii_of_string k) ++ "="%char
              :: form_urlencode (list_ascii_of_string v)) ps).

(** [buildAuthorizationUrl(codeChallenge, state)]:
    [`${this.authEndpoint}?${params.toString()}`]. *)
Definition buildAuthorizationUrl (cfg : auth_config) (codeChallenge state : string)
  : string :=
  endpoints_auth cfg ++ "?" ++
    string_of_list_ascii
      (urlsearchparams_toString (authorization_params cfg codeChallenge state)).

(** The reading side: the URL standard's application/x-www-form-urlencoded
    parser, as the authorize endpoint (or [new URLSearchParams(query)]) reads
    the query: split on [&], drop empty pieces, split each piece at its first
    [=], and decode [+] and [%XX]. *)
Fixpoint split_on (c : ascii) (s : list ascii) : list (list ascii) :=
  match s with
  | [] => [[]]
  | x :: s' =>
      if Ascii.eqb x c then [] :: split_on c s'
      else match split_on c s' with
           | h :: t => (x :: h) :: t
           | [] => [[x]]
           end
  end.

Fixpoint split_pair (p : list ascii) : list ascii * list ascii :=
  match p with
  | [] => ([], [])
  | x :: p' =>
      if Ascii.eqb x "="%char then ([], p')
      else let '(a, b) := split_pair p' in (x :: a, b)
  end.

Definition hex_value (c : ascii) : option nat :=
  let n := nat_of_ascii c in
  if ((48 <=? n)%nat && (n <=? 57)%nat) then Some (n - 48)%nat
  else if ((65 <=? n)%nat && (n <=? 70)%nat) then Some (n - 55)%nat
  else if ((97 <=? n)%nat && (n <=? 102)%nat) then Some (n - 87)%nat
  else None.

Fixpoint form_urldecode (s : list ascii) : list ascii :=
  match s with
  | [] => []
  | c :: s' =>
      if Ascii.eqb c "+"%char then " "%char :: form_urldecode s'
      else if Ascii.eqb c "%"%char then
        match s' with
        | h1 :: h2 :: s'' =>
            match hex_value h1, hex_value h2 with
            | Some a, Some b => ascii_of_nat (16 * a + b) :: form_urldecode s''
            | _, _ => c :: form_urldecode s'
            end
        | _ => c :: form_urldecode s'
        end
      else c :: form_urldecode s'
  end.

Definition nonempty_piece (p : list ascii) : bool :=
  match p with [] => false | _ => true end.

Definition decode_piece (p : list ascii) : string * string :=
  let '(k, v) := split_pair p in
  (string_of_list_ascii (form_urldecode k), string_of_list_ascii (form_urldecode v)).

Definition parse_query (q : string) : list (string * string) :=
  map decode_piece (List.filter nonempty_piece (split_on "&"%char (list_ascii_of_string q))).

(* ------------------------------------------------------------------------ *)
(** ** The synchronous start of PKCEAuthenticator.startPKCEFlow *)

(** [generateState()] (crypto-utils.js): 16 random bytes, base64url-encoded. *)
Definition generateState (rnd : nat -> Byte.byte) : list ascii :=
  base64urlEncode (map (fun i => byte_val (rnd i)) (seq 0 16)).

(** What [startPKCEFlow] has done when it opens the popup: the storage after
    its two [storeSecurely] calls, the URL it opens, and the verifier and
    challenge it generated. *)
Record pkce_start := {
  ps_storage : storage;
  ps_authUrl : string;
  ps_codeVerifier : list ascii;
  ps_codeChallenge : list ascii
}.

(** [startPKCEFlow] up to [window.open]: [rv] and [rs] are the random bytes
    drawn by this call's [generateCodeVerifier] and [generateState]. An error
    thrown here is rethrown as "PKCE flow initialization failed: ...". *)
Definition startPKCEFlow_prepare (env : crypto_env) (cfg : auth_config)
    (rv rs : nat -> Byte.byte) (s : storage) : outcome pkce_start :=
  let codeVerifier := generateCodeVerifier rv in
  match generateCodeChallenge env (code_units_of codeVerifier) with
  | Throw m => Throw ("PKCE flow initialization failed: " ++ m)
  | Ok codeChallenge =>
      let state := generateState rs in
      if negb (validateCodeVerifier codeVerifier) then
        Throw "PKCE flow initialization failed: Generated code verifier is invalid"
      else
        let s1 := storeSecurely s CODE_VERIFIER (string_of_list_ascii codeVerifier) in
        let s2 := storeSecurely s1 STATE (string_of_list_ascii state) in
        Ok {| ps_storage := s2;
              ps_authUrl := buildAuthorizationUrl cfg (string_of_list_ascii codeChallenge)
                              (string_of_list_ascii state);
              ps_codeVerifier := codeVerifier;
              ps_codeChallenge := codeChallenge |}
  end.

(* ------------------------------------------------------------------------ *)
(** ** The two places an authorization code arrives *)

(** [a === b] on the values that reach the state comparison. *)
Definition strict_eq (a b : jsv) : bool :=
  match a, b with
  | JUndefined, JUndefined => true
  | JNull, JNull => true
  | JStr x, JStr y => String.eqb x y
  | JOther x, JOther y => Z.eqb x y
  | _, _ => false
  end.

Definition jsv_truthy (v : jsv) : bool :=
  match v with
  | JStr x => negb (String.eqb x "")
  | JOther n => negb (Z.eqb n 0)
  | _ => false
  end.

(** [`${v}`]. *)
Definition jsv_to_string (v : jsv) : string :=
  match v with
  | JUndefined => "undefined"
  | JNull => "null"
  | JStr x => x
  | JOther n => number_to_string (Some n)
  end.

(** [this.retrieveSecurely(key)]: [sessionStorage.getItem(key)], [null] when
    absent. *)
Definition retrieve_jsv (s : storage) (key : string) : jsv :=
  match retrieveSecurely s key with Some v => JStr v | None => JNull end.

(** What the environment answers to the awaited calls after the state check. *)
Record exchange_env := {
  ex_tokens : outcome tokens;              (* exchangeCodeForTokens(code) *)
  ex_now : Z;                              (* Date.now() in storeTokens(tokens) *)
  ex_notebooks : outcome (list notebook)   (* getNotebooks() *)
}.

(** [event.data] of a message posted to the opener. *)
Record message_data := {
  d_type : jsv;
  d_code : jsv;
  d_state : jsv;
  d_error : jsv;
  d_notebooks : nb_value
}.

Record message := {
  m_origin : string;
  m_data : message_data
}.

(** What one call of [messageHandler] does to the promise of
    [startPKCEFlow]: nothing (the message is ignored or of another type), or
    resolve or reject it. *)
Inductive settle : Type :=
  | NoEffect
  | Resolved (v : nb_value)
  | Rejected (msg : string).

Definition INVALID_STATE : string := "Invalid state parameter - possible CSRF attack".

(** The [messageHandler] installed by [startPKCEFlow] (part_006, lines
    984-1035), for a window whose origin is [window_origin] and whose
    storage is [s]. [await this.storeTokens(tokens)] is kept for its outcome
    (it rejects on an invalid expiry); the storage it leaves, the later
    [cleanupAuthState] and the popup bookkeeping are left out, as
    [getNotebooks] is an answer of the environment here; the calls made and
    the settlement are kept. *)
Definition messageHandler (window_origin : string) (s : storage) (ex : exchange_env)
    (m : message) : list event * settle :=
  let d := m_data m in
  if negb (String.eqb (m_origin m) window_origin) then ([], NoEffect)
  else if strict_eq (d_type d) (JStr "PKCE_AUTH_CODE") then
    let body : M (list notebook) :=
      let storedState := retrieve_jsv s STATE in
      if negb (strict_eq (d_state d) storedState) then throw INVALID_STATE
      else
        tokens <- call (EvExchange (d_code d)) (ex_tokens ex) ;;
        _ <- run_local (snd (storeTokens s (ex_now ex) tokens)) ;;
        notebooks <- call EvGetNotebooks (ex_notebooks ex) ;;
        ret notebooks in
    match body with
    | (tr, Ok nbs) => (tr, Resolved (NbList nbs))
    | (tr, Throw e) => (tr, Rejected e)
    end
  else if strict_eq (d_type d) (JStr "PKCE_AUTH_SUCCESS") then ([], Resolved (d_notebooks d))
  else if strict_eq (d_type d) (JStr "PKCE_AUTH_ERROR") then ([], Rejected (jsv_to_string (d_error d)))
  else ([], NoEffect).

(** [new URLSearchParams(window.location.search).get(name)]: the first value
    under [name], or [null]; [ps] is the decoded query. *)
Fixpoint url_get (ps : list (string * string)) (name : string) : jsv :=
  match ps with
  | [] => JNull
  | (k, v) :: ps' => if String.eqb k name then JStr v else url_get ps' name
  end.

(** [handleAuthorizationCallback()] (part_006, lines 1090-1139) for the
    decoded query [ps]. [await this.storeTokens(tokens)] is kept for its
    outcome; the storage it leaves and [cleanupAuthState] (on both paths) are
    left out, as [getNotebooks] is an answer of the environment here; an
    error is rethrown unchanged by the [catch]. *)
Definition handleAuthorizationCallback (ps : list (string * string)) (s : storage)
    (ex : exchange_env) : M (list notebook) :=
  let code := url_get ps "code" in
  let state := url_get ps "state" in
  let error := url_get ps "error" in
  let errorDescription := url_get ps "error_description" in
  if jsv_truthy error then
    throw ("Authorization failed: " ++ jsv_to_string error ++ " - "
           ++ jsv_to_string errorDescription)
  else if negb (jsv_truthy code) then throw "Authorization code not received"
  else if negb (jsv_truthy state) then throw "State parameter not received"
  else
    let storedState := retrieve_jsv s STATE in
    if negb (strict_eq state storedState) then throw INVALID_STATE
    else
      tokens <- call (EvExchange code) (ex_tokens ex) ;;
      _ <- run_local (snd (storeTokens s (ex_now ex) tokens)) ;;
      notebooks <- call EvGetNotebooks (ex_notebooks ex) ;;
      ret notebooks.

Definition is_exchange (ev : event) : bool :=
  match ev with EvExchange _ => true | _ => false end.

(* ------------------------------------------------------------------------ *)
(** ** exportConversationToOneNote (part_006, lines 522-594) *)

(** An element of [conversationData]. *)
Record email := {
  Subject : js_string;
  Sender : js_string;
  DateTimeReceived : js_string;
  DateTimeSent : js_string;
  Body : js_string
}.

(** The [notebook] argument. *)
Record target_notebook := {
  tn_displayName : js_string;
  tn_name : js_string
}.

(** [v || d] for a possibly-undefined string [v] and a string [d]. *)
Definition or_else (v : js_string) (d : string) : string :=
  if truthy v then to_js_string v else d.

(** [s.replace(/\n/g, '<br>')]. *)
Fixpoint replace_newlines (s : string) : string :=
  match s with
  | EmptyString => EmptyString
  | String c s' =>
      if Ascii.eqb c "010"%char then ("<br>" ++ replace_newlines s')%string
      else String c (replace_newlines s')
  end.

(** A double quote, for the attribute values of the page. *)
Definition quote : string := String "034"%char EmptyString.

Definition loc := positive.
Abbreviation heap := (gmap loc (list email)) (only parsing).

(** The page the function prepares, and the arrays after the call. *)
Record export_result := {
  er_heap : heap;
  er_title : string;
  er_content : string
}.

(** [Date.parse], the time value of [new Date(s)] for a string [s] ([None]
    for an invalid date), is a parameter of the development. *)
Section ConversationExport.

Variable date_parse : string -> js_number.

(** [new Date(e.DateTimeReceived || e.DateTimeSent || 0)], as a number. *)
Definition date_key (e : email) : js_number :=
  if truthy (DateTimeReceived e) then date_parse (to_js_string (DateTimeReceived e))
  else if truthy (DateTimeSent e) then date_parse (to_js_string (DateTimeSent e))
  else Some 0.

(** [dateA - dateB]. *)
Definition compare_emails (a b : email) : js_number :=
  match date_key a, date_key b with
  | Some x, Some y => Some (x - y)
  | _, _ => None
  end.

(** SortCompare: a [NaN] result of the comparator counts as [+0]. *)
Definition sort_compare (a b : email) : Z :=
  match compare_emails a b with Some z => z | None => 0 end.

(** [Array.prototype.sort] must be stable; for a consistent comparator its
    result is the one of this stable insertion sort: [x] is placed after [y]
    only when the comparator says [x] comes strictly after [y]. *)
Fixpoint insert_email (x : email) (l : list email) : list email :=
  match l with
  | [] => [x]
  | y :: l' => if 0 <? sort_compare x y then y :: insert_email x l' else x :: l
  end.

Definition array_sort (l : list email) : list email := fold_right insert_email [] l.

(** The page header and footer, and one block per email; the indentation
    and line breaks of the template literals are left out. *)
Definition page_header (pageTitle : string) (count : nat) (nb : target_notebook)
    (exportedOn : string) : string :=
  "<html><head><title>" ++ pageTitle ++ "</title></head><body><h1>" ++ pageTitle
  ++ "</h1><p><strong>Exported on:</strong> " ++ exportedOn
  ++ "</p><p><strong>Total emails:</strong> " ++ number_to_string (Some (Z.of_nat count))
  ++ "</p><p><strong>Target notebook:</strong> "
  ++ or_else (tn_displayName nb) (to_js_string (tn_name nb)) ++ "</p><hr />".

Definition page_footer : string := "</body></html>".

Definition email_block (index : nat) (e : email) : string :=
  "<div style=" ++ quote
  ++ "margin-bottom: 20px; padding: 10px; border: 1px solid #ccc; border-radius: 4px;"
  ++ quote ++ "><h3>Email " ++ number_to_string (Some (Z.of_nat index + 1))
  ++ "</h3><p><strong>Subject:</strong> " ++ or_else (Subject e) "No Subject"
  ++ "</p><p><strong>From:</strong> " ++ or_else (Sender e) "Unknown"
  ++ "</p><p><strong>Date:</strong> "
  ++ or_else (DateTimeReceived e) (or_else (DateTimeSent e) "Unknown")
  ++ "</p><hr /><div style=" ++ quote ++ "margin-top: 10px;" ++ quote ++ ">"
  ++ replace_newlines (or_else (Body e) "No content available")
  ++ "</div></div>".

(** [conversationData.forEach((email, index) => { pageContent += ... })]. *)
Fixpoint email_blocks (index : nat) (l : list email) : string :=
  match l with
  | [] => EmptyString
  | e :: l' => email_block index e ++ email_blocks (S index) l'
  end.

(** [exportConversationToOneNote(conversationData, notebook, insertAt)] where
    [conversationData] is the array stored at [arr] in the heap [h] and
    [exportedOn] is [new Date().toLocaleString()]. The status lines appended
    to [insertAt] are left out. *)
Definition exportConversationToOneNote (h : heap) (arr : loc) (nb : target_notebook)
    (exportedOn : string) : outcome export_result :=
  match h !! arr with
  | None => Throw "conversationData.sort is not a function"
  | Some conversationData =>
      let sorted := array_sort conversationData in
      let h' := <[arr := sorted]> h in
      let pageTitle :=
        match sorted with
        | e :: _ => ("Email Thread: " ++ or_else (Subject e) "No Subject")%string
        | [] => "Email Thread Export"
        end in
      let pageContent :=
        (page_header pageTitle (length sorted) nb exportedOn
         ++ email_blocks 0 sorted ++ page_footer)%string in
      Ok {| er_heap := h'; er_title := pageTitle; er_content := pageContent |}
  end.

End ConversationExport.

(* ------------------------------------------------------------------------ *)
(** ** Auxiliary functions of the proofs *)

Definition url_safe (s : list ascii) : list ascii :=
  remove_char "="%char (replace_char "/"%char "_"%char (replace_char "+"%char "-"%char s)).

Definition url_char (c : ascii) : ascii :=
  if Ascii.eqb c "/"%char then "_"%char
  else if Ascii.eqb c "+"%char then "-"%char else c.

Fixpoint b64url_len (n : nat) : nat :=
  match n with
  | S (S (S m)) => 4 + b64url_len m
  | 2%nat => 3
  | 1%nat => 2
  | O => 0
  end.

Definition digits_value (l : list ascii) : Z :=
  fold_right (fun c acc => acc * 10 + digit_val c) 0 l.

Definition is_outer_call (ev : event) : bool :=
  match ev with EvOuterPkce | EvOuterSso | EvOuterMock => true | _ => false end.

Definition avoids (c : ascii) (x : list ascii) : bool :=
  forallb (fun y => negb (Ascii.eqb y c)) x.

Definition encode_pair (kv : string * string) : list ascii :=
  let '(k, v) := kv in
  form_urlencode (list_ascii_of_string k) ++ "="%char
    :: form_urlencode (list_ascii_of_string v).

Fixpoint index_of (c : ascii) (l : list ascii) : Z :=
  match l with
  | [] => 0
  | x :: l' => if Ascii.eqb x c then 0 else 1 + index_of c l'
  end.

Definition b64url_index (c : ascii) : Z := index_of c b64url_alphabet.

Definition join1 (i j : Z) : Z := Z.lor (Z.shiftl i 2) (Z.shiftr j 4).
Definition join2 (j k : Z) : Z := Z.lor (Z.shiftl (Z.land j 15) 4) (Z.shiftr k 2).
Definition join3 (k l : Z) : Z := Z.lor (Z.shiftl (Z.land k 3) 6) l.

Fixpoint b64url_decode (s : list ascii) : list Z :=
  match s with
  | w :: x :: y :: z :: rest =>
      join1 (b64url_index w) (b64url_index x) :: join2 (b64url_index x) (b64url_index y)
        :: join3 (b64url_index y) (b64url_index z) :: b64url_decode rest
  | [w; x; y] => [join1 (b64url_index w) (b64url_index x); join2 (b64url_index x) (b64url_index y)]
  | [w; x] => [join1 (b64url_index w) (b64url_index x)]
  | _ => []
  end.

Definition is_sextet (a : Z) : bool := (0 <=? a) && (a <? 64).

Definition byte_pair_ok (x y : Z) : bool :=
  is_sextet (sextet1 x) && is_sextet (sextet2 x y) && is_sextet (sextet3 x y)
  && is_sextet (sextet4 y)
  && (Z.land (sextet2 x y) 15 =? Z.shiftr y 4) && (Z.shiftr (sextet2 x y) 4 =? Z.land x 3)
  && (Z.shiftr (sextet3 x y) 2 =? Z.land x 15) && (Z.land (sextet3 x y) 3 =? Z.shiftr y 6).

Definition byte_ok (z : Z) : bool :=
  (Z.lor (Z.shiftl (Z.shiftr z 2) 2) (Z.land z 3) =? z)
  && (Z.lor (Z.shiftl (Z.shiftr z 4) 4) (Z.land z 15) =? z)
  && (Z.lor (Z.shiftl (Z.shiftr z 6) 6) (Z.land z 63) =? z).

Section DateOrder.

Variable date_parse : string -> js_number.

Definition date_le (a b : email) : Prop :=
  match date_key date_parse a, date_key date_parse b with
  | Some x, Some y => x <= y
  | _, _ => False
  end.

Definition date_valid (e : email) : Prop := date_key date_parse e <> None.

End DateOrder.

(* ------------------------------------------------------------------------ *)
(** ** Concrete inputs *)

(** The popup is blocked: no token is stored, [startPKCEFlow] rejects, and
    Office SSO would be available to graphapi-auth. *)
Definition popup_blocked_world : outer_world :=
  {| ow_pkce :=
       {| pw_storage := ∅; pw_now := 1760000000000;
          pw_refresh := Throw "Refresh token not available";
          pw_get_notebooks := Throw "Access token not available";
          pw_flow := Throw ("Failed to open authentication popup. "
                            ++ "Please allow popups for this site and try again.");
          pw_office_auth := true; pw_sso_token_ok := false |};
     ow_has_office := true; ow_has_auth := true;
     ow_sso_token := Ok "sso-token";
     ow_graph := Ok [ {| nb_id := "nb-1"; nb_displayName := "Work"; nb_isDefault := true |} ] |}.

Definition env_without_subtle : crypto_env :=
  {| has_text_encoder := true; has_subtle := false; has_get_random_values := true |}.

Definition callback_with_error : list (string * string) :=
  [("code", "c"); ("state", "x"); ("error", "access_denied")].

Definition storage_with_state : storage := {[ STATE := "y" ]}.

Definition exchange_ok : exchange_env :=
  {| ex_tokens := Ok {| accessToken := Some "t"; refreshToken := None; expiresIn := Some 3600 |};
     ex_now := 1760000000000;
     ex_notebooks := Ok [] |}.

Definition email_at (subject received : string) : email :=
  {| Subject := Some subject; Sender := Some "a@example.com";
     DateTimeReceived := Some received; DateTimeSent := None; Body := Some "hi" |}.

Definition conversation_heap : heap :=
  {[ 1%positive := [email_at "Re: plan" "200"; email_at "plan" "100"] ]}.

Definition mail_notebook : target_notebook :=
  {| tn_displayName := Some "Work"; tn_name := None |}.

Definition conversation_empty_subject : heap :=
  {[ 1%positive := [email_at "" "100"] ]}.

(* ------------------------------------------------------------------------ *)
(** ** The environment configuration (auth-service.js, lines 322-475) *)

(** [process.env]: the variables that are set, with their values. *)
Abbreviation process_env := (gmap string string) (only parsing).

(** [process.env.NAME || d]. *)
Definition env_or (penv : process_env) (name d : string) : string :=
  if truthy (penv !! name) then default "" (penv !! name) else d.

(** [process.env.NAME === 'true']. *)
Definition env_is_true (penv : process_env) (name : string) : bool :=
  match penv !! name with Some v => String.eqb v "true" | None => false end.

(** [s.split(' ').filter(Boolean)]. *)
Definition split_words (s : string) : list string :=
  List.filter (fun w => negb (String.eqb w ""))
    (map string_of_list_ascii (split_on " "%char (list_ascii_of_string s))).

(** The object [loadEnvironmentConfig] returns; the fields that only the
    server configuration sets are [undefined] ([None]) in a browser. *)
Record env_config := {
  ec_clientId : string;
  ec_clientSecret : js_string;
  ec_tenantId : js_string;
  ec_authority : string;
  ec_tokenEndpoint : js_string;
  ec_authEndpoint : js_string;
  ec_redirectUri : string;
  ec_postLogoutRedirectUri : string;
  ec_backendServiceUrl : string;
  ec_scopes : list string;
  ec_useSessionStorage : bool;
  ec_debugAuth : bool;
  ec_nodeEnv : js_string
}.

Definition browser_clientId : string := "a73f5240-e06c-43a3-8328-1fbd80766263".
Definition browser_authority : string := "https://login.microsoftonline.com/common".
Definition browser_redirectUri : string := "https://localhost:3000/src/auth/callback".
Definition browser_postLogoutRedirectUri : string := "https://localhost:3000".
Definition browser_backendServiceUrl : string := "https://your-backend-service.azurewebsites.net".
Definition browser_scopes : list string :=
  ["https://graph.microsoft.com/Notes.Read"; "https://graph.microsoft.com/Notes.ReadWrite";
   "https://graph.microsoft.com/Mail.Read"; "https://graph.microsoft.com/User.Read"].

(** [browserConfig]. *)
Definition browserConfig : env_config :=
  {| ec_clientId := browser_clientId; ec_clientSecret := None; ec_tenantId := None;
     ec_authority := browser_authority; ec_tokenEndpoint := None; ec_authEndpoint := None;
     ec_redirectUri := browser_redirectUri;
     ec_postLogoutRedirectUri := browser_postLogoutRedirectUri;
     ec_backendServiceUrl := browser_backendServiceUrl; ec_scopes := browser_scopes;
     ec_useSessionStorage := true; ec_debugAuth := true; ec_nodeEnv := None |}.

(** [loadEnvironmentConfig()]: [isNode] is [typeof process !== 'undefined'
    && process.env]; in Node.js every field of [serverConfig] is defined, so
    the spread [{ ...browserConfig, ...serverConfig }] is [serverConfig]. *)
Definition loadEnvironmentConfig (isNode : bool) (penv : process_env) : env_config :=
  if isNode then
    {| ec_clientId := env_or penv "CLIENT_ID" browser_clientId;
       ec_clientSecret := Some (env_or penv "CLIENT_SECRET" "");
       ec_tenantId := Some (env_or penv "TENANT_ID" "common");
       ec_authority := env_or penv "AUTHORITY" browser_authority;
       ec_tokenEndpoint := Some (env_or penv "TOKEN_ENDPOINT"
                                   (browser_authority ++ "/oauth2/v2.0/token")%string);
       ec_authEndpoint := Some (env_or penv "AUTH_ENDPOINT"
                                  (browser_authority ++ "/oauth2/v2.0/authorize")%string);
       ec_redirectUri := env_or penv "REDIRECT_URI" browser_redirectUri;
       ec_postLogoutRedirectUri :=
         env_or penv "POST_LOGOUT_REDIRECT_URI" browser_postLogoutRedirectUri;
       ec_backendServiceUrl := env_or penv "BACKEND_SERVICE_URL" browser_backendServiceUrl;
       (* [(process.env.GRAPH_SCOPES || '').split(' ').filter(Boolean) || browserConfig.scopes]:
          an array is truthy, so the right operand is never taken *)
       ec_scopes := split_words (env_or penv "GRAPH_SCOPES" "");
       ec_useSessionStorage := env_is_true penv "USE_SESSION_STORAGE" || true;
       ec_debugAuth := env_is_true penv "DEBUG_AUTH" || true;
       ec_nodeEnv := Some (env_or penv "NODE_ENV" "development") |}
  else browserConfig.

Record azure_ad_config := {
  ad_clientId : string;
  ad_clientSecret : js_string;
  ad_authority : string;
  ad_redirectUri : string;
  ad_postLogoutRedirectUri : string;
  ad_scopes : list string;
  ad_tenantId : string
}.

Record endpoints_config := {
  ep_token : string;
  ep_auth : string;
  ep_backend : string
}.

(** The result of [getAuthConfig()]; its [pkce] part and its storage keys are
    the constants [PKCE_*] and [ACCESS_TOKEN], ..., [USER_INFO] above. *)
Record full_auth_config := {
  azureAd : azure_ad_config;
  endpoints : endpoints_config;
  storage_useSessionStorage : bool;
  debug : bool
}.

(** [getAuthConfig()] (lines 368-409). [scopes] is always an array here, so
    [Array.isArray(envConfig.scopes) ? envConfig.scopes : [envConfig.scopes]]
    is [envConfig.scopes]. *)
Definition getAuthConfig (isNode : bool) (penv : process_env) : full_auth_config :=
  let envConfig := loadEnvironmentConfig isNode penv in
  {| azureAd :=
       {| ad_clientId := ec_clientId envConfig;
          ad_clientSecret := ec_clientSecret envConfig;
          ad_authority := ec_authority envConfig;
          ad_redirectUri := ec_redirectUri envConfig;
          ad_postLogoutRedirectUri := ec_postLogoutRedirectUri envConfig;
          ad_scopes := ec_scopes envConfig;
          ad_tenantId := if truthy (ec_tenantId envConfig)
                         then to_js_string (ec_tenantId envConfig) else "common" |};
     endpoints :=
       {| ep_token := if truthy (ec_tokenEndpoint envConfig)
                      then to_js_string (ec_tokenEndpoint envConfig)
                      else ec_authority envConfig ++ "/oauth2/v2.0/token";
          ep_auth := if truthy (ec_authEndpoint envConfig)
                     then to_js_string (ec_authEndpoint envConfig)
                     else ec_authority envConfig ++ "/oauth2/v2.0/authorize";
          ep_backend := ec_backendServiceUrl envConfig |};
     storage_useSessionStorage := ec_useSessionStorage envConfig;
     debug := ec_debugAuth envConfig || false |}.

(** The configuration a [PKCEAuthenticator] built without [customConfig]
    reads (part_006, lines 861-883): [this.config] is [getAuthConfig().azureAd]
    and [this.authEndpoint] is [getAuthConfig().endpoints.auth], which is
    computed from [envConfig.authEndpoint] and [envConfig.authority]. *)
Definition pkce_config (isNode : bool) (penv : process_env) : auth_config :=
  let envConfig := loadEnvironmentConfig isNode penv in
  let c := getAuthConfig isNode penv in
  {| clientId := Some (ad_clientId (azureAd c));
     authority := ad_authority (azureAd c);
     redirectUri := Some (ad_redirectUri (azureAd c));
     scopes := ad_scopes (azureAd c);
     authEndpoint := ec_authEndpoint envConfig |}.

(** [validateEnvironmentConfig()] (lines 433-474); the console output and
    the [getBackendConfig] warning have no other effect. *)
Definition validateEnvironmentConfig (isNode : bool) (penv : process_env) : outcome bool :=
  let config := getAuthConfig isNode penv in
  let errors :=
    (if String.eqb (ad_clientId (azureAd config)) "" then ["CLIENT_ID is required"] else [])
    ++ (if String.eqb (ad_authority (azureAd config)) "" then ["AUTHORITY is required"] else [])
    ++ (if String.eqb (ad_redirectUri (azureAd config)) "" then ["REDIRECT_URI is required"] else [])
    ++ (match ad_scopes (azureAd config) with
        | [] => ["At least one scope is required"]
        | _ => []
        end) in
  match errors with
  | [] => Ok true
  | _ => Throw ("Environment configuration errors: " ++ join ", " errors)
  end.

(* ------------------------------------------------------------------------ *)
(** ** Cleanup and logout (PKCEAuthenticator, part_006, lines 1521-1566) *)

(** [Object.values(STORAGE_KEYS)], in the order of [getAuthConfig]. *)
Definition STORAGE_KEYS : list string :=
  [ACCESS_TOKEN; REFRESH_TOKEN; TOKEN_EXPIRES; CODE_VERIFIER; STATE; USER_INFO].

(** [cleanupAuthState()]. *)
Definition cleanupAuthState (s : storage) : storage :=
  removeSecurely (removeSecurely s CODE_VERIFIER) STATE.

(** [clearAuthData()]: [removeSecurely] on every key. [removeSecurely] also
    removes the key from [localStorage], which the authenticator never reads
    while [useSessionStorage] holds. *)
Definition clearAuthData (s : storage) : storage := fold_left removeSecurely STORAGE_KEYS s.

(** The characters [encodeURIComponent] leaves alone:
    [A-Za-z0-9-_.!~*'()]. *)
Definition uri_unreserved (c : ascii) : bool :=
  let n := nat_of_ascii c in
  ((48 <=? n)%nat && (n <=? 57)%nat) || ((65 <=? n)%nat && (n <=? 90)%nat)
  || ((97 <=? n)%nat && (n <=? 122)%nat)
  || (n =? 45)%nat || (n =? 95)%nat || (n =? 46)%nat || (n =? 33)%nat
  || (n =? 126)%nat || (n =? 42)%nat || (n =? 39)%nat || (n =? 40)%nat || (n =? 41)%nat.

Definition percent_byte (b : Z) : list ascii :=
  let n := Z.to_nat b in ["%"%char; hex_digit (n / 16); hex_digit (n mod 16)].

(** One character of [encodeURIComponent]: kept, or its UTF-8 bytes, each
    written [%XX]. *)
Definition uri_encode_char (c : ascii) : list ascii :=
  if uri_unreserved c then [c]
  else flat_map percent_byte (utf8_of_code_point (Z.of_nat (nat_of_ascii c))).

(** [encodeURIComponent(s)] on a string whose code units are its characters
    (all below U+0100). *)
Definition encodeURIComponent (s : string) : string :=
  string_of_list_ascii (flat_map uri_encode_char (list_ascii_of_string s)).

(** [logout()]: the storage afterwards, and the URL assigned to
    [window.location.href]. [this.config.postLogoutRedirectUri] is passed
    beside the configuration. *)
Definition logout (cfg : auth_config) (postLogoutRedirectUri : js_string) (s : storage)
  : storage * string :=
  let s' := clearAuthData s in
  let logoutUrl := (authority cfg ++ "/oauth2/v2.0/logout?post_logout_redirect_uri="
                     ++ encodeURIComponent (to_js_string postLogoutRedirectUri))%string in
  (s', logoutUrl).

(* ------------------------------------------------------------------------ *)
(** ** Network calls of PKCEAuthenticator (part_006, lines 1146-1390) *)

(** The requests the authenticator sends, in order. *)
Inductive request : Type :=
  (** [POST ${backendEndpoint}/api/auth/exchange-code] with the JSON body
      [{code, codeVerifier, redirectUri}] *)
  | ReqBackendExchange (url : string) (code codeVerifier : string) (redirectUri : js_string)
  (** [POST] to the token endpoint with a form-encoded body *)
  | ReqTokenEndpoint (url : string) (body : string)
  (** [GET] on the Graph API with an [Authorization] header *)
  | ReqGraph (url : string) (authorization : string).

(** A token endpoint's answer after [await response.json()]: [response.ok]
    and the fields of [responseData] the code reads. *)
Record token_response := {
  rd_ok : bool;
  rd_access_token : js_string;
  rd_refresh_token : js_string;
  rd_expires_in : js_number;
  rd_error : js_string;
  rd_error_description : js_string
}.

(** [`${v}`] in an error message. *)
Definition template (v : js_string) : string := to_js_string v.

(** The token object returned by [exchangeCodeVia*]; its [tokenType] and
    [scope] fields are not read by any caller. *)
Definition tokens_of_response (rd : token_response) : tokens :=
  {| accessToken := rd_access_token rd; refreshToken := rd_refresh_token rd;
     expiresIn := rd_expires_in rd |}.

(** [exchangeCodeViaBackend(authorizationCode, codeVerifier)]; [answer] is
    what [fetch] and [response.json()] give ([Throw] when either rejects). *)
Definition exchangeCodeViaBackend (cfg : auth_config) (backendEndpoint : js_string)
    (authorizationCode codeVerifier : string) (answer : outcome token_response)
  : list request * outcome tokens :=
  let req := ReqBackendExchange (to_js_string backendEndpoint ++ "/api/auth/exchange-code")%string
               authorizationCode codeVerifier (redirectUri cfg) in
  ([req],
   match answer with
   | Throw m => Throw m
   | Ok rd =>
       if negb (rd_ok rd) then
         Throw ("Backend token exchange failed: " ++ template (rd_error rd) ++ " - "
                ++ template (rd_error_description rd))
       else if negb (truthy (rd_access_token rd)) then
         Throw "Access token not received from backend"
       else Ok (tokens_of_response rd)
   end).

(** [tokenRequest] of [exchangeCodeViaPKCE], in its property order. *)
Definition token_request_params (cfg : auth_config) (authorizationCode codeVerifier : string)
  : list (string * string) :=
  [("client_id", to_js_string (clientId cfg));
   ("code", authorizationCode);
   ("redirect_uri", to_js_string (redirectUri cfg));
   ("grant_type", "authorization_code");
   ("code_verifier", codeVerifier)].

(** [exchangeCodeViaPKCE(authorizationCode, codeVerifier)]. *)
Definition exchangeCodeViaPKCE (cfg : auth_config) (tokenEndpoint : string)
    (authorizationCode codeVerifier : string) (answer : outcome token_response)
  : list request * outcome tokens :=
  let body := string_of_list_ascii
                (urlsearchparams_toString (token_request_params cfg authorizationCode codeVerifier)) in
  let req := ReqTokenEndpoint tokenEndpoint body in
  ([req],
   match answer with
   | Throw m => Throw m
   | Ok rd =>
       if negb (rd_ok rd) then
         Throw ("PKCE token exchange failed: " ++ template (rd_error rd) ++ " - "
                ++ template (rd_error_description rd))
       else if negb (truthy (rd_access_token rd)) then
         Throw "Access token not received in PKCE response"
       else Ok (tokens_of_response rd)
   end).

(** [exchangeCodeForTokens(authorizationCode)] with the storage [s], the
    answer of the backend and the answer of the token endpoint. *)
Definition exchangeCodeForTokens (cfg : auth_config) (backendEndpoint : js_string)
    (tokenEndpoint : string) (s : storage) (authorizationCode : string)
    (backend_answer token_answer : outcome token_response) : list request * outcome tokens :=
  let body : list request * outcome tokens :=
    let codeVerifier := retrieveSecurely s CODE_VERIFIER in
    if negb (truthy codeVerifier) then
      ([], Throw "Code verifier not found - PKCE flow was not properly initialized")
    else
      let v := default "" codeVerifier in
      if truthy backendEndpoint then
        match exchangeCodeViaBackend cfg backendEndpoint authorizationCode v backend_answer with
        | (tr1, Ok t) => (tr1, Ok t)
        | (tr1, Throw _) =>
            let '(tr2, r) := exchangeCodeViaPKCE cfg tokenEndpoint authorizationCode v token_answer in
            (tr1 ++ tr2, r)
        end
      else exchangeCodeViaPKCE cfg tokenEndpoint authorizationCode v token_answer in
  match body with
  | (tr, Ok t) => (tr, Ok t)
  | (tr, Throw m) => (tr, Throw ("Failed to exchange authorization code: " ++ m))
  end.

(** [refreshRequest] of [refreshAccessToken]. *)
Definition refresh_request_params (cfg : auth_config) (refreshToken : string)
  : list (string * string) :=
  [("client_id", to_js_string (clientId cfg));
   ("grant_type", "refresh_token");
   ("refresh_token", refreshToken);
   ("scope", join " " (scopes cfg))].

(** [refreshAccessToken()] (lines 1269-1325) with the storage [s], the clock
    [now] read by [storeTokens] and the token endpoint's [answer]: the
    requests sent, the storage afterwards and the settlement; the [catch]
    rethrows every error unchanged, the rejection of [storeTokens]
    included. *)
Definition refreshAccessToken (cfg : auth_config) (tokenEndpoint : string) (now : Z)
    (answer : outcome token_response) (s : storage) : list request * storage * outcome unit :=
  let refreshToken := retrieveSecurely s REFRESH_TOKEN in
  if negb (truthy refreshToken) then ([], s, Throw "Refresh token not available")
  else
    let rt := default "" refreshToken in
    let req := ReqTokenEndpoint tokenEndpoint
                 (string_of_list_ascii (urlsearchparams_toString (refresh_request_params cfg rt))) in
    match answer with
    | Throw m => ([req], s, Throw m)
    | Ok rd =>
        if negb (rd_ok rd) then
          let s' := match rd_error rd with
                    | Some e => if String.eqb e "invalid_grant" then clearAuthData s else s
                    | None => s
                    end in
          ([req], s', Throw ("Token refresh failed: " ++ template (rd_error rd) ++ " - "
                             ++ template (rd_error_description rd)))
        else
          let t := {| accessToken := rd_access_token rd;
                      refreshToken := if truthy (rd_refresh_token rd)
                                      then rd_refresh_token rd else refreshToken;
                      expiresIn := rd_expires_in rd |} in
          let '(s', r) := storeTokens s now t in
          ([req], s', r)
    end.

(** One notebook of the Graph API's [data.value]. *)
Record graph_notebook := {
  gn_id : string;
  gn_displayName : string;
  gn_isDefault : option bool
}.

(** The Graph API's answer: [response.ok], [response.status],
    [response.statusText] and [data.value] ([None] when absent). *)
Record graph_response := {
  gr_ok : bool;
  gr_status : Z;
  gr_statusText : string;
  gr_value : option (list graph_notebook)
}.

(** The mapping of [data.value] (the clock-free fields):
    [isDefault: notebook.isDefault || false]. *)
Definition notebook_of (g : graph_notebook) : notebook :=
  {| nb_id := gn_id g; nb_displayName := gn_displayName g;
     nb_isDefault := match gn_isDefault g with Some b => b | None => false end |}.

Definition GRAPH_NOTEBOOKS_URL : string := "https://graph.microsoft.com/v1.0/me/onenote/notebooks".

(** The answers of the network, by the number of the [getNotebooks] call
    (0 for the first, one more for each retry): the Graph answer to that
    call, the token endpoint's answer to the refresh it may make, and the
    clock at that refresh. *)
Record net_env := {
  graph_answer : nat -> outcome graph_response;
  token_answer : nat -> outcome token_response;
  clock : nat -> Z
}.

(** [getNotebooks()] (lines 1330-1390), which calls itself again after a
    successful refresh that followed a 401. [fuel] bounds the number of
    calls: [None] means the call has not settled within [fuel] Graph
    requests. *)
Fixpoint getNotebooks (fuel : nat) (cfg : auth_config) (tokenEndpoint : string)
    (env : net_env) (i : nat) (s : storage)
  : option (list request * storage * outcome (list notebook)) :=
  match fuel with
  | O => None
  | S fuel' =>
      let accessToken := retrieveSecurely s ACCESS_TOKEN in
      if negb (truthy accessToken) then Some ([], s, Throw "Access token not available")
      else
        let req := ReqGraph GRAPH_NOTEBOOKS_URL ("Bearer " ++ default "" accessToken)%string in
        match graph_answer env i with
        | Throw m => Some ([req], s, Throw m)
        | Ok r =>
            if negb (gr_ok r) then
              if gr_status r =? 401 then
                match refreshAccessToken cfg tokenEndpoint (clock env i) (token_answer env i) s with
                | (tr, s', Throw m) => Some (req :: tr, s', Throw m)
                | (tr, s', Ok _) =>
                    match getNotebooks fuel' cfg tokenEndpoint env (S i) s' with
                    | Some (tr', s'', o) => Some (req :: tr ++ tr', s'', o)
                    | None => None
                    end
                end
              else Some ([req], s, Throw ("Graph API request failed: "
                                          ++ number_to_string (Some (gr_status r)) ++ " "
                                          ++ gr_statusText r))
            else
              Some ([req], s, Ok (match gr_value r with
                                  | Some (g :: l) => map notebook_of (g :: l)
                                  | _ => []
                                  end))
        end
  end.

(* ------------------------------------------------------------------------ *)
(** ** Auxiliary functions of the proofs (continued) *)

(** The tokens [refreshAccessToken] stores for an ok answer, with the
    stored refresh token [old]. *)
Definition refreshed_tokens (rd : token_response) (old : js_string) : tokens :=
  {| accessToken := rd_access_token rd;
     refreshToken := if truthy (rd_refresh_token rd) then rd_refresh_token rd else old;
     expiresIn := rd_expires_in rd |}.


(** The polynomial hash [c0*31^(n-1) + ... + c(n-1)] of code units, over the
    integers. *)
Definition string_hash (s : list Z) : Z := fold_left (fun h c => 31 * h + c) s 0.

(** Whether [exchangeCodeVia*] resolves on an answer: it arrived, is [ok]
    and carries a (truthy) access token. *)
Definition token_answer_accepted (a : outcome token_response) : bool :=
  match a with Ok rd => rd_ok rd && truthy (rd_access_token rd) | Throw _ => false end.

(** Whether every character of a string is below 128. *)
Definition is_ascii_string (u : string) : bool :=
  forallb (fun c => (nat_of_ascii c <? 128)%nat) (list_ascii_of_string u).

(* ------------------------------------------------------------------------ *)
(** ** Concrete inputs (continued) *)

Definition tenant_env : gmap string string :=
  {[ "AUTHORITY" := "https://login.microsoftonline.com/contoso" ]}.

Definition sample_config : auth_config :=
  {| clientId := Some "client-1"; authority := "https://login.microsoftonline.com/common";
     redirectUri := Some "https://localhost:3000/src/auth/callback";
     scopes := ["Notes.Read"; "offline_access"]; authEndpoint := None |}.

Definition TOKEN_URL : string := "https://login.microsoftonline.com/common/oauth2/v2.0/token".

(** A signed-in session: access and refresh tokens and a pending verifier. *)
Definition signed_in_storage : storage :=
  <[ACCESS_TOKEN := "at1"]> (<[REFRESH_TOKEN := "rt1"]> (<[TOKEN_EXPIRES := "0"]>
    (<[CODE_VERIFIER := "v1"]> (<[STATE := "st1"]> ∅)))).

Definition access_only_storage : storage := {[ ACCESS_TOKEN := "at1" ]}.

Definition token_ok : token_response :=
  {| rd_ok := true; rd_access_token := Some "at2"; rd_refresh_token := None;
     rd_expires_in := Some 3600; rd_error := None; rd_error_description := None |}.

Definition token_invalid_grant : token_response :=
  {| rd_ok := false; rd_access_token := None; rd_refresh_token := None;
     rd_expires_in := None; rd_error := Some "invalid_grant";
     rd_error_description := Some "expired" |}.

Definition graph_401 : graph_response :=
  {| gr_ok := false; gr_status := 401; gr_statusText := "Unauthorized"; gr_value := None |}.

Definition graph_ok : graph_response :=
  {| gr_ok := true; gr_status := 200; gr_statusText := "OK";
     gr_value := Some [ {| gn_id := "nb-1"; gn_displayName := "Work"; gn_isDefault := None |} ] |}.

(** Every Graph request is refused with 401, every refresh succeeds. *)
Definition looping_env : net_env :=
  {| graph_answer := fun _ => Ok graph_401; token_answer := fun _ => Ok token_ok;
     clock := fun _ => 1760000000000 |}.

(** The first Graph request is refused with 401, the refresh succeeds, the
    retry succeeds. *)
Definition retry_env : net_env :=
  {| graph_answer := fun i => match i with O => Ok graph_401 | _ => Ok graph_ok end;
     token_answer := fun _ => Ok token_ok; clock := fun _ => 1760000000000 |}.

(** An ok refresh answer without [expires_in]. *)
Definition token_no_expiry : token_response :=
  {| rd_ok := true; rd_access_token := Some "at2"; rd_refresh_token := None;
     rd_expires_in := None; rd_error := None; rd_error_description := None |}.

(** Every Graph request is refused with 401, every refresh answer lacks
    [expires_in]. *)
Definition no_expiry_env : net_env :=
  {| graph_answer := fun _ => Ok graph_401; token_answer := fun _ => Ok token_no_expiry;
     clock := fun _ => 1760000000000 |}.

Definition null_state_message : message :=
  {| m_origin := "https://localhost:3000";
     m_data := {| d_type := JStr "PKCE_AUTH_CODE"; d_code := JStr "code-1"; d_state := JNull;
                  d_error := JUndefined; d_notebooks := NbUndefined |} |}.

(** A configured backend. *)
Definition BACKEND_URL : js_string := Some "https://your-backend-service.azurewebsites.net".

(* ======================================================================== *)
(** * Proofs *)

(** ** base64urlEncode is the unpadded URL-safe encoding *)

Section Base64.

Lemma url_safe_app (x y : list ascii) : url_safe (x ++ y) = url_safe x ++ url_safe y.
Proof.
  unfold url_safe. induction x as [|c x IH]; [reflexivity|].
  cbn [app replace_char remove_char].
  destruct (Ascii.eqb (if Ascii.eqb (if Ascii.eqb c "+" then "-" else c) "/" then "_"
                       else if Ascii.eqb c "+" then "-" else c) "=");
    rewrite IH; reflexivity.
Qed.


Lemma alphabet_url_safe : map url_char b64_alphabet = b64url_alphabet.
Proof. reflexivity. Qed.

Lemma b64url_alphabet_no_pad : Forall (fun c => Ascii.eqb c "="%char = false) b64url_alphabet.
Proof. repeat constructor. Qed.

Lemma b64url_char_not_pad (n : Z) : Ascii.eqb (b64url_char n) "="%char = false.
Proof.
  unfold b64url_char.
  destruct (nth_in_or_default (Z.to_nat n) b64url_alphabet "A"%char) as [Hin|Hd].
  - exact (proj1 (List.Forall_forall _ _) b64url_alphabet_no_pad _ Hin).
  - rewrite Hd. reflexivity.
Qed.

Lemma b64url_char_url_char (n : Z) : b64url_char n = url_char (b64_char n).
Proof.
  unfold b64url_char, b64_char. rewrite <- alphabet_url_safe.
  exact (map_nth url_char b64_alphabet "A"%char (Z.to_nat n)).
Qed.

Lemma url_safe_char (n : Z) : url_safe [b64_char n] = [b64url_char n].
Proof.
  pose proof (b64url_char_not_pad n) as Hc.
  rewrite b64url_char_url_char in Hc |- *.
  unfold url_safe, url_char in *. cbn [replace_char remove_char].
  destruct (Ascii.eqb (b64_char n) "+"%char) eqn:Hp.
  - apply Ascii.eqb_eq in Hp. rewrite Hp in Hc |- *. reflexivity.
  - destruct (Ascii.eqb (b64_char n) "/"%char) eqn:Hs; cbn in Hc |- *; rewrite ?Hc; reflexivity.
Qed.

Lemma url_safe_cons (n : Z) (s : list ascii) :
  url_safe (b64_char n :: s) = b64url_char n :: url_safe s.
Proof.
  change (b64_char n :: s) with ([b64_char n] ++ s).
  rewrite url_safe_app, url_safe_char. reflexivity.
Qed.

Lemma url_safe_pad (s : list ascii) : url_safe ("="%char :: s) = url_safe s.
Proof. reflexivity. Qed.

(** Induction in steps of three, following the recursion of [btoa]. *)
Lemma list_ind3 (P : list Z -> Prop) :
  P [] -> (forall a, P [a]) -> (forall a b, P [a; b]) ->
  (forall a b c rest, P rest -> P (a :: b :: c :: rest)) ->
  forall l, P l.
Proof.
  intros H0 H1 H2 H3.
  assert (Hn : forall n l, (length l <= n)%nat -> P l).
  { induction n as [|n IH]; intros l Hl.
    - destruct l; [exact H0 | cbn in Hl; lia].
    - destruct l as [|a [|b [|c rest]]]; auto.
      apply H3, IH. cbn in Hl. lia. }
  intros l. apply (Hn (length l)). lia.
Qed.

Lemma base64urlEncode_spec (data : list Z) :
  base64urlEncode data = base64url_spec data.
Proof.
  change (base64urlEncode data) with (url_safe (btoa data)).
  induction data as [|a|a b|a b c rest IH] using list_ind3.
  - reflexivity.
  - cbn [btoa base64url_spec]. rewrite !url_safe_cons, !url_safe_pad. reflexivity.
  - cbn [btoa base64url_spec]. rewrite !url_safe_cons, !url_safe_pad. reflexivity.
  - cbn [btoa base64url_spec]. rewrite !url_safe_cons, IH. reflexivity.
Qed.

Lemma base64url_spec_length (data : list Z) :
  length (base64url_spec data) = b64url_len (length data).
Proof.
  induction data as [|a|a b|a b c rest IH] using list_ind3; try reflexivity.
  cbn [base64url_spec length b64url_len]. rewrite IH. reflexivity.
Qed.

Lemma b64url_alphabet_verifier : Forall (fun c => verifier_char c = true) b64url_alphabet.
Proof. repeat constructor. Qed.

Lemma verifier_char_b64url_char (n : Z) : verifier_char (b64url_char n) = true.
Proof.
  unfold b64url_char.
  destruct (nth_in_or_default (Z.to_nat n) b64url_alphabet "A"%char) as [Hin|Hd].
  - exact (proj1 (List.Forall_forall _ _) b64url_alphabet_verifier _ Hin).
  - rewrite Hd. reflexivity.
Qed.

Lemma base64url_spec_chars (data : list Z) :
  forallb verifier_char (base64url_spec data) = true.
Proof.
  induction data as [|a|a b|a b c rest IH] using list_ind3;
    cbn [base64url_spec forallb]; rewrite ?verifier_char_b64url_char; auto.
Qed.

End Base64.

(** ** Printing a number and parsing it back *)

Section Decimal.

Lemma digit_char_ok (d : Z) :
  0 <= d < 10 -> is_digit (digit_char d) = true /\ digit_val (digit_char d) = d.
Proof.
  intros Hd.
  assert (d = 0 \/ d = 1 \/ d = 2 \/ d = 3 \/ d = 4 \/ d = 5 \/ d = 6 \/ d = 7
          \/ d = 8 \/ d = 9) as Hc by lia.
  repeat destruct Hc as [-> | Hc]; [split; reflexivity ..|].
  subst d. split; reflexivity.
Qed.

Lemma digits_rev_ok (fuel : nat) (n : Z) :
  0 <= n < 2 ^ Z.of_nat fuel ->
  forallb is_digit (digits_rev fuel n) = true /\ digits_value (digits_rev fuel n) = n.
Proof.
  revert n. induction fuel as [|fuel IH]; intros n Hn.
  - cbn in Hn. assert (n = 0) by lia. subst. split; reflexivity.
  - cbn [digits_rev]. destruct (n =? 0) eqn:H0.
    + apply Z.eqb_eq in H0. subst. split; reflexivity.
    + assert (Hq : 0 <= n / 10 < 2 ^ Z.of_nat fuel).
      { split; [apply Z.div_pos; lia|].
        apply Z.div_lt_upper_bound; [lia|].
        rewrite Nat2Z.inj_succ, Z.pow_succ_r in Hn by lia. lia. }
      destruct (IH _ Hq) as [Hd Hv].
      destruct (digit_char_ok (n mod 10)) as [Hcd Hcv]; [apply Z.mod_pos_bound; lia|].
      cbn [forallb fold_right]. unfold digits_value in *. cbn [fold_right].
      rewrite Hcd, Hd, Hv, Hcv. split; [reflexivity|].
      pose proof (Z.div_mod n 10). lia.
Qed.

Lemma decimal_ok (n : Z) :
  0 < n ->
  decimal n <> [] /\ forallb is_digit (decimal n) = true /\
  fold_left (fun acc c => acc * 10 + digit_val c) (decimal n) 0 = n.
Proof.
  intros Hn. unfold decimal.
  assert (Hb : 0 <= n < 2 ^ Z.of_nat (S (Z.to_nat (Z.log2 n)))).
  { rewrite Nat2Z.inj_succ, Z2Nat.id by (apply Z.log2_nonneg).
    split; [lia|]. apply Z.log2_spec; lia. }
  destruct (digits_rev_ok _ _ Hb) as [Hd Hv].
  repeat split.
  - cbn [digits_rev]. destruct (n =? 0) eqn:E; [apply Z.eqb_eq in E; lia|].
    cbn. intro H. apply app_eq_nil in H. destruct H as [_ H]. discriminate.
  - rewrite forallb_forall in Hd |- *. intros x Hx. apply Hd. apply in_rev. exact Hx.
  - pose proof (List.fold_left_rev_right (fun c acc => acc * 10 + digit_val c)
      (rev (digits_rev (S (Z.to_nat (Z.log2 n))) n)) 0) as E.
    rewrite rev_involutive in E. cbn beta in E. rewrite <- E. exact Hv.
Qed.

Lemma take_digits_all (l : list ascii) :
  forallb is_digit l = true -> take_digits l = l.
Proof.
  induction l as [|c l IH]; [reflexivity|]. cbn. intros H.
  apply andb_prop in H. destruct H as [-> H]. rewrite IH; auto.
Qed.

Lemma take_digits_value (sign : Z) (l : list ascii) :
  forallb is_digit l = true -> l <> [] ->
  match take_digits l with
  | [] => None
  | ds => Some (sign * fold_left (fun acc c => acc * 10 + digit_val c) ds 0)
  end = Some (sign * fold_left (fun acc c => acc * 10 + digit_val c) l 0).
Proof.
  intros Hd Hne. rewrite take_digits_all by exact Hd.
  destruct l; [contradiction | reflexivity].
Qed.

Lemma parseInt_integer_digits (z : Z) :
  parseInt (string_of_list_ascii (integer_digits z)) = Some z.
Proof.
  unfold parseInt, integer_digits. rewrite list_ascii_of_string_of_list_ascii.
  destruct (z =? 0) eqn:E0; [apply Z.eqb_eq in E0; subst; reflexivity|].
  apply Z.eqb_neq in E0.
  destruct (z <? 0) eqn:Eneg.
  - apply Z.ltb_lt in Eneg.
    destruct (decimal_ok (- z)) as (Hne & Hd & Hv); [lia|].
    assert (Hs : skip_space ("-"%char :: decimal (- z)) = "-"%char :: decimal (- z))
      by reflexivity.
    rewrite Hs. cbv beta iota.
    rewrite (take_digits_value _ _ Hd Hne), Hv. f_equal. lia.
  - apply Z.ltb_ge in Eneg.
    destruct (decimal_ok z) as (Hne & Hd & Hv); [lia|].
    destruct (decimal z) as [|c r] eqn:Ed; [contradiction|].
    pose proof Hd as Hd'. cbn in Hd'. apply andb_prop in Hd'. destruct Hd' as [Hc _].
    unfold is_digit in Hc. apply andb_prop in Hc. destruct Hc as [H1 H2].
    apply Nat.leb_le in H1. apply Nat.leb_le in H2.
    assert (Hsp : is_js_space c = false).
    { unfold is_js_space.
      repeat apply orb_false_intro;
        [apply andb_false_iff; right; apply Nat.leb_gt; lia
        | apply Nat.eqb_neq; lia | apply Nat.eqb_neq; lia]. }
    cbn [skip_space]. rewrite Hsp.
    assert (Hsign : match c :: r with
                    | "-"%char :: r0 => (-1, r0) | "+"%char :: r0 => (1, r0)
                    | _ => (1, c :: r) end = (1, c :: r)).
    { destruct c as [[] [] [] [] [] [] [] []]; try reflexivity; cbv in H1; lia. }
    rewrite Hsign. cbv beta iota.
    rewrite (take_digits_value _ _ Hd Hne), Hv. f_equal. lia.
Qed.

Lemma number_to_string_exact (z : Z) :
  Z.abs z < 2 ^ 53 -> number_to_string (Some z) = string_of_list_ascii (integer_digits z).
Proof.
  intros H. unfold number_to_string, double_of_js_number, round_double.
  replace (Z.abs z <? 2 ^ 53) with true by (symmetry; apply Z.ltb_lt; exact H).
  unfold double_to_string.
  replace (Z.abs z <? 10 ^ 21) with true by (symmetry; apply Z.ltb_lt; lia).
  reflexivity.
Qed.

Lemma parseInt_number_to_string (z : Z) :
  Z.abs z < 2 ^ 53 -> parseInt (number_to_string (Some z)) = Some z.
Proof.
  intros H. rewrite number_to_string_exact by exact H. apply parseInt_integer_digits.
Qed.

End Decimal.

(** ** Numbers *)

Section Numbers.

Lemma round_double_small (z : Z) : Z.abs z < 2 ^ 53 -> round_double z = DFin z.
Proof.
  intros H. unfold round_double.
  replace (Z.abs z <? 2 ^ 53) with true by (symmetry; apply Z.ltb_lt; exact H).
  reflexivity.
Qed.

(** Past [2^53] a Number keeps its sign and stays past [2^53]. *)
Lemma round_double_large (z : Z) :
  2 ^ 53 <= Z.abs z ->
  round_double z = DInf (z <? 0) \/
  exists m, 2 ^ 53 <= m /\ round_double z = DFin (Z.sgn z * m).
Proof.
  intros H. unfold round_double.
  replace (Z.abs z <? 2 ^ 53) with false by (symmetry; apply Z.ltb_ge; exact H).
  cbv zeta. set (a := Z.abs z) in *.
  assert (Hl : 53 <= Z.log2 a).
  { rewrite <- (Z.log2_pow2 53) by lia. apply Z.log2_le_mono. exact H. }
  set (k := Z.log2 a - 52).
  assert (Hk : 1 <= k) by lia.
  rewrite Z.shiftr_div_pow2 by lia. rewrite !Z.shiftl_mul_pow2 by lia.
  assert (Hpk : 2 ^ 1 <= 2 ^ k) by (apply Z.pow_le_mono_r; lia).
  assert (Hq : 2 ^ 52 <= a / 2 ^ k).
  { apply Z.div_le_lower_bound; [lia|].
    rewrite <- Z.pow_add_r by lia. replace (k + 52) with (Z.log2 a) by lia.
    apply Z.log2_spec. lia. }
  set (q := a / 2 ^ k) in *.
  assert (Hb : forall b : bool, q <= (if b then q + 1 else q)) by (intros []; lia).
  match goal with
  | |- context [if ?c then q + 1 else q] => generalize (Hb c); generalize (if c then q + 1 else q)
  end.
  intros q' Hq'.
  destruct (2 ^ 1024 <=? q' * 2 ^ k); [left; reflexivity|].
  right. exists (q' * 2 ^ k). split; [|reflexivity].
  change (2 ^ 53) with (2 ^ 52 * 2 ^ 1). change (2 ^ 1) with 2 in Hpk.
  apply Z.mul_le_mono_nonneg; lia.
Qed.

(** An even integer below [2^54] is a Number. *)
Lemma round_double_even (z : Z) :
  Z.abs z < 2 ^ 54 -> Z.even z = true -> round_double z = DFin z.
Proof.
  intros H He.
  destruct (Z.ltb_spec (Z.abs z) (2 ^ 53)) as [Hs|Hs]; [now apply round_double_small|].
  unfold round_double.
  replace (Z.abs z <? 2 ^ 53) with false by (symmetry; apply Z.ltb_ge; exact Hs).
  assert (Hl : Z.log2 (Z.abs z) = 53) by (apply Z.log2_unique; lia).
  rewrite Hl. cbv zeta.
  apply Z.even_spec in He. destruct He as [m Hm].
  assert (Ha : Z.abs z = 2 * Z.abs m) by (subst; lia).
  rewrite Z.shiftr_div_pow2 by lia. rewrite !Z.shiftl_mul_pow2 by lia.
  change (53 - 52) with 1. change (2 ^ 1) with 2. change (2 ^ (1 - 1)) with 1.
  rewrite Ha. replace ((2 * Z.abs m) / 2) with (Z.abs m) by (rewrite Z.mul_comm, Z.div_mul; lia).
  replace (2 * Z.abs m - Z.abs m * 2) with 0 by lia. cbn [Z.ltb Z.eqb Z.compare andb orb].
  replace (2 ^ 1024 <=? Z.abs m * 2) with false by (symmetry; apply Z.leb_gt; lia).
  f_equal. replace (Z.abs m * 2) with (Z.abs z) by lia. lia.
Qed.

Lemma MAX_TIME_small : MAX_TIME + 300000 < 2 ^ 53.
Proof. reflexivity. Qed.

Ltac ltb_cases :=
  repeat match goal with |- context [?a <? ?b] => destruct (Z.ltb_spec a b) end;
  cbn [negb]; try reflexivity; exfalso; lia.

(** For a current time that is a time value, the buffer test of
    [hasValidToken] on Numbers is the test on the integers. *)
Lemma buffer_compare_exact (now x : Z) :
  Z.abs now <= MAX_TIME ->
  d_lt (round_double now) (d_sub (round_double x) (DFin (5 * 60 * 1000))) = (now <? x - 300000).
Proof.
  intros Hn. pose proof MAX_TIME_small as Hm. unfold MAX_TIME in *.
  rewrite (round_double_small now) by lia.
  unfold d_sub. cbn [d_neg]. change (- (5 * 60 * 1000)) with (-300000).
  destruct (Z.ltb_spec (Z.abs x) (2 ^ 53)) as [Hx|Hx].
  - rewrite (round_double_small x) by exact Hx. cbn [d_add].
    destruct (Z.ltb_spec (Z.abs (x + -300000)) (2 ^ 53)) as [Hy|Hy].
    + rewrite (round_double_small _ Hy). cbn [d_lt]. ltb_cases.
    + destruct (round_double_large _ Hy) as [->|(m & Hm' & ->)].
      * cbn [d_lt]. ltb_cases.
      * rewrite Z.sgn_neg by lia. cbn [d_lt]. ltb_cases.
  - destruct (round_double_large _ Hx) as [->|(m & Hm' & ->)].
    + cbn [d_add d_lt]. ltb_cases.
    + cbn [d_add]. destruct (Z.ltb_spec x 0).
      * rewrite Z.sgn_neg by lia.
        assert (Hy : 2 ^ 53 <= Z.abs (-1 * m + -300000)) by lia.
        destruct (round_double_large _ Hy) as [->|(m2 & Hm2 & ->)].
        -- cbn [d_lt]. ltb_cases.
        -- rewrite Z.sgn_neg by lia. cbn [d_lt]. ltb_cases.
      * rewrite Z.sgn_pos by lia.
        destruct (Z.ltb_spec (Z.abs (1 * m + -300000)) (2 ^ 53)) as [Hy|Hy].
        -- rewrite (round_double_small _ Hy). cbn [d_lt]. ltb_cases.
        -- destruct (round_double_large _ Hy) as [->|(m2 & Hm2 & ->)].
           ++ cbn [d_lt]. ltb_cases.
           ++ rewrite Z.sgn_pos by lia. cbn [d_lt]. ltb_cases.
Qed.

(** The expiry of [storeTokens] is exact while it and the current time are
    time values. *)
Lemma token_expiry_exact (now e : Z) (t : tokens) :
  expiresIn t = Some e -> Z.abs now <= MAX_TIME -> Z.abs (now + e * 1000) <= MAX_TIME ->
  token_expiry now t = DFin (now + e * 1000).
Proof.
  intros He Hn Hx. pose proof MAX_TIME_small as Hm. unfold MAX_TIME in *.
  unfold token_expiry. rewrite He. cbn [double_of_js_number].
  rewrite (round_double_small e) by lia. rewrite (round_double_small now) by lia.
  cbn [d_mul d_add]. rewrite (round_double_even (e * 1000)).
  - cbn [d_add]. apply round_double_small. lia.
  - lia.
  - rewrite Z.even_mul. apply orb_true_r.
Qed.

(** Without [expires_in] the expiry is [NaN]. *)
Lemma token_expiry_missing (now : Z) (t : tokens) :
  expiresIn t = None -> token_expiry now t = DNaN.
Proof.
  intros He. unfold token_expiry. rewrite He. cbn [double_of_js_number d_mul].
  destruct (round_double now) as [|[]|]; reflexivity.
Qed.

Lemma time_value_valid_fin (x : Z) :
  time_value_valid (DFin x) = true <-> Z.abs x <= MAX_TIME.
Proof. unfold time_value_valid. apply Z.leb_le. Qed.

End Numbers.

(** ** The token store *)

Section TokenStore.

Lemma storage_keys_distinct :
  ACCESS_TOKEN <> TOKEN_EXPIRES /\ ACCESS_TOKEN <> REFRESH_TOKEN /\
  TOKEN_EXPIRES <> REFRESH_TOKEN /\
  CODE_VERIFIER <> ACCESS_TOKEN /\ CODE_VERIFIER <> TOKEN_EXPIRES /\
  CODE_VERIFIER <> REFRESH_TOKEN /\
  STATE <> ACCESS_TOKEN /\ STATE <> TOKEN_EXPIRES /\ STATE <> REFRESH_TOKEN /\
  USER_INFO <> ACCESS_TOKEN /\ USER_INFO <> TOKEN_EXPIRES /\ USER_INFO <> REFRESH_TOKEN.
Proof. repeat split; discriminate. Qed.

Lemma default_some (d x : string) : default d (Some x) = x.
Proof. reflexivity. Qed.

Lemma storeTokens_lookup (s : storage) (now : Z) (t : tokens) (k : string) :
  fst (storeTokens s now t) !! k =
  if String.eqb k REFRESH_TOKEN then
    (if truthy (refreshToken t) then Some (to_js_string (refreshToken t)) else s !! k)
  else if String.eqb k TOKEN_EXPIRES then Some (double_to_string (token_expiry now t))
  else if String.eqb k ACCESS_TOKEN then Some (to_js_string (accessToken t))
  else s !! k.
Proof.
  unfold storeTokens, storeSecurely. cbn [fst].
  destruct (String.eqb_spec k REFRESH_TOKEN) as [->|Hr].
  - destruct (truthy (refreshToken t)).
    + by rewrite lookup_insert_eq.
    + rewrite !lookup_insert_ne; [reflexivity | discriminate | discriminate].
  - assert (Hr' : forall m : storage, (if truthy (refreshToken t)
                    then <[REFRESH_TOKEN := to_js_string (refreshToken t)]> m else m) !! k
                    = m !! k).
    { intros m. destruct (truthy (refreshToken t)); [|reflexivity].
      rewrite lookup_insert_ne; [reflexivity | congruence]. }
    rewrite Hr'.
    destruct (String.eqb_spec k TOKEN_EXPIRES) as [->|He].
    + by rewrite lookup_insert_eq.
    + rewrite lookup_insert_ne by congruence.
      destruct (String.eqb_spec k ACCESS_TOKEN) as [->|Ha].
      * by rewrite lookup_insert_eq.
      * rewrite lookup_insert_ne by congruence. reflexivity.
Qed.

Lemma storeTokens_outcome (s : storage) (now : Z) (t : tokens) :
  snd (storeTokens s now t) =
  if time_value_valid (token_expiry now t) then Ok tt else Throw "Invalid time value".
Proof. reflexivity. Qed.

(** The stored expiry of a valid expiry reads back exactly. *)
Lemma storeTokens_expiry_exact (s : storage) (now e : Z) (t : tokens) :
  expiresIn t = Some e -> Z.abs now <= MAX_TIME -> Z.abs (now + e * 1000) <= MAX_TIME ->
  fst (storeTokens s now t) !! TOKEN_EXPIRES = Some (number_to_string (Some (now + e * 1000)))
  /\ parseInt (number_to_string (Some (now + e * 1000))) = Some (now + e * 1000)
  /\ snd (storeTokens s now t) = Ok tt.
Proof.
  intros He Hn Hx. pose proof MAX_TIME_small as Hm.
  rewrite storeTokens_lookup, storeTokens_outcome. cbn [String.eqb].
  rewrite (token_expiry_exact now e t He Hn Hx).
  replace (time_value_valid (DFin (now + e * 1000))) with true
    by (symmetry; apply time_value_valid_fin; exact Hx).
  split; [|split; [apply parseInt_number_to_string; unfold MAX_TIME in *; lia | reflexivity]].
  unfold number_to_string, double_of_js_number.
  rewrite round_double_small by (unfold MAX_TIME in *; lia). reflexivity.
Qed.

(** [hasValidToken] right after [storeTokens] with a valid expiry. *)
Lemma hasValidToken_after_storeTokens (s : storage) (t0 now e : Z) (t : tokens) :
  expiresIn t = Some e -> Z.abs t0 <= MAX_TIME -> Z.abs (t0 + e * 1000) <= MAX_TIME ->
  Z.abs now <= MAX_TIME ->
  hasValidToken (fst (storeTokens s t0 t)) now
  = truthy (Some (to_js_string (accessToken t))) && (now <? t0 + e * 1000 - 300000).
Proof.
  intros He H0 Hx Hn.
  destruct (storeTokens_expiry_exact s t0 e t He H0 Hx) as (Hexp & Hp & _).
  unfold hasValidToken, retrieveSecurely. rewrite Hexp.
  rewrite storeTokens_lookup.
  replace (String.eqb ACCESS_TOKEN REFRESH_TOKEN) with false by reflexivity.
  replace (String.eqb ACCESS_TOKEN TOKEN_EXPIRES) with false by reflexivity.
  replace (String.eqb ACCESS_TOKEN ACCESS_TOKEN) with true by reflexivity.
  destruct (truthy (Some (to_js_string (accessToken t)))); [|reflexivity].
  assert (Hne : truthy (Some (number_to_string (Some (t0 + e * 1000)))) = true).
  { unfold truthy. apply negb_true_iff, String.eqb_neq. intros Heq.
    rewrite Heq in Hp. discriminate. }
  rewrite Hne. cbn [negb orb]. rewrite default_some, Hp.
  cbn [double_of_js_number]. apply buffer_compare_exact. exact Hn.
Qed.

End TokenStore.



(** C8. [storeTokens] always writes the access token and the expiry (the
    Number [Date.now() + expiresIn*1000] as Number::toString writes it) under
    their fixed keys, writes [REFRESH_TOKEN] only when the response carries a
    (truthy) refresh token, and leaves every other key as it was: the code
    verifier, the state, the user info and, without a new refresh token, the
    stored refresh token. The writes are made whether or not [storeTokens]
    then throws on an invalid expiry; with a current time and an expiry that
    are time values the expiry written is the decimal notation of the exact
    sum. *)
Theorem storeTokens_frame :
  forall (s : storage) (now : Z) (t : tokens),
    let s' := fst (storeTokens s now t) in
    s' !! ACCESS_TOKEN = Some (to_js_string (accessToken t)) /\
    s' !! TOKEN_EXPIRES = Some (double_to_string (token_expiry now t)) /\
    s' !! REFRESH_TOKEN =
      (if truthy (refreshToken t) then Some (to_js_string (refreshToken t))
       else s !! REFRESH_TOKEN) /\
    (forall k : string,
       k <> ACCESS_TOKEN -> k <> TOKEN_EXPIRES -> k <> REFRESH_TOKEN -> s' !! k = s !! k) /\
    s' !! CODE_VERIFIER = s !! CODE_VERIFIER /\ s' !! STATE = s !! STATE /\
    s' !! USER_INFO = s !! USER_INFO /\
    (forall e : Z, expiresIn t = Some e -> Z.abs now <= MAX_TIME ->
       Z.abs (now + e * 1000) <= MAX_TIME ->
       s' !! TOKEN_EXPIRES = Some (string_of_list_ascii (integer_digits (now + e * 1000)))).
Proof.
  intros s now t s'. subst s'.
  assert (Hother : forall k : string,
            k <> ACCESS_TOKEN -> k <> TOKEN_EXPIRES -> k <> REFRESH_TOKEN ->
            fst (storeTokens s now t) !! k = s !! k).
  { intros k Ha He Hr. rewrite storeTokens_lookup.
    apply String.eqb_neq in Ha, He, Hr. rewrite Ha, He, Hr. reflexivity. }
  split; [|split; [|split; [|split; [|split; [|split; [|split]]]]]].
  - rewrite storeTokens_lookup. reflexivity.
  - rewrite storeTokens_lookup. reflexivity.
  - rewrite storeTokens_lookup. reflexivity.
  - exact Hother.
  - apply Hother; discriminate.
  - apply Hother; discriminate.
  - apply Hother; discriminate.
  - intros e He Hn Hx. destruct (storeTokens_expiry_exact s now e t He Hn Hx) as (-> & _).
    rewrite number_to_string_exact; [reflexivity|].
    pose proof MAX_TIME_small. unfold MAX_TIME in *. lia.
Qed.

(** ** The notebook fallbacks *)

Lemma pkce_authenticate_resolves (w : pkce_world) :
  exists tr l, pkce_authenticateAndGetNotebooks w = (tr, Ok (NbList l)).
Proof.
  unfold pkce_authenticateAndGetNotebooks, trySSoFallback, catch, bind, call, ret.
  destruct (hasValidToken (pw_storage w) (pw_now w)), (canRefreshToken (pw_storage w)),
    (pw_refresh w), (pw_get_notebooks w), (pw_flow w) as [[l| |]|],
    (pw_office_auth w), (pw_sso_token_ok w);
    cbn; eauto.
Qed.

Lemma pkce_authenticate_flow_rejects (w : pkce_world) (m : string) :
  hasValidToken (pw_storage w) (pw_now w) = false ->
  canRefreshToken (pw_storage w) = false ->
  pw_flow w = Throw m ->
  snd (pkce_authenticateAndGetNotebooks w) = Ok (NbList pkce_getMockNotebooks).
Proof.
  intros Hv Hr Hf.
  unfold pkce_authenticateAndGetNotebooks, trySSoFallback, catch, bind, call, ret.
  rewrite Hv, Hr, Hf. cbn.
  destruct (pw_office_auth w), (pw_sso_token_ok w); reflexivity.
Qed.

Lemma pkce_authenticate_inner_calls (w : pkce_world) :
  forallb (fun ev => negb (is_outer_call ev)) (fst (pkce_authenticateAndGetNotebooks w)) = true.
Proof.
  unfold pkce_authenticateAndGetNotebooks, trySSoFallback, catch, bind, call, ret.
  destruct (hasValidToken (pw_storage w) (pw_now w)), (canRefreshToken (pw_storage w)),
    (pw_refresh w), (pw_get_notebooks w), (pw_flow w) as [[l| |]|],
    (pw_office_auth w), (pw_sso_token_ok w);
    reflexivity.
Qed.

(** C1 (amended). graphapi-auth's [authenticateAndGetNotebooks] first calls
    [pkceAuth.authenticateAndGetNotebooks]; when that rejects or resolves
    with neither a non-empty array nor [null], it calls
    [trySSoAuthentication] if Office SSO is available, and when SSO is
    unavailable, rejects or yields no notebooks it returns [getMockNotebooks()];
    the only call sequences are PKCE, PKCE-SSO, PKCE-mock and PKCE-SSO-mock.
    A popup that cannot open (startPKCEFlow rejects) is handled inside the
    PKCE authenticator, which falls back to its own [trySSoFallback] and its
    own mock notebooks, so [trySSoAuthentication] is not reached then. *)
Theorem authenticate_fallback_order (w : outer_world) :
  let '(tr_in, r_in) := pkce_authenticateAndGetNotebooks (ow_pkce w) in
  let sso_avail := ow_has_office w && ow_has_auth w in
  (exists rest,
     fst (authenticateAndGetNotebooks w) = EvOuterPkce :: tr_in ++ rest /\
     (rest = [] \/ rest = [EvOuterSso] \/ rest = [EvOuterMock] \/
      rest = [EvOuterSso; EvOuterMock]) /\
     (In EvOuterSso rest <-> pkce_falls_through r_in = true /\ sso_avail = true) /\
     (In EvOuterMock rest <->
        pkce_falls_through r_in = true /\ (sso_avail && sso_yields_notebooks w) = false) /\
     snd (authenticateAndGetNotebooks w) =
       (if negb (pkce_falls_through r_in) then r_in
        else if sso_avail && sso_yields_notebooks w then
          match snd (trySSoAuthentication w) with
          | Ok l => Ok (NbList l) | Throw m => Throw m end
        else Ok (NbList getMockNotebooks)))
  /\ (forall m : string,
        hasValidToken (pw_storage (ow_pkce w)) (pw_now (ow_pkce w)) = false ->
        canRefreshToken (pw_storage (ow_pkce w)) = false ->
        pw_flow (ow_pkce w) = Throw m ->
        ~ In EvOuterSso (fst (authenticateAndGetNotebooks w)) /\
        snd (authenticateAndGetNotebooks w) = Ok (NbList pkce_getMockNotebooks)).
Proof.
  pose proof (pkce_authenticate_inner_calls (ow_pkce w)) as Hcalls.
  destruct (pkce_authenticateAndGetNotebooks (ow_pkce w)) as [tr_in r_in] eqn:E.
  cbn [fst] in Hcalls. cbv zeta. split.
  - unfold authenticateAndGetNotebooks, sso_yields_notebooks, trySSoAuthentication,
      checkPlatformSupport, catch, bind, call, ret.
    cbn [supportsPKCE hasOffice hasAuth]. rewrite E.
    destruct r_in as [[[|n l]| |]|m], (ow_has_office w), (ow_has_auth w),
      (ow_sso_token w), (ow_graph w) as [[|n' l']|];
      cbn;
      first [ exists []; split; [rewrite ?app_nil_r; reflexivity|]
            | exists [EvOuterSso]; split; [rewrite <- ?app_assoc; reflexivity|]
            | exists [EvOuterMock]; split; [rewrite <- ?app_assoc; reflexivity|]
            | exists [EvOuterSso; EvOuterMock]; split;
              [rewrite <- ?app_assoc; reflexivity|] ];
      cbn; intuition (try discriminate; try congruence).
  - intros m Hv Hr Hf.
    pose proof (pkce_authenticate_flow_rejects _ _ Hv Hr Hf) as Hin.
    rewrite E in Hin. cbn in Hin. subst r_in.
    unfold authenticateAndGetNotebooks, catch, bind, call, ret.
    cbn [checkPlatformSupport supportsPKCE]. rewrite E. cbn.
    split; [|reflexivity].
    intros [H|H]; [discriminate|].
    rewrite ?List.app_nil_r in H. rewrite forallb_forall in Hcalls.
    specialize (Hcalls _ H). discriminate.
Qed.

(** C1 (counterexample). When the popup cannot open, graphapi-auth's
    [authenticateAndGetNotebooks] does not go on to [trySSoAuthentication]:
    the PKCE authenticator catches the rejection itself and resolves with
    its own mock notebooks, which are returned. *)
Lemma popup_blocked_skips_trySSoAuthentication :
  In EvStartPKCEFlow (fst (authenticateAndGetNotebooks popup_blocked_world)) /\
  ~ In EvOuterSso (fst (authenticateAndGetNotebooks popup_blocked_world)) /\
  snd (authenticateAndGetNotebooks popup_blocked_world) = Ok (NbList pkce_getMockNotebooks).
Proof.
  vm_compute. split; [tauto|]. split; [|reflexivity].
  intros H. repeat destruct H as [H|H]; try discriminate; contradiction.
Qed.

(** C9. graphapi-auth's [authenticateAndGetNotebooks] never rejects: it
    resolves with a non-empty array, with [null], or with the three mock
    notebooks of [getMockNotebooks]. *)
Theorem authenticate_never_rejects (w : outer_world) :
  exists v,
    snd (authenticateAndGetNotebooks w) = Ok v /\
    (v = NbNull \/ (exists n l, v = NbList (n :: l)) \/ v = NbList getMockNotebooks) /\
    length getMockNotebooks = 3%nat.
Proof.
  destruct (pkce_authenticate_resolves (ow_pkce w)) as (tr_in & l_in & E).
  unfold authenticateAndGetNotebooks, trySSoAuthentication, checkPlatformSupport,
    catch, bind, call, ret.
  cbn [supportsPKCE hasOffice hasAuth]. rewrite E.
  destruct l_in as [|n l], (ow_has_office w), (ow_has_auth w), (ow_sso_token w),
    (ow_graph w) as [[|n' l']|]; cbn; eexists; (split; [reflexivity|]);
    (split; [|reflexivity]); eauto 6.
Qed.

(** C4. In a run of [PKCEAuthenticator.authenticateAndGetNotebooks] the
    interactive [startPKCEFlow] is called only when [hasValidToken()] and
    [canRefreshToken()] are both false; when the access token is not valid
    and a refresh token is stored, [refreshAccessToken] is called and
    [startPKCEFlow] is not. *)
Theorem pkce_flow_only_without_valid_or_refreshable_token (w : pkce_world) :
  (In EvStartPKCEFlow (fst (pkce_authenticateAndGetNotebooks w)) ->
   hasValidToken (pw_storage w) (pw_now w) = false /\ canRefreshToken (pw_storage w) = false)
  /\ (hasValidToken (pw_storage w) (pw_now w) = false ->
      canRefreshToken (pw_storage w) = true ->
      In EvRefresh (fst (pkce_authenticateAndGetNotebooks w)) /\
      ~ In EvStartPKCEFlow (fst (pkce_authenticateAndGetNotebooks w))).
Proof.
  unfold pkce_authenticateAndGetNotebooks, trySSoFallback, catch, bind, call, ret.
  destruct (hasValidToken (pw_storage w) (pw_now w)), (canRefreshToken (pw_storage w)),
    (pw_refresh w), (pw_get_notebooks w), (pw_flow w) as [[l| |]|],
    (pw_office_auth w), (pw_sso_token_ok w);
    cbn; split; intros; try discriminate; try tauto;
    repeat match goal with H : _ \/ _ |- _ => destruct H end; try discriminate;
    try contradiction; intuition discriminate.
Qed.

(* ------------------------------------------------------------------------ *)
(** ** The query string of the authorization URL reads back as its parameters *)

Section QueryString.

Lemma urlencode_char_avoids (c : ascii) :
  avoids "&"%char (urlencode_char c) = true /\ avoids "="%char (urlencode_char c) = true.
Proof. destruct c as [[] [] [] [] [] [] [] []]; split; reflexivity. Qed.

Lemma urldecode_urlencode_char (c : ascii) (rest : list ascii) :
  form_urldecode (urlencode_char c ++ rest) = c :: form_urldecode rest.
Proof. destruct c as [[] [] [] [] [] [] [] []]; reflexivity. Qed.

Lemma form_urldecode_encode (s : list ascii) : form_urldecode (form_urlencode s) = s.
Proof.
  induction s as [|c s IH]; [reflexivity|].
  change (form_urldecode (urlencode_char c ++ form_urlencode s) = c :: s).
  now rewrite urldecode_urlencode_char, IH.
Qed.

Lemma avoids_app (c : ascii) (x y : list ascii) :
  avoids c (x ++ y) = avoids c x && avoids c y.
Proof. apply forallb_app. Qed.

Lemma form_urlencode_avoids (s : list ascii) :
  avoids "&"%char (form_urlencode s) = true /\ avoids "="%char (form_urlencode s) = true.
Proof.
  induction s as [|c s [IH1 IH2]]; [split; reflexivity|].
  change (form_urlencode (c :: s)) with (urlencode_char c ++ form_urlencode s).
  destruct (urlencode_char_avoids c) as [H1 H2].
  rewrite !avoids_app, H1, H2, IH1, IH2; split; reflexivity.
Qed.

Lemma split_on_avoids (c : ascii) (x : list ascii) :
  avoids c x = true -> split_on c x = [x].
Proof.
  induction x as [|a x IH]; intros H; [reflexivity|].
  cbn in H |- *. apply andb_prop in H as [Ha Hx].
  apply negb_true_iff in Ha. rewrite Ha, IH by exact Hx. reflexivity.
Qed.

Lemma split_on_avoids_sep (c : ascii) (x y : list ascii) :
  avoids c x = true -> split_on c (x ++ c :: y) = x :: split_on c y.
Proof.
  induction x as [|a x IH]; intros H.
  - cbn. now rewrite Ascii.eqb_refl.
  - cbn in H |- *. apply andb_prop in H as [Ha Hx].
    apply negb_true_iff in Ha. rewrite Ha, IH by exact Hx. reflexivity.
Qed.

Lemma split_on_join_with (c : ascii) (xs : list (list ascii)) :
  xs <> [] -> List.Forall (fun x => avoids c x = true) xs ->
  split_on c (join_with c xs) = xs.
Proof.
  induction xs as [|x xs IH]; intros Hne Hall; [congruence|].
  inversion Hall as [|? ? Hx Hxs]; subst.
  destruct xs as [|x' xs'].
  - cbn. now apply split_on_avoids.
  - change (join_with c (x :: x' :: xs')) with (x ++ c :: join_with c (x' :: xs')).
    rewrite split_on_avoids_sep by exact Hx.
    rewrite IH by (congruence || exact Hxs). reflexivity.
Qed.

Lemma split_pair_avoids (x y : list ascii) :
  avoids "="%char x = true -> split_pair (x ++ "="%char :: y) = (x, y).
Proof.
  induction x as [|a x IH]; intros H; [reflexivity|].
  cbn in H |- *. apply andb_prop in H as [Ha Hx].
  apply negb_true_iff in Ha. rewrite Ha, IH by exact Hx. reflexivity.
Qed.

Lemma encode_pair_avoids (kv : string * string) : avoids "&"%char (encode_pair kv) = true.
Proof.
  destruct kv as [k v]. cbn [encode_pair].
  destruct (form_urlencode_avoids (list_ascii_of_string k)) as [H1 _].
  destruct (form_urlencode_avoids (list_ascii_of_string v)) as [H2 _].
  rewrite avoids_app, H1. exact H2.
Qed.

Lemma parse_query_toString (ps : list (string * string)) :
  ps <> [] ->
  parse_query (string_of_list_ascii (urlsearchparams_toString ps)) = ps.
Proof.
  intros Hne. unfold parse_query, urlsearchparams_toString.
  rewrite list_ascii_of_string_of_list_ascii.
  change (map (fun '(k, v) => form_urlencode (list_ascii_of_string k) ++ "="%char
                  :: form_urlencode (list_ascii_of_string v)) ps)
    with (map encode_pair ps).
  rewrite split_on_join_with.
  2: { destruct ps; cbn; congruence. }
  2: { apply List.Forall_forall. intros x Hx. apply in_map_iff in Hx as [kv [<- _]].
       apply encode_pair_avoids. }
  clear Hne. induction ps as [|[k v] ps IH]; [reflexivity|].
  cbn [map]. rewrite <- IH at 2.
  destruct (form_urlencode_avoids (list_ascii_of_string k)) as [_ Hk].
  assert (Hp : nonempty_piece (encode_pair (k, v)) = true)
    by (cbn [encode_pair]; destruct (form_urlencode (list_ascii_of_string k)); reflexivity).
  cbn [List.filter]. rewrite Hp. cbn [map]. f_equal.
  unfold decode_piece, encode_pair. rewrite split_pair_avoids by exact Hk.
  now rewrite !form_urldecode_encode, !string_of_list_ascii_of_string.
Qed.

End QueryString.

(** C7 (corrected): for every configuration, code challenge and state, the
    URL built by [buildAuthorizationUrl] is [ENDPOINTS.auth] (the
    configuration's [envConfig.authEndpoint], or
    [<authority>/oauth2/v2.0/authorize] when that is not set), then [?], then
    a query string that an application/x-www-form-urlencoded parser reads
    back as exactly the nine parameters client_id, response_type=code,
    redirect_uri, scope (the configured scopes joined by spaces), state,
    code_challenge, code_challenge_method=S256, response_mode and prompt, in
    that order. For the configuration of [getAuthConfig] the endpoint is
    [endpoints.auth]: the configured authority's authorize endpoint in the
    browser, but under Node the common authority's one whenever AUTH_ENDPOINT
    is unset, whatever AUTHORITY is. *)
Theorem buildAuthorizationUrl_query :
  (forall (cfg : auth_config) (codeChallenge state : string),
     exists q,
       buildAuthorizationUrl cfg codeChallenge state = (endpoints_auth cfg ++ "?" ++ q)%string /\
       parse_query q =
         [("client_id", to_js_string (clientId cfg));
          ("response_type", "code");
          ("redirect_uri", to_js_string (redirectUri cfg));
          ("scope", join " " (scopes cfg));
          ("state", state);
          ("code_challenge", codeChallenge);
          ("code_challenge_method", "S256");
          ("response_mode", "query");
          ("prompt", "select_account")] /\
       (truthy (authEndpoint cfg) = false ->
        endpoints_auth cfg = (authority cfg ++ "/oauth2/v2.0/authorize")%string)) /\
  (forall (isNode : bool) (penv : process_env),
     endpoints_auth (pkce_config isNode penv) = ep_auth (endpoints (getAuthConfig isNode penv))) /\
  (forall penv : process_env,
     endpoints_auth (pkce_config false penv)
     = (authority (pkce_config false penv) ++ "/oauth2/v2.0/authorize")%string) /\
  (forall penv : process_env,
     truthy (penv !! "AUTH_ENDPOINT") = false ->
     endpoints_auth (pkce_config true penv)
     = "https://login.microsoftonline.com/common/oauth2/v2.0/authorize"%string).
Proof.
  split; [|split; [|split]].
  - intros cfg codeChallenge state.
    eexists. split; [reflexivity|]. split.
    + apply parse_query_toString. discriminate.
    + unfold endpoints_auth. intros H. now rewrite H.
  - intros isNode penv. reflexivity.
  - intros penv. reflexivity.
  - intros penv H. unfold endpoints_auth, pkce_config, loadEnvironmentConfig.
    cbn [authEndpoint ec_authEndpoint].
    assert (E : forall d, env_or penv "AUTH_ENDPOINT" d = d) by (intros d; unfold env_or; now rewrite H).
    rewrite !E. reflexivity.
Qed.

(** C7, counterexample: under Node with AUTHORITY set to the contoso tenant
    and no AUTH_ENDPOINT, the authorization URL goes to the common
    authority's authorize endpoint, not to the configured authority's. *)
Lemma buildAuthorizationUrl_node_ignores_authority :
  authority (pkce_config true tenant_env) = "https://login.microsoftonline.com/contoso"%string /\
  String.prefix "https://login.microsoftonline.com/common/oauth2/v2.0/authorize?"
    (buildAuthorizationUrl (pkce_config true tenant_env) "challenge" "state-1") = true /\
  String.prefix "https://login.microsoftonline.com/contoso/"
    (buildAuthorizationUrl (pkce_config true tenant_env) "challenge" "state-1") = false.
Proof. split; [|split]; vm_compute; reflexivity. Qed.

(* ------------------------------------------------------------------------ *)
(** ** base64url of bytes can be decoded: distinct bytes, distinct text *)

Section Base64Decode.

Lemma forall_range (m : nat) (f : Z -> bool) :
  forallb f (map Z.of_nat (seq 0 m)) = true -> forall n, 0 <= n < Z.of_nat m -> f n = true.
Proof.
  intros H n Hn. apply (proj1 (List.forallb_forall _ _) H).
  apply in_map_iff. exists (Z.to_nat n). split; [lia|]. apply in_seq. lia.
Qed.

Lemma forall_range2 (m : nat) (f : Z -> Z -> bool) :
  forallb (fun a => forallb (f a) (map Z.of_nat (seq 0 m))) (map Z.of_nat (seq 0 m)) = true ->
  forall a b, 0 <= a < Z.of_nat m -> 0 <= b < Z.of_nat m -> f a b = true.
Proof.
  intros H a b Ha Hb.
  exact (forall_range m (f a) (forall_range m _ H a Ha) b Hb).
Qed.

Lemma b64url_index_char (n : Z) : 0 <= n < 64 -> b64url_index (b64url_char n) = n.
Proof.
  intros Hn. apply Z.eqb_eq.
  exact (forall_range 64 (fun n => b64url_index (b64url_char n) =? n)
           ltac:(vm_compute; reflexivity) n Hn).
Qed.

Lemma byte_pair_facts (x y : Z) : 0 <= x < 256 -> 0 <= y < 256 -> byte_pair_ok x y = true.
Proof.
  intros Hx Hy.
  exact (forall_range2 256 byte_pair_ok ltac:(vm_compute; reflexivity) x y Hx Hy).
Qed.

Lemma byte_facts (z : Z) : 0 <= z < 256 -> byte_ok z = true.
Proof. intros Hz. exact (forall_range 256 byte_ok ltac:(vm_compute; reflexivity) z Hz). Qed.

Ltac split_bool H :=
  repeat (apply andb_prop in H as [H ?]);
  repeat match goal with
         | h : is_sextet _ = true |- _ => unfold is_sextet in h; apply andb_prop in h as [? ?]
         end;
  repeat match goal with
         | h : (_ <=? _) = true |- _ => apply Z.leb_le in h
         | h : (_ <? _) = true |- _ => apply Z.ltb_lt in h
         | h : (_ =? _) = true |- _ => apply Z.eqb_eq in h
         end.

Lemma sextets_range (x y : Z) : 0 <= x < 256 -> 0 <= y < 256 ->
  0 <= sextet1 x < 64 /\ 0 <= sextet2 x y < 64 /\ 0 <= sextet3 x y < 64 /\ 0 <= sextet4 y < 64.
Proof.
  intros Hx Hy. pose proof (byte_pair_facts x y Hx Hy) as H. unfold byte_pair_ok in H.
  split_bool H. lia.
Qed.

Lemma join1_ok (a b : Z) : 0 <= a < 256 -> 0 <= b < 256 ->
  join1 (sextet1 a) (sextet2 a b) = a.
Proof.
  intros Ha Hb. pose proof (byte_pair_facts a b Ha Hb) as H. unfold byte_pair_ok in H.
  pose proof (byte_facts a Ha) as Ha'. unfold byte_ok in Ha'.
  split_bool H. split_bool Ha'.
  unfold join1, sextet1 at 1. congruence.
Qed.

Lemma join2_ok (a b c : Z) : 0 <= a < 256 -> 0 <= b < 256 -> 0 <= c < 256 ->
  join2 (sextet2 a b) (sextet3 b c) = b.
Proof.
  intros Ha Hb Hc. pose proof (byte_pair_facts a b Ha Hb) as H. unfold byte_pair_ok in H.
  pose proof (byte_pair_facts b c Hb Hc) as H'. unfold byte_pair_ok in H'.
  pose proof (byte_facts b Hb) as Hb'. unfold byte_ok in Hb'.
  split_bool H. split_bool H'. split_bool Hb'.
  unfold join2. congruence.
Qed.

Lemma join3_ok (b c : Z) : 0 <= b < 256 -> 0 <= c < 256 ->
  join3 (sextet3 b c) (sextet4 c) = c.
Proof.
  intros Hb Hc. pose proof (byte_pair_facts b c Hb Hc) as H. unfold byte_pair_ok in H.
  pose proof (byte_facts c Hc) as Hc'. unfold byte_ok in Hc'.
  split_bool H. split_bool Hc'.
  unfold join3, sextet4. congruence.
Qed.

Lemma b64url_decode_spec (data : list Z) :
  List.Forall (fun a => 0 <= a < 256) data -> b64url_decode (base64url_spec data) = data.
Proof.
  induction data as [|a|a b|a b c rest IH] using list_ind3; intros Hall.
  - reflexivity.
  - inversion Hall as [|? ? Ha]; subst.
    destruct (sextets_range a 0 Ha ltac:(lia)) as (? & ? & ? & ?).
    cbn [base64url_spec b64url_decode]. rewrite !b64url_index_char by lia.
    now rewrite join1_ok by lia.
  - inversion Hall as [|? ? Ha Hb']; subst. inversion Hb' as [|? ? Hb]; subst.
    destruct (sextets_range a b Ha Hb) as (? & ? & ? & ?).
    destruct (sextets_range b 0 Hb ltac:(lia)) as (? & ? & ? & ?).
    cbn [base64url_spec b64url_decode]. rewrite !b64url_index_char by lia.
    rewrite join1_ok, (join2_ok a b 0) by lia. reflexivity.
  - inversion Hall as [|? ? Ha H1]; subst. inversion H1 as [|? ? Hb H2]; subst.
    inversion H2 as [|? ? Hc Hrest]; subst.
    destruct (sextets_range a b Ha Hb) as (? & ? & ? & ?).
    destruct (sextets_range b c Hb Hc) as (? & ? & ? & ?).
    cbn [base64url_spec b64url_decode]. rewrite !b64url_index_char by lia.
    rewrite join1_ok, join2_ok, join3_ok, IH by (lia || exact Hrest). reflexivity.
Qed.

Lemma byte_val_range (x : Byte.byte) : 0 <= byte_val x < 256.
Proof. unfold byte_val. pose proof (Byte.to_N_bounded x). lia. Qed.

Lemma byte_val_inj (x y : Byte.byte) : byte_val x = byte_val y -> x = y.
Proof.
  unfold byte_val. intros H. apply N2Z.inj in H.
  pose proof (Byte.of_to_N x) as Hx. pose proof (Byte.of_to_N y) as Hy.
  rewrite H in Hx. congruence.
Qed.

Lemma random_bytes_range (rnd : nat -> Byte.byte) (n : nat) :
  List.Forall (fun a => 0 <= a < 256) (map (fun i => byte_val (rnd i)) (seq 0 n)).
Proof.
  apply List.Forall_forall. intros a Ha. apply in_map_iff in Ha as [i [<- _]].
  apply byte_val_range.
Qed.

End Base64Decode.

Lemma generateCodeChallenge_cases_helper (env : crypto_env) (v : list Z) :
  has_text_encoder env = true ->
  generateCodeChallenge env v =
    Ok (base64url_spec
          (if has_subtle env then Sha256.sha256 (text_encode v) else fallbackSha256 v)).
Proof.
  intros H. unfold generateCodeChallenge. rewrite H. cbn [negb].
  now rewrite base64urlEncode_spec.
Qed.

(** C5 (corrected): [generateCodeChallenge v] is the unpadded base64url
    encoding of a digest, but of the SHA-256 digest of the UTF-8 encoding of
    [v] only when [crypto.subtle] is available; without it the digest is the
    32-byte output of [fallbackSha256] over the UTF-16 code units, and without
    [TextEncoder] the call rejects. *)
Theorem generateCodeChallenge_cases (env : crypto_env) (v : list Z) :
  generateCodeChallenge env v =
    if has_text_encoder env then
      Ok (base64url_spec
            (if has_subtle env then Sha256.sha256 (text_encode v) else fallbackSha256 v))
    else Throw "Failed to generate code challenge: TextEncoder is not defined".
Proof.
  unfold generateCodeChallenge.
  destruct (has_text_encoder env); cbn [negb]; [|reflexivity].
  now rewrite base64urlEncode_spec.
Qed.

(** C5 counterexample: in an environment with [TextEncoder] but without
    [crypto.subtle], the challenge of the verifier "a" is not the base64url
    SHA-256 digest of its UTF-8 encoding. *)
Lemma generateCodeChallenge_without_subtle_not_sha256 :
  generateCodeChallenge env_without_subtle [97] <>
    Ok (base64url_spec (Sha256.sha256 (text_encode [97]))).
Proof. vm_compute. intros H. inversion H. Qed.

Lemma generateCodeVerifier_valid_helper (rnd : nat -> Byte.byte) :
  length (generateCodeVerifier rnd) = 43%nat /\
  forallb verifier_char (generateCodeVerifier rnd) = true /\
  validateCodeVerifier (generateCodeVerifier rnd) = true.
Proof.
  unfold generateCodeVerifier. rewrite base64urlEncode_spec.
  assert (Hl : length (base64url_spec (map (fun i => byte_val (rnd i)) (seq 0 32))) = 43%nat)
    by (rewrite base64url_spec_length, length_map, length_seq; reflexivity).
  pose proof (base64url_spec_chars (map (fun i => byte_val (rnd i)) (seq 0 32))) as Hc.
  split; [exact Hl|]. split; [exact Hc|].
  revert Hl Hc. generalize (base64url_spec (map (fun i => byte_val (rnd i)) (seq 0 32))).
  intros v Hl Hc. unfold validateCodeVerifier. rewrite Hl.
  destruct v; [discriminate|]. exact Hc.
Qed.

Lemma generateCodeVerifier_bytes (rnd : nat -> Byte.byte) :
  b64url_decode (generateCodeVerifier rnd) = map (fun i => byte_val (rnd i)) (seq 0 32).
Proof.
  unfold generateCodeVerifier. rewrite base64urlEncode_spec.
  apply b64url_decode_spec. apply random_bytes_range.
Qed.

(** C6: every verifier [generateCodeVerifier] returns is 43 characters of the
    base64url alphabet, so [validateCodeVerifier] accepts it; two calls give
    the same verifier only if they drew the same 32 random bytes; and the
    start of [startPKCEFlow] (with [TextEncoder] present) stores, whatever the
    storage held before, the verifier drawn by this call under
    [CODE_VERIFIER] and this call's state under [STATE], with the challenge
    computed from that verifier. *)
Theorem generateCodeVerifier_valid_and_fresh :
  (forall rnd : nat -> Byte.byte,
     length (generateCodeVerifier rnd) = 43%nat /\
     forallb verifier_char (generateCodeVerifier rnd) = true /\
     validateCodeVerifier (generateCodeVerifier rnd) = true) /\
  (forall rv1 rv2 : nat -> Byte.byte,
     generateCodeVerifier rv1 = generateCodeVerifier rv2 <->
     (forall i, (i < 32)%nat -> rv1 i = rv2 i)) /\
  (forall env cfg (rv rs : nat -> Byte.byte) (s : storage),
     has_text_encoder env = true ->
     exists ch p,
       generateCodeChallenge env (code_units_of (generateCodeVerifier rv)) = Ok ch /\
       startPKCEFlow_prepare env cfg rv rs s = Ok p /\
       ps_codeVerifier p = generateCodeVerifier rv /\
       ps_codeChallenge p = ch /\
       ps_storage p !! CODE_VERIFIER = Some (string_of_list_ascii (generateCodeVerifier rv)) /\
       ps_storage p !! STATE = Some (string_of_list_ascii (generateState rs))).
Proof.
  split; [exact generateCodeVerifier_valid_helper|]. split.
  - intros rv1 rv2. split.
    + intros Heq i Hi.
      assert (Hb : map (fun i => byte_val (rv1 i)) (seq 0 32) =
                   map (fun i => byte_val (rv2 i)) (seq 0 32))
        by (rewrite <- !generateCodeVerifier_bytes, Heq; reflexivity).
      apply byte_val_inj.
      exact (proj1 map_ext_in_iff Hb i ltac:(apply in_seq; lia)).
    + intros Heq. unfold generateCodeVerifier. f_equal.
      apply map_ext_in. intros i Hi. apply in_seq in Hi. rewrite Heq by lia. reflexivity.
  - intros env cfg rv rs s Henc.
    rewrite generateCodeChallenge_cases_helper by exact Henc.
    destruct (generateCodeVerifier_valid_helper rv) as (_ & _ & Hv).
    eexists _, _. split; [reflexivity|].
    unfold startPKCEFlow_prepare. rewrite generateCodeChallenge_cases_helper by exact Henc.
    rewrite Hv. cbn [negb]. split; [reflexivity|].
    cbn [ps_codeVerifier ps_codeChallenge ps_storage].
    split; [reflexivity|]. split; [reflexivity|].
    unfold storeSecurely. split.
    + rewrite lookup_insert_ne by (unfold CODE_VERIFIER, STATE; discriminate).
      apply lookup_insert_eq.
    + apply lookup_insert_eq.
Qed.

(* ------------------------------------------------------------------------ *)
(** ** The state check before the code exchange *)

Ltac case_ifs :=
  repeat match goal with
         | |- context [if ?b then _ else _] => destruct b eqn:?
         end.

(** C2 (corrected): a received state that is not strictly equal to the stored
    one never lets the code reach [exchangeCodeForTokens], neither through
    the popup's [messageHandler] nor through [handleAuthorizationCallback];
    a same-origin [PKCE_AUTH_CODE] message with such a state rejects with
    "Invalid state parameter - possible CSRF attack", and so does the
    callback, provided the query has no (truthy) [error] parameter and a
    non-empty [code] and [state]. The callback fails with that error (and
    no call) only in that case: a query with an [error] parameter fails with
    "Authorization failed: <error> - <error_description>" before any state
    check, whatever the states. *)
Theorem state_mismatch_never_exchanged :
  (forall origin s ex m,
     strict_eq (d_state (m_data m)) (retrieve_jsv s STATE) = false ->
     existsb is_exchange (fst (messageHandler origin s ex m)) = false) /\
  (forall origin s ex m,
     m_origin m = origin -> d_type (m_data m) = JStr "PKCE_AUTH_CODE" ->
     strict_eq (d_state (m_data m)) (retrieve_jsv s STATE) = false ->
     messageHandler origin s ex m = ([], Rejected INVALID_STATE)) /\
  (forall ps s ex,
     strict_eq (url_get ps "state") (retrieve_jsv s STATE) = false ->
     existsb is_exchange (fst (handleAuthorizationCallback ps s ex)) = false) /\
  (forall ps s ex,
     jsv_truthy (url_get ps "error") = false ->
     jsv_truthy (url_get ps "code") = true ->
     jsv_truthy (url_get ps "state") = true ->
     strict_eq (url_get ps "state") (retrieve_jsv s STATE) = false ->
     handleAuthorizationCallback ps s ex = ([], Throw INVALID_STATE)) /\
  (forall ps s ex,
     jsv_truthy (url_get ps "error") = true ->
     handleAuthorizationCallback ps s ex =
       ([], Throw ("Authorization failed: " ++ jsv_to_string (url_get ps "error") ++ " - "
                   ++ jsv_to_string (url_get ps "error_description"))%string)) /\
  (forall ps s ex,
     handleAuthorizationCallback ps s ex = ([], Throw INVALID_STATE) <->
     jsv_truthy (url_get ps "error") = false /\
     jsv_truthy (url_get ps "code") = true /\
     jsv_truthy (url_get ps "state") = true /\
     strict_eq (url_get ps "state") (retrieve_jsv s STATE) = false).
Proof.
  split; [|split; [|split; [|split; [|split]]]].
  - intros origin s ex m H. unfold messageHandler. cbv zeta. rewrite H. cbn [negb].
    case_ifs; reflexivity.
  - intros origin s ex m Ho Ht H. unfold messageHandler. cbv zeta.
    rewrite Ho, Ht, String.eqb_refl, H. reflexivity.
  - intros ps s ex H. unfold handleAuthorizationCallback. cbv zeta. rewrite H. cbn [negb].
    case_ifs; reflexivity.
  - intros ps s ex He Hc Hs H. unfold handleAuthorizationCallback. cbv zeta.
    rewrite He, Hc, Hs, H. reflexivity.
  - intros ps s ex He. unfold handleAuthorizationCallback. cbv zeta.
    rewrite He. reflexivity.
  - intros ps s ex. unfold handleAuthorizationCallback. cbv zeta. split.
    + destruct (jsv_truthy (url_get ps "error")).
      { intros H. injection H as H1. unfold INVALID_STATE in H1.
        cbn [String.append] in H1. discriminate H1. }
      destruct (jsv_truthy (url_get ps "code")); cbn [negb];
        [|intros H; injection H as H1; discriminate H1].
      destruct (jsv_truthy (url_get ps "state")); cbn [negb];
        [|intros H; injection H as H1; discriminate H1].
      destruct (strict_eq (url_get ps "state") (retrieve_jsv s STATE)); cbn [negb];
        [|intros _; auto].
      intros H. exfalso. unfold bind, call, run_local in H.
      destruct (ex_tokens ex) as [t|m]; [|discriminate H].
      destruct (snd (storeTokens s (ex_now ex) t)); [|discriminate H].
      destruct (ex_notebooks ex); discriminate H.
    + intros (He & Hc & Hs & H). rewrite He, Hc, Hs, H. reflexivity.
Qed.

(** C2 counterexample: a callback query carrying a code, a state "x" that
    differs from the stored "y", and an [error] parameter fails with the
    authorization error, not with the invalid-state error. *)
Lemma callback_error_param_precedes_state_check :
  strict_eq (url_get callback_with_error "state") (retrieve_jsv storage_with_state STATE) = false /\
  handleAuthorizationCallback callback_with_error storage_with_state exchange_ok
    = ([], Throw "Authorization failed: access_denied - null") /\
  "Authorization failed: access_denied - null" <> INVALID_STATE.
Proof.
  split; [|split].
  - unfold retrieve_jsv, retrieveSecurely, storage_with_state.
    rewrite lookup_singleton_eq. reflexivity.
  - reflexivity.
  - discriminate.
Qed.

(* ------------------------------------------------------------------------ *)
(** ** The export sorts the caller's array in place *)

Section ExportProofs.

Variable date_parse : string -> js_number.

Lemma insert_email_perm (x : email) (l : list email) :
  Permutation (insert_email date_parse x l) (x :: l).
Proof.
  induction l as [|y l IH]; cbn; [reflexivity|].
  destruct (0 <? sort_compare date_parse x y); [|reflexivity].
  rewrite IH. apply perm_swap.
Qed.

Lemma array_sort_perm (l : list email) : Permutation (array_sort date_parse l) l.
Proof.
  induction l as [|x l IH]; cbn; [reflexivity|].
  rewrite insert_email_perm, IH. reflexivity.
Qed.

Lemma date_le_of_compare (x y : email) :
  (date_valid date_parse) x -> (date_valid date_parse) y ->
  (0 <? sort_compare date_parse x y) = true -> (date_le date_parse) y x.
Proof.
  unfold date_valid, date_le, sort_compare, compare_emails.
  destruct (date_key date_parse x), (date_key date_parse y); try congruence.
  intros _ _ H. apply Z.ltb_lt in H. lia.
Qed.

Lemma date_le_of_not_compare (x y : email) :
  (date_valid date_parse) x -> (date_valid date_parse) y ->
  (0 <? sort_compare date_parse x y) = false -> (date_le date_parse) x y.
Proof.
  unfold date_valid, date_le, sort_compare, compare_emails.
  destruct (date_key date_parse x), (date_key date_parse y); try congruence.
  intros _ _ H. apply Z.ltb_ge in H. lia.
Qed.

Lemma insert_email_hdrel (x y : email) (l : list email) :
  HdRel (date_le date_parse) y l -> (date_le date_parse) y x -> HdRel (date_le date_parse) y (insert_email date_parse x l).
Proof.
  intros Hl Hyx. destruct l as [|z l]; cbn.
  - constructor. exact Hyx.
  - destruct (0 <? sort_compare date_parse x z).
    + inversion Hl; subst. constructor. assumption.
    + constructor. exact Hyx.
Qed.

Lemma insert_email_sorted (x : email) (l : list email) :
  (date_valid date_parse) x -> List.Forall (date_valid date_parse) l -> Sorted (date_le date_parse) l ->
  Sorted (date_le date_parse) (insert_email date_parse x l).
Proof.
  intros Hx. induction l as [|y l IH]; intros Hall Hs; cbn.
  - repeat constructor.
  - inversion Hall as [|? ? Hy Hl]; subst.
    apply Sorted_inv in Hs as [Hs Hhd].
    destruct (0 <? sort_compare date_parse x y) eqn:Hc.
    + constructor; [exact (IH Hl Hs)|].
      apply insert_email_hdrel; [exact Hhd|].
      exact (date_le_of_compare x y Hx Hy Hc).
    + constructor; [constructor; assumption|].
      constructor. exact (date_le_of_not_compare x y Hx Hy Hc).
Qed.

Lemma array_sort_sorted (l : list email) :
  List.Forall (date_valid date_parse) l -> Sorted (date_le date_parse) (array_sort date_parse l).
Proof.
  induction l as [|x l IH]; intros Hall; cbn; [constructor|].
  inversion Hall as [|? ? Hx Hl]; subst.
  apply insert_email_sorted; [exact Hx| |exact (IH Hl)].
  apply List.Forall_forall. intros e He.
  apply (Permutation_in _ (array_sort_perm l)) in He.
  exact (proj1 (List.Forall_forall _ _) Hl e He).
Qed.

End ExportProofs.

(** C10 (corrected): when [conversationData] is the array at [arr] and every
    email's date ([DateTimeReceived], else [DateTimeSent], else epoch 0)
    parses to a valid time, [exportConversationToOneNote] replaces that very
    array by a permutation of it in non-decreasing date order, leaving the
    other arrays alone; the page lists one block per email in that order,
    and its title is "Email Thread: " followed by the first sorted email's
    [Subject], or "No Subject" when that [Subject] is empty or missing, or
    "Email Thread Export" for an empty list. *)
Theorem exportConversationToOneNote_sorts_in_place
    (date_parse : string -> js_number) (h : heap) (arr : loc) (data : list email)
    (nb : target_notebook) (exportedOn : string) :
  h !! arr = Some data ->
  List.Forall (date_valid date_parse) data ->
  exists sorted,
    let pageTitle :=
      match sorted with
      | e :: _ => ("Email Thread: " ++ or_else (Subject e) "No Subject")%string
      | [] => "Email Thread Export"
      end in
    exportConversationToOneNote date_parse h arr nb exportedOn =
      Ok {| er_heap := <[arr := sorted]> h;
            er_title := pageTitle;
            er_content := (page_header pageTitle (length data) nb exportedOn
                           ++ email_blocks 0 sorted ++ page_footer)%string |} /\
    Permutation sorted data /\
    Sorted (date_le date_parse) sorted /\
    (forall a, a <> arr -> <[arr := sorted]> h !! a = h !! a).
Proof.
  intros Harr Hvalid. exists (array_sort date_parse data). cbv zeta.
  split; [|split; [|split]].
  - unfold exportConversationToOneNote. rewrite Harr.
    rewrite (Permutation_length (array_sort_perm date_parse data)). reflexivity.
  - apply array_sort_perm.
  - apply array_sort_sorted. exact Hvalid.
  - intros a Ha. apply lookup_insert_ne. congruence.
Qed.

Lemma exportConversationToOneNote_sorts_in_place_witness :
  conversation_heap !! 1%positive = Some [email_at "Re: plan" "200"; email_at "plan" "100"] /\
  List.Forall (date_valid parseInt) [email_at "Re: plan" "200"; email_at "plan" "100"] /\
  exists sorted,
    let pageTitle :=
      match sorted with
      | e :: _ => ("Email Thread: " ++ or_else (Subject e) "No Subject")%string
      | [] => "Email Thread Export"
      end in
    exportConversationToOneNote parseInt conversation_heap 1%positive mail_notebook "today" =
      Ok {| er_heap := <[1%positive := sorted]> conversation_heap;
            er_title := pageTitle;
            er_content := (page_header pageTitle 2 mail_notebook "today"
                           ++ email_blocks 0 sorted ++ page_footer)%string |} /\
    Permutation sorted [email_at "Re: plan" "200"; email_at "plan" "100"] /\
    Sorted (date_le parseInt) sorted /\
    (forall a, a <> 1%positive -> <[1%positive := sorted]> conversation_heap !! a
                                  = conversation_heap !! a).
Proof.
  assert (Hv : List.Forall (date_valid parseInt) [email_at "Re: plan" "200"; email_at "plan" "100"])
    by (repeat constructor; vm_compute; discriminate).
  split; [reflexivity|]. split; [exact Hv|].
  exact (exportConversationToOneNote_sorts_in_place parseInt conversation_heap 1%positive
           [email_at "Re: plan" "200"; email_at "plan" "100"] mail_notebook "today"
           eq_refl Hv).
Defined.

(** C10 counterexample: for a one-email conversation whose [Subject] is the
    empty string, the title is "Email Thread: No Subject", not
    "Email Thread: " followed by the [Subject]. *)
Lemma export_title_empty_subject :
  exists r,
    exportConversationToOneNote parseInt conversation_empty_subject 1%positive
      mail_notebook "today" = Ok r /\
    er_title r = "Email Thread: No Subject" /\
    er_title r <> ("Email Thread: " ++ "")%string.
Proof.
  eexists. split; [reflexivity|]. split; [reflexivity|]. discriminate.
Qed.

(* ======================================================================== *)
(** * Further properties of the code *)

Section Base64Extra.

Lemma b64url_char_in (n : Z) : In (b64url_char n) b64url_alphabet.
Proof.
  unfold b64url_char.
  destruct (nth_in_or_default (Z.to_nat n) b64url_alphabet "A"%char) as [Hin|Hd];
    [exact Hin | rewrite Hd; now left].
Qed.

Lemma base64url_spec_in (data : list Z) :
  List.Forall (fun c => In c b64url_alphabet) (base64url_spec data).
Proof.
  induction data as [|a|a b|a b c rest IH] using list_ind3;
    cbn [base64url_spec]; repeat apply List.Forall_cons; try apply b64url_char_in;
    try apply List.Forall_nil; exact IH.
Qed.

Lemma b64url_len_formula (n : nat) : b64url_len n = ((4 * n + 2) / 3)%nat.
Proof.
  assert (H : forall m, b64url_len m = ((4 * m + 2) / 3)%nat /\
                        b64url_len (S m) = ((4 * S m + 2) / 3)%nat /\
                        b64url_len (S (S m)) = ((4 * S (S m) + 2) / 3)%nat).
  { induction m as [|m (IH1 & IH2 & IH3)]; [repeat split|].
    split; [exact IH2|]. split; [exact IH3|].
    change (b64url_len (S (S (S m)))) with (4 + b64url_len m)%nat. rewrite IH1.
    replace (4 * S (S (S m)) + 2)%nat with ((4 * m + 2) + 4 * 3)%nat by lia.
    rewrite Nat.div_add by lia. lia. }
  apply H.
Qed.

End Base64Extra.

Lemma generateState_bytes (rnd : nat -> Byte.byte) :
  b64url_decode (generateState rnd) = map (fun i => byte_val (rnd i)) (seq 0 16).
Proof.
  unfold generateState. rewrite base64urlEncode_spec.
  apply b64url_decode_spec. apply random_bytes_range.
Qed.

(** X1: [generateState] returns 22 characters of the base64url alphabet, and two states are equal exactly when the 16 random bytes drawn for them are equal. *)
Theorem generateState_shape_and_fresh :
  (forall rnd : nat -> Byte.byte,
     length (generateState rnd) = 22%nat /\
     List.Forall (fun c => In c b64url_alphabet) (generateState rnd)) /\
  (forall r1 r2 : nat -> Byte.byte,
     generateState r1 = generateState r2 <-> (forall i, (i < 16)%nat -> r1 i = r2 i)).
Proof.
  split.
  - intros rnd. unfold generateState. rewrite base64urlEncode_spec. split.
    + rewrite base64url_spec_length, length_map, length_seq. reflexivity.
    + apply base64url_spec_in.
  - intros r1 r2. split.
    + intros Heq i Hi.
      assert (Hb : map (fun i => byte_val (r1 i)) (seq 0 16) =
                   map (fun i => byte_val (r2 i)) (seq 0 16))
        by (rewrite <- !generateState_bytes, Heq; reflexivity).
      apply byte_val_inj.
      exact (proj1 map_ext_in_iff Hb i ltac:(apply in_seq; lia)).
    + intros Heq. unfold generateState. f_equal.
      apply map_ext_in. intros i Hi. apply in_seq in Hi. rewrite Heq by lia. reflexivity.
Qed.

(** X2: [base64urlEncode] of [n] bytes has [(4n+2)/3] characters, all in the base64url alphabet (no padding), and it is injective on lists of bytes. *)
Theorem base64urlEncode_length_alphabet_injective :
  (forall data : list Z,
     length (base64urlEncode data) = ((4 * length data + 2) / 3)%nat /\
     List.Forall (fun c => In c b64url_alphabet) (base64urlEncode data)) /\
  (forall d1 d2 : list Z,
     List.Forall (fun a => 0 <= a < 256) d1 -> List.Forall (fun a => 0 <= a < 256) d2 ->
     base64urlEncode d1 = base64urlEncode d2 -> d1 = d2).
Proof.
  split.
  - intros data. rewrite base64urlEncode_spec. split.
    + rewrite base64url_spec_length. apply b64url_len_formula.
    + apply base64url_spec_in.
  - intros d1 d2 H1 H2 Heq. rewrite !base64urlEncode_spec in Heq.
    rewrite <- (b64url_decode_spec d1 H1), <- (b64url_decode_spec d2 H2), Heq. reflexivity.
Qed.

(** SHA-256 and the fallback both give 32 bytes. *)
Section DigestLength.

Lemma round_length (st : list Z) (kw : Z * Z) : length (Sha256.round st kw) = length st.
Proof.
  destruct st as [|a [|b [|c [|d [|e [|f [|g [|h [|i st]]]]]]]]]; reflexivity.
Qed.

Lemma fold_round_length (l : list (Z * Z)) (st : list Z) :
  length (fold_left Sha256.round l st) = length st.
Proof.
  revert st. induction l as [|kw l IH]; intros st; [reflexivity|].
  cbn [fold_left]. rewrite IH. apply round_length.
Qed.

Lemma compress_length (hs block : list Z) : length (Sha256.compress hs block) = length hs.
Proof.
  unfold Sha256.compress. rewrite length_map, length_combine, fold_round_length. lia.
Qed.

Lemma process_length (fuel : nat) (hs bs : list Z) :
  length (Sha256.process fuel hs bs) = length hs.
Proof.
  revert hs bs. induction fuel as [|fuel IH]; intros hs bs; [reflexivity|].
  cbn [Sha256.process]. destruct bs; [reflexivity|].
  rewrite IH. apply compress_length.
Qed.

Lemma flat_map_bytes_of_word_length (ws : list Z) :
  length (flat_map Sha256.bytes_of_word ws) = (4 * length ws)%nat.
Proof.
  induction ws as [|w ws IH]; [reflexivity|].
  cbn [flat_map]. rewrite length_app, IH.
  change (length (Sha256.bytes_of_word w)) with 4%nat. cbn [length]. lia.
Qed.

Lemma sha256_length (msg : list Z) : length (Sha256.sha256 msg) = 32%nat.
Proof.
  unfold Sha256.sha256. rewrite flat_map_bytes_of_word_length, process_length. reflexivity.
Qed.

Lemma fallbackSha256_length (message : list Z) : length (fallbackSha256 message) = 32%nat.
Proof.
  unfold fallbackSha256. generalize (fold_left fallback_step message 0). intros h.
  reflexivity.
Qed.

End DigestLength.

(** X3: when [TextEncoder] is available, [generateCodeChallenge] succeeds with a 43-character base64url challenge, whether [crypto.subtle] or the fallback hash is used. *)
Theorem generateCodeChallenge_length (env : crypto_env) (v : list Z) :
  has_text_encoder env = true ->
  exists ch, generateCodeChallenge env v = Ok ch /\ length ch = 43%nat /\
             List.Forall (fun c => In c b64url_alphabet) ch.
Proof.
  intros H. rewrite generateCodeChallenge_cases_helper by exact H.
  eexists. split; [reflexivity|]. split.
  - rewrite base64url_spec_length.
    destruct (has_subtle env); [rewrite sha256_length | rewrite fallbackSha256_length];
      reflexivity.
  - apply base64url_spec_in.
Qed.

Lemma generateCodeChallenge_length_witness :
  has_text_encoder env_without_subtle = true /\
  exists ch, generateCodeChallenge env_without_subtle [97] = Ok ch /\ length ch = 43%nat /\
             List.Forall (fun c => In c b64url_alphabet) ch.
Proof.
  split; [reflexivity|]. exact (generateCodeChallenge_length env_without_subtle [97] eq_refl).
Defined.


Section FallbackHash.

Lemma to_int32_shape (z : Z) : exists q, to_int32 z = z + q * 2 ^ 32.
Proof.
  unfold to_int32. rewrite Z.mod_eq by (cbn; lia).
  destruct (z - 2 ^ 32 * (z / 2 ^ 32) >=? 2 ^ 31).
  - exists (- (z / 2 ^ 32) - 1). lia.
  - exists (- (z / 2 ^ 32)). lia.
Qed.

Lemma to_int32_mod (x y : Z) : x mod 2 ^ 32 = y mod 2 ^ 32 -> to_int32 x = to_int32 y.
Proof. unfold to_int32. intros H. now rewrite H. Qed.

Lemma to_int32_mod_eq (z : Z) : to_int32 z mod 2 ^ 32 = z mod 2 ^ 32.
Proof. destruct (to_int32_shape z) as [q ->]. apply Z_mod_plus_full. Qed.

Lemma mod_plus_multiple (x q : Z) : (x + q * 2 ^ 32) mod 2 ^ 32 = x mod 2 ^ 32.
Proof. apply Z_mod_plus_full. Qed.

Lemma fallback_step_eq (h c : Z) : fallback_step h c = to_int32 (31 * h + c).
Proof.
  unfold fallback_step. rewrite Z.land_diag.
  destruct (to_int32_shape (to_int32 (h * 2 ^ 5) - h + c)) as [q1 ->].
  destruct (to_int32_shape (h * 2 ^ 5)) as [q2 ->].
  apply to_int32_mod.
  replace (h * 2 ^ 5 + q2 * 2 ^ 32 - h + c + q1 * 2 ^ 32)
    with ((31 * h + c) + (q1 + q2) * 2 ^ 32) by (cbn; lia).
  apply mod_plus_multiple.
Qed.

Lemma fallback_fold (l : list Z) (a : Z) :
  fold_left fallback_step l (to_int32 a) = to_int32 (fold_left (fun h c => 31 * h + c) l a).
Proof.
  revert a. induction l as [|c l IH]; intros a; [reflexivity|].
  cbn [fold_left]. rewrite <- IH. f_equal. rewrite fallback_step_eq.
  destruct (to_int32_shape a) as [q ->]. apply to_int32_mod.
  replace (31 * (a + q * 2 ^ 32) + c) with ((31 * a + c) + (31 * q) * 2 ^ 32) by lia.
  apply mod_plus_multiple.
Qed.

Lemma fallback_hash (message : list Z) :
  fold_left fallback_step message 0 = to_int32 (string_hash message).
Proof. exact (fallback_fold message 0). Qed.

Lemma fallback_Aa_BB (h : Z) :
  fold_left fallback_step [65; 97] h = fold_left fallback_step [66; 66] h.
Proof.
  cbn [fold_left]. rewrite !fallback_step_eq. apply to_int32_mod.
  destruct (to_int32_shape (31 * h + 65)) as [q1 ->].
  destruct (to_int32_shape (31 * h + 66)) as [q2 ->].
  replace (31 * (31 * h + 65 + q1 * 2 ^ 32) + 97)
    with ((961 * h + 2112) + (31 * q1) * 2 ^ 32) by lia.
  replace (31 * (31 * h + 66 + q2 * 2 ^ 32) + 66)
    with ((961 * h + 2112) + (31 * q2) * 2 ^ 32) by lia.
  now rewrite !mod_plus_multiple.
Qed.

End FallbackHash.

(** X4: [fallbackSha256] gives the eight 32-bit big-endian words [(h + i) mod 2^32], i = 0..7, where [h] is the polynomial hash [sum c_j * 31^(n-1-j)] of the code units. *)
Theorem fallbackSha256_words (message : list Z) :
  fallbackSha256 message =
    flat_map (fun i => Sha256.bytes_of_word ((string_hash message + Z.of_nat i) mod 2 ^ 32))
      (seq 0 8).
Proof.
  unfold fallbackSha256. rewrite fallback_hash.
  apply flat_map_ext. intros i. f_equal. unfold to_uint32.
  destruct (to_int32_shape (string_hash message)) as [q ->].
  replace (string_hash message + q * 2 ^ 32 + Z.of_nat i)
    with ((string_hash message + Z.of_nat i) + q * 2 ^ 32) by lia.
  apply mod_plus_multiple.
Qed.

(** X5: without [crypto.subtle], two different verifiers that differ by replacing "Aa" with "BB" get the same code challenge. *)
Theorem generateCodeChallenge_fallback_collision (te grv : bool) (x y : list Z) :
  let env := {| has_text_encoder := te; has_subtle := false; has_get_random_values := grv |} in
  x ++ [65; 97] ++ y <> x ++ [66; 66] ++ y /\
  generateCodeChallenge env (x ++ [65; 97] ++ y) = generateCodeChallenge env (x ++ [66; 66] ++ y).
Proof.
  cbv zeta. split.
  - intros H. apply app_inv_head in H. discriminate.
  - assert (Hf : fallbackSha256 (x ++ [65; 97] ++ y) = fallbackSha256 (x ++ [66; 66] ++ y)).
    { unfold fallbackSha256. rewrite !fold_left_app, fallback_Aa_BB. reflexivity. }
    unfold generateCodeChallenge. cbn [has_text_encoder has_subtle].
    destruct te; cbn [negb]; [|reflexivity]. cbv zeta. rewrite Hf. reflexivity.
Qed.


Section StorageOps.

Lemma remove_keys_lookup (ks : list string) (s : storage) (k : string) :
  fold_left removeSecurely ks s !! k = if existsb (String.eqb k) ks then None else s !! k.
Proof.
  revert s. induction ks as [|k0 ks IH]; intros s; [reflexivity|].
  cbn [fold_left existsb]. rewrite IH. unfold removeSecurely.
  destruct (String.eqb_spec k k0) as [->|Hne].
  - destruct (existsb (String.eqb k0) ks); [reflexivity|]. apply lookup_delete_eq.
  - cbn [orb]. destruct (existsb (String.eqb k) ks); [reflexivity|].
    apply lookup_delete_ne. congruence.
Qed.

Lemma clearAuthData_lookup (s : storage) (k : string) :
  clearAuthData s !! k = if existsb (String.eqb k) STORAGE_KEYS then None else s !! k.
Proof. apply remove_keys_lookup. Qed.

Lemma existsb_eqb_In (k : string) (ks : list string) :
  existsb (String.eqb k) ks = true <-> In k ks.
Proof.
  rewrite existsb_exists. split.
  - intros [x [Hx He]]. apply String.eqb_eq in He. subst. exact Hx.
  - intros H. exists k. split; [exact H | apply String.eqb_refl].
Qed.

Lemma hasValidToken_ext (s1 s2 : storage) (now : Z) :
  s1 !! ACCESS_TOKEN = s2 !! ACCESS_TOKEN -> s1 !! TOKEN_EXPIRES = s2 !! TOKEN_EXPIRES ->
  hasValidToken s1 now = hasValidToken s2 now.
Proof. intros Ha He. unfold hasValidToken, retrieveSecurely. now rewrite Ha, He. Qed.

Lemma hasValidToken_no_access (s : storage) (now : Z) :
  s !! ACCESS_TOKEN = None -> hasValidToken s now = false.
Proof. intros H. unfold hasValidToken, retrieveSecurely. now rewrite H. Qed.

Lemma cleanupAuthState_lookup (s : storage) (k : string) :
  cleanupAuthState s !! k =
    if String.eqb k STATE || String.eqb k CODE_VERIFIER then None else s !! k.
Proof.
  unfold cleanupAuthState, removeSecurely.
  destruct (String.eqb_spec k STATE) as [->|Hs]; [apply lookup_delete_eq|].
  rewrite lookup_delete_ne by congruence.
  destruct (String.eqb_spec k CODE_VERIFIER) as [->|Hc]; [apply lookup_delete_eq|].
  apply lookup_delete_ne. congruence.
Qed.

Lemma retrieve_jsv_cleanup_state (s : storage) :
  retrieve_jsv (cleanupAuthState s) STATE = JNull.
Proof.
  unfold retrieve_jsv, retrieveSecurely. rewrite cleanupAuthState_lookup.
  rewrite String.eqb_refl. reflexivity.
Qed.

End StorageOps.

(** X6: [clearAuthData] removes the six storage keys and leaves every other key unchanged; afterwards there is no valid token and no refresh token. *)
Theorem clearAuthData_clears (s : storage) :
  (forall k, In k STORAGE_KEYS -> clearAuthData s !! k = None) /\
  (forall k, ~ In k STORAGE_KEYS -> clearAuthData s !! k = s !! k) /\
  (forall now, hasValidToken (clearAuthData s) now = false) /\
  canRefreshToken (clearAuthData s) = false.
Proof.
  split; [|split; [|split]].
  - intros k Hk. rewrite clearAuthData_lookup. apply existsb_eqb_In in Hk. now rewrite Hk.
  - intros k Hk. rewrite clearAuthData_lookup.
    destruct (existsb (String.eqb k) STORAGE_KEYS) eqn:E; [|reflexivity].
    apply existsb_eqb_In in E. contradiction.
  - intros now. apply hasValidToken_no_access. rewrite clearAuthData_lookup. reflexivity.
  - unfold canRefreshToken, retrieveSecurely. rewrite clearAuthData_lookup. reflexivity.
Qed.

(** X7: [cleanupAuthState] removes only the code verifier and the state; [hasValidToken] and [canRefreshToken] are unchanged. *)
Theorem cleanupAuthState_frame (s : storage) :
  cleanupAuthState s !! CODE_VERIFIER = None /\ cleanupAuthState s !! STATE = None /\
  (forall k, k <> CODE_VERIFIER -> k <> STATE -> cleanupAuthState s !! k = s !! k) /\
  (forall now, hasValidToken (cleanupAuthState s) now = hasValidToken s now) /\
  canRefreshToken (cleanupAuthState s) = canRefreshToken s.
Proof.
  split; [|split; [|split; [|split]]].
  - rewrite cleanupAuthState_lookup. reflexivity.
  - rewrite cleanupAuthState_lookup. reflexivity.
  - intros k Hc Hs. rewrite cleanupAuthState_lookup.
    apply String.eqb_neq in Hc, Hs. now rewrite Hc, Hs.
  - intros now. apply hasValidToken_ext; rewrite cleanupAuthState_lookup; reflexivity.
  - unfold canRefreshToken, retrieveSecurely. rewrite cleanupAuthState_lookup. reflexivity.
Qed.

(** X8: after [cleanupAuthState], [handleAuthorizationCallback] never exchanges a code and always throws, and [exchangeCodeForTokens] sends no request and fails with the missing-verifier error. *)
Theorem cleanupAuthState_blocks_replay (s : storage) :
  (forall ps ex,
     existsb is_exchange (fst (handleAuthorizationCallback ps (cleanupAuthState s) ex)) = false /\
     exists m, snd (handleAuthorizationCallback ps (cleanupAuthState s) ex) = Throw m) /\
  (forall cfg backendEndpoint tokenEndpoint code backend_answer token_answer,
     exchangeCodeForTokens cfg backendEndpoint tokenEndpoint (cleanupAuthState s) code
       backend_answer token_answer =
     ([], Throw ("Failed to exchange authorization code: Code verifier not found - "
                 ++ "PKCE flow was not properly initialized"))).
Proof.
  split.
  - intros ps ex. unfold handleAuthorizationCallback. cbv zeta.
    rewrite retrieve_jsv_cleanup_state.
    destruct (url_get ps "state") as [| |x|n]; case_ifs; cbn in *;
      try discriminate; split; try reflexivity; eexists; reflexivity.
  - intros. unfold exchangeCodeForTokens, retrieveSecurely.
    rewrite cleanupAuthState_lookup. reflexivity.
Qed.


Section UriEncoding.

Lemma list_ascii_of_string_append (a b : string) :
  list_ascii_of_string (a ++ b) = list_ascii_of_string a ++ list_ascii_of_string b.
Proof. induction a as [|c a IH]; [reflexivity|]. simpl. f_equal. exact IH. Qed.

Lemma uri_encode_char_avoids (c : ascii) : avoids "&"%char (uri_encode_char c) = true.
Proof. destruct c as [[] [] [] [] [] [] [] []]; reflexivity. Qed.

Lemma uri_decode_char (c : ascii) (rest : list ascii) :
  (nat_of_ascii c <? 128)%nat = true ->
  form_urldecode (uri_encode_char c ++ rest) = c :: form_urldecode rest.
Proof.
  destruct c as [[] [] [] [] [] [] [] []]; intros H; (discriminate H || reflexivity).
Qed.

Lemma uri_encode_avoids (u : list ascii) : avoids "&"%char (flat_map uri_encode_char u) = true.
Proof.
  induction u as [|c u IH]; [reflexivity|].
  cbn [flat_map]. rewrite avoids_app, uri_encode_char_avoids. exact IH.
Qed.

Lemma uri_decode_encode (u : list ascii) :
  forallb (fun c => (nat_of_ascii c <? 128)%nat) u = true ->
  form_urldecode (flat_map uri_encode_char u) = u.
Proof.
  induction u as [|c u IH]; intros H; [reflexivity|].
  cbn [forallb] in H. apply andb_prop in H as [Hc Hu].
  cbn [flat_map]. rewrite uri_decode_char by exact Hc. now rewrite IH.
Qed.

Lemma parse_query_logout (u : string) :
  is_ascii_string u = true ->
  parse_query ("post_logout_redirect_uri=" ++ encodeURIComponent u) =
    [("post_logout_redirect_uri", u)].
Proof.
  intros Hu. unfold parse_query, encodeURIComponent.
  rewrite list_ascii_of_string_append, list_ascii_of_string_of_list_ascii.
  set (E := flat_map uri_encode_char (list_ascii_of_string u)).
  replace (list_ascii_of_string "post_logout_redirect_uri=" ++ E)
    with (list_ascii_of_string "post_logout_redirect_uri" ++ "="%char :: E) by reflexivity.
  rewrite split_on_avoids.
  2: { rewrite avoids_app. apply uri_encode_avoids. }
  cbn [List.filter map nonempty_piece list_ascii_of_string app]. unfold decode_piece.
  change ("p"%char :: _) with (list_ascii_of_string "post_logout_redirect_uri" ++ "="%char :: E).
  rewrite split_pair_avoids by reflexivity.
  unfold E. rewrite uri_decode_encode by exact Hu.
  now rewrite string_of_list_ascii_of_string.
Qed.

End UriEncoding.

(** X9: [logout] clears the auth data and redirects to [<authority>/oauth2/v2.0/logout?q] where [q] parses back to the single pair [post_logout_redirect_uri] = the configured URI (for an ASCII URI). *)
Theorem logout_clears_and_redirects (cfg : auth_config) (postLogoutRedirectUri : js_string)
    (s : storage) :
  is_ascii_string (to_js_string postLogoutRedirectUri) = true ->
  fst (logout cfg postLogoutRedirectUri s) = clearAuthData s /\
  exists q,
    snd (logout cfg postLogoutRedirectUri s) = (authority cfg ++ "/oauth2/v2.0/logout?" ++ q)%string /\
    parse_query q = [("post_logout_redirect_uri", to_js_string postLogoutRedirectUri)].
Proof.
  intros Hu. split; [reflexivity|].
  eexists. split; [reflexivity|]. apply parse_query_logout. exact Hu.
Qed.

Lemma logout_clears_and_redirects_witness :
  is_ascii_string (to_js_string (Some "https://localhost:3000")) = true /\
  fst (logout sample_config (Some "https://localhost:3000") signed_in_storage)
    = clearAuthData signed_in_storage /\
  exists q,
    snd (logout sample_config (Some "https://localhost:3000") signed_in_storage)
      = (authority sample_config ++ "/oauth2/v2.0/logout?" ++ q)%string /\
    parse_query q = [("post_logout_redirect_uri", to_js_string (Some "https://localhost:3000"))].
Proof.
  split; [reflexivity|].
  exact (logout_clears_and_redirects sample_config (Some "https://localhost:3000")
           signed_in_storage eq_refl).
Defined.

Section ConfigProofs.

Lemma env_or_nonempty (penv : gmap string string) (name d : string) :
  d <> ""%string -> env_or penv name d <> ""%string.
Proof.
  intros Hd. unfold env_or, truthy.
  destruct (penv !! name) as [v|]; cbn; [|exact Hd].
  destruct (String.eqb_spec v ""); cbn; [exact Hd | exact n].
Qed.

Lemma env_or_unset (penv : gmap string string) (name d : string) :
  truthy (penv !! name) = false -> env_or penv name d = d.
Proof. unfold env_or. intros H. now rewrite H. Qed.

Lemma eqb_nonempty (x : string) : x <> ""%string -> String.eqb x "" = false.
Proof. apply String.eqb_neq. Qed.

End ConfigProofs.

(** X10: in every environment, [getAuthConfig] uses session storage, turns debug on, and has a non-empty backend URL, client id, authority and redirect URI. *)
Theorem getAuthConfig_fixed_settings (isNode : bool) (penv : gmap string string) :
  let c := getAuthConfig isNode penv in
  storage_useSessionStorage c = true /\ debug c = true /\
  ep_backend (endpoints c) <> ""%string /\ ad_clientId (azureAd c) <> ""%string /\
  ad_authority (azureAd c) <> ""%string /\ ad_redirectUri (azureAd c) <> ""%string.
Proof.
  cbv zeta. destruct isNode.
  - cbn [getAuthConfig loadEnvironmentConfig storage_useSessionStorage debug endpoints azureAd
         ep_backend ad_clientId ad_authority ad_redirectUri ec_useSessionStorage ec_debugAuth
         ec_backendServiceUrl ec_clientId ec_authority ec_redirectUri].
    rewrite !orb_true_r. cbn [orb].
    repeat split; apply env_or_nonempty; discriminate.
  - repeat split; cbn; discriminate.
Qed.

(** X11: under Node, when TOKEN_ENDPOINT and AUTH_ENDPOINT are unset, the token and authorize endpoints are those of the common authority, whatever AUTHORITY is. *)
Theorem getAuthConfig_node_endpoints_ignore_authority (penv : gmap string string) :
  truthy (penv !! "TOKEN_ENDPOINT") = false ->
  truthy (penv !! "AUTH_ENDPOINT") = false ->
  let c := getAuthConfig true penv in
  ep_token (endpoints c) = "https://login.microsoftonline.com/common/oauth2/v2.0/token"%string /\
  ep_auth (endpoints c) = "https://login.microsoftonline.com/common/oauth2/v2.0/authorize"%string /\
  ad_authority (azureAd c) = env_or penv "AUTHORITY" browser_authority.
Proof.
  intros Ht Ha. cbv zeta. unfold getAuthConfig, loadEnvironmentConfig.
  cbn [endpoints azureAd ep_token ep_auth ad_authority ec_tokenEndpoint ec_authEndpoint
       ec_authority].
  rewrite (env_or_unset penv "TOKEN_ENDPOINT") by exact Ht.
  rewrite (env_or_unset penv "AUTH_ENDPOINT") by exact Ha.
  repeat split; reflexivity.
Qed.

Lemma getAuthConfig_node_endpoints_ignore_authority_witness :
  truthy (tenant_env !! "TOKEN_ENDPOINT") = false /\
  truthy (tenant_env !! "AUTH_ENDPOINT") = false /\
  ad_authority (azureAd (getAuthConfig true tenant_env))
    = "https://login.microsoftonline.com/contoso"%string /\
  let c := getAuthConfig true tenant_env in
  ep_token (endpoints c) = "https://login.microsoftonline.com/common/oauth2/v2.0/token"%string /\
  ep_auth (endpoints c) = "https://login.microsoftonline.com/common/oauth2/v2.0/authorize"%string /\
  ad_authority (azureAd c) = env_or tenant_env "AUTHORITY" browser_authority.
Proof.
  split; [reflexivity|]. split; [reflexivity|]. split; [reflexivity|].
  exact (getAuthConfig_node_endpoints_ignore_authority tenant_env eq_refl eq_refl).
Defined.

(** X12: [validateEnvironmentConfig] succeeds in the browser; under Node it throws exactly when GRAPH_SCOPES yields no scope (in particular when it is unset), with the single scope error. *)
Theorem validateEnvironmentConfig_scopes (penv : gmap string string) :
  validateEnvironmentConfig false penv = Ok true /\
  validateEnvironmentConfig true penv =
    match split_words (env_or penv "GRAPH_SCOPES" "") with
    | [] => Throw "Environment configuration errors: At least one scope is required"
    | _ => Ok true
    end /\
  (truthy (penv !! "GRAPH_SCOPES") = false ->
   validateEnvironmentConfig true penv =
     Throw "Environment configuration errors: At least one scope is required").
Proof.
  assert (Hnode : validateEnvironmentConfig true penv =
    match split_words (env_or penv "GRAPH_SCOPES" "") with
    | [] => Throw "Environment configuration errors: At least one scope is required"
    | _ => Ok true
    end).
  { unfold validateEnvironmentConfig, getAuthConfig, loadEnvironmentConfig.
    cbn [azureAd ad_clientId ad_authority ad_redirectUri ad_scopes ec_clientId ec_authority
         ec_redirectUri ec_scopes].
    rewrite !eqb_nonempty by (apply env_or_nonempty; discriminate).
    destruct (split_words (env_or penv "GRAPH_SCOPES" "")); reflexivity. }
  split; [reflexivity|]. split; [exact Hnode|].
  intros H. rewrite Hnode, env_or_unset by exact H. reflexivity.
Qed.

Section TokenStore.

Lemma truthy_some (v : string) : v <> ""%string -> truthy (Some v) = true.
Proof. intros H. unfold truthy. apply String.eqb_neq in H. now rewrite H. Qed.

End TokenStore.

(** X13: with no (truthy) refresh token stored, [refreshAccessToken] sends no request, leaves the storage unchanged and fails with "Refresh token not available". *)
Theorem refreshAccessToken_without_refresh_token (cfg : auth_config) (tokenEndpoint : string)
    (now : Z) (answer : outcome token_response) (s : storage) :
  truthy (s !! REFRESH_TOKEN) = false ->
  refreshAccessToken cfg tokenEndpoint now answer s = ([], s, Throw "Refresh token not available").
Proof. intros H. unfold refreshAccessToken, retrieveSecurely. now rewrite H. Qed.

(** X14: with a refresh token [rt] stored, [refreshAccessToken] sends exactly one request, to the token endpoint, whose form body parses back to client_id, grant_type=refresh_token, refresh_token=[rt] and the space-joined scopes. *)
Theorem refreshAccessToken_request (cfg : auth_config) (tokenEndpoint : string) (now : Z)
    (answer : outcome token_response) (s : storage) (rt : string) :
  s !! REFRESH_TOKEN = Some rt -> rt <> ""%string ->
  exists body,
    fst (fst (refreshAccessToken cfg tokenEndpoint now answer s)) =
      [ReqTokenEndpoint tokenEndpoint body] /\
    parse_query body = refresh_request_params cfg rt.
Proof.
  intros Hs Hrt. unfold refreshAccessToken, retrieveSecurely. rewrite Hs, truthy_some by exact Hrt.
  cbn [negb default]. exists (string_of_list_ascii (urlsearchparams_toString (refresh_request_params cfg rt))).
  split.
  - destruct answer as [rd|m]; [|reflexivity]. case_ifs; reflexivity.
  - apply parse_query_toString. discriminate.
Qed.

Section TokenStore2.

Lemma truthy_to_js_string (v : js_string) : truthy v = true -> truthy (Some (to_js_string v)) = true.
Proof. destruct v; [exact id | discriminate]. Qed.

Lemma storeTokens_refresh_truthy (s : storage) (now : Z) (t : tokens) :
  truthy (refreshToken t) = true -> truthy (fst (storeTokens s now t) !! REFRESH_TOKEN) = true.
Proof.
  intros H. rewrite storeTokens_lookup, String.eqb_refl, H. now apply truthy_to_js_string.
Qed.

Lemma storeTokens_access (s : storage) (now : Z) (t : tokens) :
  fst (storeTokens s now t) !! ACCESS_TOKEN = Some (to_js_string (accessToken t)).
Proof. rewrite storeTokens_lookup. reflexivity. Qed.

Lemma storeTokens_ok (s : storage) (now e : Z) (t : tokens) :
  expiresIn t = Some e -> Z.abs now <= MAX_TIME -> Z.abs (now + e * 1000) <= MAX_TIME ->
  snd (storeTokens s now t) = Ok tt.
Proof. intros He Hn Hx. apply (storeTokens_expiry_exact s now e t He Hn Hx). Qed.

Lemma refreshAccessToken_ok_eq (cfg : auth_config) (tokenEndpoint : string) (now : Z)
    (rd : token_response) (s : storage) (rt : string) :
  s !! REFRESH_TOKEN = Some rt -> rt <> ""%string -> rd_ok rd = true ->
  refreshAccessToken cfg tokenEndpoint now (Ok rd) s =
    ([ReqTokenEndpoint tokenEndpoint
        (string_of_list_ascii (urlsearchparams_toString (refresh_request_params cfg rt)))],
     fst (storeTokens s now (refreshed_tokens rd (Some rt))),
     snd (storeTokens s now (refreshed_tokens rd (Some rt)))).
Proof.
  intros Hs Hrt Hok. unfold refreshAccessToken, retrieveSecurely.
  rewrite Hs, truthy_some by exact Hrt. cbn [negb]. rewrite default_some, Hok. reflexivity.
Qed.

End TokenStore2.

(** X15: when the token endpoint answers with a non-ok response, [refreshAccessToken] sends one request and fails with "Token refresh failed: <error> - <description>"; on error invalid_grant it clears the auth data (no valid token, no refresh token), otherwise the storage is unchanged. *)
Theorem refreshAccessToken_rejected (cfg : auth_config) (tokenEndpoint : string) (now : Z)
    (rd : token_response) (s : storage) :
  truthy (s !! REFRESH_TOKEN) = true -> rd_ok rd = false ->
  let res := refreshAccessToken cfg tokenEndpoint now (Ok rd) s in
  length (fst (fst res)) = 1%nat /\
  snd res = Throw ("Token refresh failed: " ++ template (rd_error rd) ++ " - "
                   ++ template (rd_error_description rd)) /\
  (rd_error rd = Some "invalid_grant"%string ->
   snd (fst res) = clearAuthData s /\ canRefreshToken (snd (fst res)) = false /\
   forall t, hasValidToken (snd (fst res)) t = false) /\
  (rd_error rd <> Some "invalid_grant"%string -> snd (fst res) = s).
Proof.
  intros Hs Hok. cbv zeta. unfold refreshAccessToken, retrieveSecurely.
  rewrite Hs, Hok. cbn [negb fst snd length].
  split; [reflexivity|]. split; [reflexivity|]. split.
  - intros ->. rewrite String.eqb_refl. split; [reflexivity|]. split.
    + unfold canRefreshToken, retrieveSecurely. rewrite clearAuthData_lookup. reflexivity.
    + intros t. apply hasValidToken_no_access. rewrite clearAuthData_lookup. reflexivity.
  - intros Hne. destruct (rd_error rd) as [e|]; [|reflexivity].
    destruct (String.eqb_spec e "invalid_grant"); [subst; congruence | reflexivity].
Qed.

(** X16: on an ok answer carrying expires_in = [e], at a refresh time [now] where [now] and [now + e*1000] are time values, [refreshAccessToken] resolves, stores the new access token and the new refresh token or keeps the old one (so a refresh token remains), changes no other key than the three token keys, and the stored token is valid at the refresh time exactly when it is non-empty and [e] exceeds 300 seconds. *)
Theorem refreshAccessToken_success (cfg : auth_config) (tokenEndpoint : string) (now : Z)
    (rd : token_response) (s : storage) (rt : string) (e : Z) :
  s !! REFRESH_TOKEN = Some rt -> rt <> ""%string -> rd_ok rd = true ->
  rd_expires_in rd = Some e -> Z.abs now <= MAX_TIME -> Z.abs (now + e * 1000) <= MAX_TIME ->
  let s' := snd (fst (refreshAccessToken cfg tokenEndpoint now (Ok rd) s)) in
  snd (refreshAccessToken cfg tokenEndpoint now (Ok rd) s) = Ok tt /\
  s' !! ACCESS_TOKEN = Some (to_js_string (rd_access_token rd)) /\
  s' !! REFRESH_TOKEN =
    Some (if truthy (rd_refresh_token rd) then to_js_string (rd_refresh_token rd) else rt) /\
  canRefreshToken s' = true /\
  (forall k, k <> ACCESS_TOKEN -> k <> TOKEN_EXPIRES -> k <> REFRESH_TOKEN -> s' !! k = s !! k) /\
  hasValidToken s' now = negb (String.eqb (to_js_string (rd_access_token rd)) "") && (300 <? e).
Proof.
  intros Hs Hrt Hok He Hn Hx. cbv zeta.
  rewrite (refreshAccessToken_ok_eq cfg tokenEndpoint now rd s rt Hs Hrt Hok).
  cbn [fst snd].
  set (t := refreshed_tokens rd (Some rt)).
  assert (Hte : expiresIn t = Some e) by exact He.
  split; [exact (storeTokens_ok s now e t Hte Hn Hx)|].
  assert (Hr : fst (storeTokens s now t) !! REFRESH_TOKEN =
               Some (if truthy (rd_refresh_token rd) then to_js_string (rd_refresh_token rd) else rt)).
  { rewrite storeTokens_lookup, String.eqb_refl. unfold t, refreshed_tokens; cbn [refreshToken].
    destruct (truthy (rd_refresh_token rd)) eqn:E; [rewrite E; reflexivity|].
    rewrite truthy_some by exact Hrt. reflexivity. }
  split; [apply storeTokens_access|].
  split; [exact Hr|]. split.
  - unfold canRefreshToken, retrieveSecurely. rewrite Hr.
    destruct (truthy (rd_refresh_token rd)) eqn:E; [now apply truthy_to_js_string in E|].
    now apply truthy_some.
  - split.
    + intros k H1 H2 H3. rewrite storeTokens_lookup.
      apply String.eqb_neq in H1, H2, H3. now rewrite H1, H2, H3.
    + rewrite (hasValidToken_after_storeTokens s now now e t Hte Hn Hx Hn).
      unfold t, refreshed_tokens; cbn [accessToken]. unfold truthy. f_equal.
      destruct (Z.ltb_spec now (now + e * 1000 - 300000)), (Z.ltb_spec 300 e); lia.
Qed.

(** X23: on an ok answer without expires_in, [refreshAccessToken] writes the new access token and the expiry "NaN", then fails with "Invalid time value" (the [RangeError] of [storeTokens]); the stored token is never valid afterwards. *)
Theorem refreshAccessToken_missing_expiry (cfg : auth_config) (tokenEndpoint : string) (now : Z)
    (rd : token_response) (s : storage) (rt : string) :
  s !! REFRESH_TOKEN = Some rt -> rt <> ""%string -> rd_ok rd = true -> rd_expires_in rd = None ->
  let res := refreshAccessToken cfg tokenEndpoint now (Ok rd) s in
  snd res = Throw "Invalid time value" /\
  snd (fst res) !! ACCESS_TOKEN = Some (to_js_string (rd_access_token rd)) /\
  snd (fst res) !! TOKEN_EXPIRES = Some "NaN"%string /\
  forall t, hasValidToken (snd (fst res)) t = false.
Proof.
  intros Hs Hrt Hok He. cbv zeta.
  rewrite (refreshAccessToken_ok_eq cfg tokenEndpoint now rd s rt Hs Hrt Hok).
  cbn [fst snd].
  set (t := refreshed_tokens rd (Some rt)).
  assert (Hte : token_expiry now t = DNaN) by (apply token_expiry_missing; exact He).
  assert (Hexp : fst (storeTokens s now t) !! TOKEN_EXPIRES = Some "NaN"%string)
    by (rewrite storeTokens_lookup, Hte; reflexivity).
  split; [rewrite storeTokens_outcome, Hte; reflexivity|].
  split; [apply storeTokens_access|]. split; [exact Hexp|].
  intros t1. unfold hasValidToken, retrieveSecurely. rewrite Hexp.
  destruct (negb (truthy (fst (storeTokens s now t) !! ACCESS_TOKEN)) || negb (truthy (Some "NaN"%string)));
    [reflexivity|].
  cbn -[round_double]. destruct (round_double t1) as [|[]|]; reflexivity.
Qed.

(** X17: with a verifier [v] stored, [exchangeCodeForTokens] sends the backend request when a backend is configured, then the PKCE request (whose body parses back to the five token parameters with code_verifier = [v]) unless the backend accepted; it resolves exactly when an accepted answer arrives, its tokens carry a non-empty access token, and every error starts with "Failed to exchange authorization code: ". *)
Theorem exchangeCodeForTokens_requests_and_result (cfg : auth_config) (backendEndpoint : js_string)
    (tokenEndpoint : string) (s : storage) (code : string)
    (backend_answer token_answer : outcome token_response) (v : string) :
  s !! CODE_VERIFIER = Some v -> v <> ""%string ->
  let res := exchangeCodeForTokens cfg backendEndpoint tokenEndpoint s code
               backend_answer token_answer in
  let backend_ok := truthy backendEndpoint && token_answer_accepted backend_answer in
  (exists body,
     fst res =
       (if truthy backendEndpoint
        then [ReqBackendExchange (to_js_string backendEndpoint ++ "/api/auth/exchange-code")%string
                code v (redirectUri cfg)]
        else []) ++
       (if backend_ok then [] else [ReqTokenEndpoint tokenEndpoint body]) /\
     parse_query body = token_request_params cfg code v) /\
  ((exists t, snd res = Ok t) <-> (backend_ok || token_answer_accepted token_answer) = true) /\
  (forall t, snd res = Ok t -> truthy (accessToken t) = true) /\
  (forall m, snd res = Throw m ->
     exists m', m = ("Failed to exchange authorization code: " ++ m')%string).
Proof.
  intros Hv Hne. cbv zeta. unfold exchangeCodeForTokens, retrieveSecurely.
  rewrite Hv, truthy_some by exact Hne. cbn [negb]. rewrite default_some.
  set (B := string_of_list_ascii (urlsearchparams_toString (token_request_params cfg code v))).
  assert (HB : parse_query B = token_request_params cfg code v)
    by (apply parse_query_toString; discriminate).
  unfold exchangeCodeViaBackend, exchangeCodeViaPKCE. fold B.
  destruct (truthy backendEndpoint); cbn [andb];
  destruct backend_answer as [rb|mb]; destruct token_answer as [rt|mt];
  unfold token_answer_accepted; cbn [andb orb];
  repeat match goal with
         | |- context [rd_ok ?r] => destruct (rd_ok r); cbn [negb andb orb]
         | |- context [truthy (rd_access_token ?r)] =>
             destruct (truthy (rd_access_token r)) eqn:?; cbn [negb andb orb]
         end;
  (split; [exists B; split; [reflexivity | exact HB] |]);
  split; (try split);
  first [ intros [t Ht]; discriminate Ht
        | intros Hf; discriminate Hf
        | intros _; eexists; reflexivity
        | intros t Ht; injection Ht as <-; assumption
        | intros t Ht; discriminate Ht
        | intros m Hm; injection Hm as <-; eexists; reflexivity
        | intros m Hm; discriminate Hm
        | idtac ].
Qed.

(** X18: with no (truthy) access token stored, [getNotebooks] sends no request and fails with "Access token not available". *)
Theorem getNotebooks_without_access_token (fuel : nat) (cfg : auth_config) (tokenEndpoint : string)
    (env : net_env) (i : nat) (s : storage) :
  truthy (s !! ACCESS_TOKEN) = false ->
  getNotebooks (S fuel) cfg tokenEndpoint env i s = Some ([], s, Throw "Access token not available").
Proof. intros H. cbn [getNotebooks]. unfold retrieveSecurely. now rewrite H. Qed.

(** X19: when the Graph request is refused with 401 and the refresh fails (no refresh token, a failed or rejected request, or the "Invalid time value" of [storeTokens] after an ok answer without a valid expires_in), [getNotebooks] does not retry: it fails with the refresh's error, after the Graph request and the refresh's requests, with the storage the refresh left. *)
Theorem getNotebooks_failed_refresh (fuel : nat) (cfg : auth_config) (tokenEndpoint : string)
    (env : net_env) (i : nat) (s : storage) (a : string) (r : graph_response)
    (tr : list request) (s' : storage) (m : string) :
  s !! ACCESS_TOKEN = Some a -> a <> ""%string ->
  graph_answer env i = Ok r -> gr_ok r = false -> gr_status r = 401 ->
  refreshAccessToken cfg tokenEndpoint (clock env i) (token_answer env i) s = (tr, s', Throw m) ->
  getNotebooks (S fuel) cfg tokenEndpoint env i s =
    Some (ReqGraph GRAPH_NOTEBOOKS_URL ("Bearer " ++ a)%string :: tr, s', Throw m).
Proof.
  intros Ha Hne Hg Hok Hst Hr. cbn [getNotebooks]. unfold retrieveSecurely.
  rewrite Ha, truthy_some by exact Hne. cbn [negb]. rewrite ?default_some; rewrite Hg, Hok, Hst, Z.eqb_refl.
  cbn [negb]. rewrite Hr. reflexivity.
Qed.

(** X20: a 401 followed by a successful refresh (an ok answer with a non-empty token and expires_in = [e], the clock and the new expiry being time values) and an ok retry gives three requests (Graph with the old token, the refresh, Graph with the new token), the refreshed storage and the mapped notebooks. *)
Theorem getNotebooks_refresh_then_retry (fuel : nat) (cfg : auth_config) (tokenEndpoint : string)
    (env : net_env) (i : nat) (s : storage) (a rt : string) (r1 r2 : graph_response)
    (rd : token_response) (e : Z) :
  s !! ACCESS_TOKEN = Some a -> a <> ""%string ->
  s !! REFRESH_TOKEN = Some rt -> rt <> ""%string ->
  graph_answer env i = Ok r1 -> gr_ok r1 = false -> gr_status r1 = 401 ->
  token_answer env i = Ok rd -> rd_ok rd = true -> to_js_string (rd_access_token rd) <> ""%string ->
  rd_expires_in rd = Some e -> Z.abs (clock env i) <= MAX_TIME ->
  Z.abs (clock env i + e * 1000) <= MAX_TIME ->
  graph_answer env (S i) = Ok r2 -> gr_ok r2 = true ->
  exists body,
    getNotebooks (S (S fuel)) cfg tokenEndpoint env i s =
      Some ([ReqGraph GRAPH_NOTEBOOKS_URL ("Bearer " ++ a)%string;
             ReqTokenEndpoint tokenEndpoint body;
             ReqGraph GRAPH_NOTEBOOKS_URL ("Bearer " ++ to_js_string (rd_access_token rd))%string],
            fst (storeTokens s (clock env i)
                   {| accessToken := rd_access_token rd;
                      refreshToken := if truthy (rd_refresh_token rd) then rd_refresh_token rd
                                      else Some rt;
                      expiresIn := rd_expires_in rd |}),
            Ok (match gr_value r2 with Some (g :: l) => map notebook_of (g :: l) | _ => [] end)) /\
    parse_query body = refresh_request_params cfg rt.
Proof.
  intros Ha Hane Hrt Hrtne Hg1 Hok1 Hst1 Htk Hrdok Hacc He Hc Hx Hg2 Hok2.
  exists (string_of_list_ascii (urlsearchparams_toString (refresh_request_params cfg rt))). split; [|apply parse_query_toString; discriminate].
  cbn [getNotebooks]. unfold retrieveSecurely at 1.
  rewrite Ha, truthy_some by exact Hane. cbn [negb]. rewrite ?default_some; rewrite Hg1, Hok1, Hst1, Z.eqb_refl.
  cbn [negb]. rewrite Htk, (refreshAccessToken_ok_eq cfg tokenEndpoint _ rd s rt Hrt Hrtne Hrdok).
  rewrite (storeTokens_ok s (clock env i) e (refreshed_tokens rd (Some rt)) He Hc Hx).
  unfold retrieveSecurely. rewrite storeTokens_access. cbn [accessToken refreshed_tokens].
  rewrite truthy_some by exact Hacc. cbn [negb]. rewrite ?default_some; rewrite Hg2, Hok2.
  cbn [negb app]. rewrite Ha. reflexivity.
Qed.

(** X21: when the Graph API always answers 401 and every refresh succeeds (an ok answer with a non-empty token and an expires_in [e] such that the clock and the new expiry are time values), [getNotebooks] never settles: it retries without bound. *)
Theorem getNotebooks_retries_forever (cfg : auth_config) (tokenEndpoint : string) (env : net_env)
    (s : storage) :
  (forall j, exists r, graph_answer env j = Ok r /\ gr_ok r = false /\ gr_status r = 401) ->
  (forall j, exists rd e, token_answer env j = Ok rd /\ rd_ok rd = true /\
                          to_js_string (rd_access_token rd) <> ""%string /\
                          rd_expires_in rd = Some e /\ Z.abs (clock env j) <= MAX_TIME /\
                          Z.abs (clock env j + e * 1000) <= MAX_TIME) ->
  truthy (s !! ACCESS_TOKEN) = true -> truthy (s !! REFRESH_TOKEN) = true ->
  forall fuel i, getNotebooks fuel cfg tokenEndpoint env i s = None.
Proof.
  intros Hg Ht Ha Hr fuel. revert s Ha Hr.
  induction fuel as [|fuel IH]; intros s Ha Hr i; [reflexivity|].
  cbn [getNotebooks]. unfold retrieveSecurely at 1. rewrite Ha. cbn [negb].
  destruct (Hg i) as (r & Hgi & Hok & Hst). rewrite Hgi, Hok, Hst, Z.eqb_refl. cbn [negb].
  destruct (Ht i) as (rd & e & Hti & Hrdok & Hacc & He & Hc & Hx). rewrite Hti.
  destruct (s !! REFRESH_TOKEN) as [rt|] eqn:Ers; [|discriminate].
  assert (Hrtne : rt <> ""%string)
    by (intros ->; discriminate Hr).
  rewrite (refreshAccessToken_ok_eq cfg tokenEndpoint _ rd s rt Ers Hrtne Hrdok).
  rewrite (storeTokens_ok s (clock env i) e (refreshed_tokens rd (Some rt)) He Hc Hx).
  rewrite IH; [reflexivity| |].
  - rewrite storeTokens_access. cbn [accessToken refreshed_tokens]. now apply truthy_some.
  - apply storeTokens_refresh_truthy. cbn [refreshToken refreshed_tokens].
    destruct (truthy (rd_refresh_token rd)) eqn:E; [exact E|exact Hr].
Qed.


Lemma refreshAccessToken_without_refresh_token_witness :
  truthy (access_only_storage !! REFRESH_TOKEN) = false /\
  refreshAccessToken sample_config TOKEN_URL 1760000000000 (Ok token_ok) access_only_storage =
    ([], access_only_storage, Throw "Refresh token not available").
Proof.
  split; [reflexivity|].
  exact (refreshAccessToken_without_refresh_token sample_config TOKEN_URL 1760000000000
           (Ok token_ok) access_only_storage eq_refl).
Defined.

Lemma refreshAccessToken_request_witness :
  signed_in_storage !! REFRESH_TOKEN = Some "rt1"%string /\ "rt1"%string <> ""%string /\
  exists body,
    fst (fst (refreshAccessToken sample_config TOKEN_URL 1760000000000 (Ok token_ok)
                signed_in_storage)) = [ReqTokenEndpoint TOKEN_URL body] /\
    parse_query body = refresh_request_params sample_config "rt1".
Proof.
  assert (H1 : signed_in_storage !! REFRESH_TOKEN = Some "rt1"%string) by reflexivity.
  assert (H2 : "rt1"%string <> ""%string) by discriminate.
  split; [exact H1|]. split; [exact H2|].
  exact (refreshAccessToken_request sample_config TOKEN_URL 1760000000000 (Ok token_ok)
           signed_in_storage "rt1" H1 H2).
Defined.

Lemma refreshAccessToken_rejected_witness :
  truthy (signed_in_storage !! REFRESH_TOKEN) = true /\ rd_ok token_invalid_grant = false /\
  let res := refreshAccessToken sample_config TOKEN_URL 1760000000000 (Ok token_invalid_grant)
               signed_in_storage in
  length (fst (fst res)) = 1%nat /\
  snd res = Throw ("Token refresh failed: " ++ template (rd_error token_invalid_grant) ++ " - "
                   ++ template (rd_error_description token_invalid_grant)) /\
  (rd_error token_invalid_grant = Some "invalid_grant"%string ->
   snd (fst res) = clearAuthData signed_in_storage /\ canRefreshToken (snd (fst res)) = false /\
   forall t, hasValidToken (snd (fst res)) t = false) /\
  (rd_error token_invalid_grant <> Some "invalid_grant"%string -> snd (fst res) = signed_in_storage).
Proof.
  split; [reflexivity|]. split; [reflexivity|].
  exact (refreshAccessToken_rejected sample_config TOKEN_URL 1760000000000 token_invalid_grant
           signed_in_storage eq_refl eq_refl).
Defined.

Lemma refreshAccessToken_success_witness :
  signed_in_storage !! REFRESH_TOKEN = Some "rt1"%string /\ "rt1"%string <> ""%string /\
  rd_ok token_ok = true /\ rd_expires_in token_ok = Some 3600 /\
  Z.abs 1760000000000 <= MAX_TIME /\ Z.abs (1760000000000 + 3600 * 1000) <= MAX_TIME /\
  let s' := snd (fst (refreshAccessToken sample_config TOKEN_URL 1760000000000 (Ok token_ok)
                        signed_in_storage)) in
  snd (refreshAccessToken sample_config TOKEN_URL 1760000000000 (Ok token_ok) signed_in_storage)
    = Ok tt /\
  s' !! ACCESS_TOKEN = Some (to_js_string (rd_access_token token_ok)) /\
  s' !! REFRESH_TOKEN =
    Some (if truthy (rd_refresh_token token_ok) then to_js_string (rd_refresh_token token_ok)
          else "rt1") /\
  canRefreshToken s' = true /\
  (forall k, k <> ACCESS_TOKEN -> k <> TOKEN_EXPIRES -> k <> REFRESH_TOKEN ->
     s' !! k = signed_in_storage !! k) /\
  hasValidToken s' 1760000000000 =
    negb (String.eqb (to_js_string (rd_access_token token_ok)) "") && (300 <? 3600).
Proof.
  assert (H1 : signed_in_storage !! REFRESH_TOKEN = Some "rt1"%string) by reflexivity.
  assert (H2 : "rt1"%string <> ""%string) by discriminate.
  assert (H3 : Z.abs 1760000000000 <= MAX_TIME) by (unfold MAX_TIME; lia).
  assert (H4 : Z.abs (1760000000000 + 3600 * 1000) <= MAX_TIME) by (unfold MAX_TIME; lia).
  split; [exact H1|]. split; [exact H2|]. split; [reflexivity|]. split; [reflexivity|].
  split; [exact H3|]. split; [exact H4|].
  exact (refreshAccessToken_success sample_config TOKEN_URL 1760000000000 token_ok
           signed_in_storage "rt1" 3600 H1 H2 eq_refl eq_refl H3 H4).
Defined.

Lemma refreshAccessToken_missing_expiry_witness :
  signed_in_storage !! REFRESH_TOKEN = Some "rt1"%string /\ "rt1"%string <> ""%string /\
  rd_ok token_no_expiry = true /\ rd_expires_in token_no_expiry = None /\
  let res := refreshAccessToken sample_config TOKEN_URL 1760000000000 (Ok token_no_expiry)
               signed_in_storage in
  snd res = Throw "Invalid time value" /\
  snd (fst res) !! ACCESS_TOKEN = Some (to_js_string (rd_access_token token_no_expiry)) /\
  snd (fst res) !! TOKEN_EXPIRES = Some "NaN"%string /\
  forall t, hasValidToken (snd (fst res)) t = false.
Proof.
  assert (H1 : signed_in_storage !! REFRESH_TOKEN = Some "rt1"%string) by reflexivity.
  assert (H2 : "rt1"%string <> ""%string) by discriminate.
  split; [exact H1|]. split; [exact H2|]. split; [reflexivity|]. split; [reflexivity|].
  exact (refreshAccessToken_missing_expiry sample_config TOKEN_URL 1760000000000 token_no_expiry
           signed_in_storage "rt1" H1 H2 eq_refl eq_refl).
Defined.


Lemma exchangeCodeForTokens_requests_and_result_witness :
  signed_in_storage !! CODE_VERIFIER = Some "v1"%string /\ "v1"%string <> ""%string /\
  let res := exchangeCodeForTokens sample_config BACKEND_URL TOKEN_URL signed_in_storage "code-1"
               (Throw "Failed to fetch") (Ok token_ok) in
  let backend_ok := truthy BACKEND_URL && token_answer_accepted (Throw "Failed to fetch") in
  (exists body,
     fst res =
       (if truthy BACKEND_URL
        then [ReqBackendExchange (to_js_string BACKEND_URL ++ "/api/auth/exchange-code")%string
                "code-1" "v1" (redirectUri sample_config)]
        else []) ++
       (if backend_ok then [] else [ReqTokenEndpoint TOKEN_URL body]) /\
     parse_query body = token_request_params sample_config "code-1" "v1") /\
  ((exists t, snd res = Ok t) <-> (backend_ok || token_answer_accepted (Ok token_ok)) = true) /\
  (forall t, snd res = Ok t -> truthy (accessToken t) = true) /\
  (forall m, snd res = Throw m ->
     exists m', m = ("Failed to exchange authorization code: " ++ m')%string).
Proof.
  assert (H1 : signed_in_storage !! CODE_VERIFIER = Some "v1"%string) by reflexivity.
  assert (H2 : "v1"%string <> ""%string) by discriminate.
  split; [exact H1|]. split; [exact H2|].
  exact (exchangeCodeForTokens_requests_and_result sample_config BACKEND_URL TOKEN_URL
           signed_in_storage "code-1" (Throw "Failed to fetch") (Ok token_ok) "v1" H1 H2).
Defined.

Lemma getNotebooks_without_access_token_witness :
  truthy ((∅ : storage) !! ACCESS_TOKEN) = false /\
  getNotebooks 3 sample_config TOKEN_URL retry_env 0 ∅ =
    Some ([], ∅, Throw "Access token not available").
Proof.
  split; [reflexivity|].
  exact (getNotebooks_without_access_token 2 sample_config TOKEN_URL retry_env 0 ∅ eq_refl).
Defined.

Lemma getNotebooks_failed_refresh_witness :
  signed_in_storage !! ACCESS_TOKEN = Some "at1"%string /\ "at1"%string <> ""%string /\
  graph_answer no_expiry_env 0 = Ok graph_401 /\ gr_ok graph_401 = false /\
  gr_status graph_401 = 401 /\
  refreshAccessToken sample_config TOKEN_URL (clock no_expiry_env 0) (token_answer no_expiry_env 0)
    signed_in_storage =
    ([ReqTokenEndpoint TOKEN_URL
        (string_of_list_ascii (urlsearchparams_toString
                                 (refresh_request_params sample_config "rt1")))],
     fst (storeTokens signed_in_storage 1760000000000 (refreshed_tokens token_no_expiry (Some "rt1"))),
     Throw "Invalid time value") /\
  getNotebooks 3 sample_config TOKEN_URL no_expiry_env 0 signed_in_storage =
    Some ([ReqGraph GRAPH_NOTEBOOKS_URL ("Bearer " ++ "at1")%string;
           ReqTokenEndpoint TOKEN_URL
             (string_of_list_ascii (urlsearchparams_toString
                                      (refresh_request_params sample_config "rt1")))],
          fst (storeTokens signed_in_storage 1760000000000
                 (refreshed_tokens token_no_expiry (Some "rt1"))),
          Throw "Invalid time value").
Proof.
  assert (H1 : signed_in_storage !! ACCESS_TOKEN = Some "at1"%string) by reflexivity.
  assert (H2 : "at1"%string <> ""%string) by discriminate.
  assert (H3 : refreshAccessToken sample_config TOKEN_URL (clock no_expiry_env 0)
                 (token_answer no_expiry_env 0) signed_in_storage =
               ([ReqTokenEndpoint TOKEN_URL
                   (string_of_list_ascii (urlsearchparams_toString
                                            (refresh_request_params sample_config "rt1")))],
                fst (storeTokens signed_in_storage 1760000000000
                       (refreshed_tokens token_no_expiry (Some "rt1"))),
                Throw "Invalid time value")) by (vm_compute; reflexivity).
  split; [exact H1|]. split; [exact H2|]. split; [reflexivity|]. split; [reflexivity|].
  split; [reflexivity|]. split; [exact H3|].
  exact (getNotebooks_failed_refresh 2 sample_config TOKEN_URL no_expiry_env 0 signed_in_storage
           "at1" graph_401 _ _ "Invalid time value"
           H1 H2 eq_refl eq_refl eq_refl H3).
Defined.

Lemma getNotebooks_refresh_then_retry_witness :
  signed_in_storage !! ACCESS_TOKEN = Some "at1"%string /\
  signed_in_storage !! REFRESH_TOKEN = Some "rt1"%string /\
  graph_answer retry_env 0 = Ok graph_401 /\ token_answer retry_env 0 = Ok token_ok /\
  rd_expires_in token_ok = Some 3600 /\ Z.abs (clock retry_env 0) <= MAX_TIME /\
  Z.abs (clock retry_env 0 + 3600 * 1000) <= MAX_TIME /\
  graph_answer retry_env 1 = Ok graph_ok /\
  exists body,
    getNotebooks 2 sample_config TOKEN_URL retry_env 0 signed_in_storage =
      Some ([ReqGraph GRAPH_NOTEBOOKS_URL ("Bearer " ++ "at1")%string;
             ReqTokenEndpoint TOKEN_URL body;
             ReqGraph GRAPH_NOTEBOOKS_URL ("Bearer " ++ to_js_string (rd_access_token token_ok))%string],
            fst (storeTokens signed_in_storage (clock retry_env 0)
                   {| accessToken := rd_access_token token_ok;
                      refreshToken := if truthy (rd_refresh_token token_ok)
                                      then rd_refresh_token token_ok else Some "rt1"%string;
                      expiresIn := rd_expires_in token_ok |}),
            Ok (match gr_value graph_ok with
                | Some (g :: l) => map notebook_of (g :: l) | _ => [] end)) /\
    parse_query body = refresh_request_params sample_config "rt1".
Proof.
  assert (H1 : signed_in_storage !! ACCESS_TOKEN = Some "at1"%string) by reflexivity.
  assert (H2 : signed_in_storage !! REFRESH_TOKEN = Some "rt1"%string) by reflexivity.
  assert (H3 : Z.abs (clock retry_env 0) <= MAX_TIME) by (cbn; unfold MAX_TIME; lia).
  assert (H4 : Z.abs (clock retry_env 0 + 3600 * 1000) <= MAX_TIME) by (cbn; unfold MAX_TIME; lia).
  split; [exact H1|]. split; [exact H2|].
  split; [reflexivity|]. split; [reflexivity|]. split; [reflexivity|].
  split; [exact H3|]. split; [exact H4|]. split; [reflexivity|].
  exact (getNotebooks_refresh_then_retry 0 sample_config TOKEN_URL retry_env 0 signed_in_storage
           "at1" "rt1" graph_401 graph_ok token_ok 3600 H1 ltac:(discriminate) H2 ltac:(discriminate)
           eq_refl eq_refl eq_refl eq_refl eq_refl ltac:(discriminate) eq_refl H3 H4
           eq_refl eq_refl).
Defined.

Lemma getNotebooks_retries_forever_witness :
  (forall j, exists r, graph_answer looping_env j = Ok r /\ gr_ok r = false /\ gr_status r = 401) /\
  (forall j, exists rd e, token_answer looping_env j = Ok rd /\ rd_ok rd = true /\
                          to_js_string (rd_access_token rd) <> ""%string /\
                          rd_expires_in rd = Some e /\ Z.abs (clock looping_env j) <= MAX_TIME /\
                          Z.abs (clock looping_env j + e * 1000) <= MAX_TIME) /\
  truthy (signed_in_storage !! ACCESS_TOKEN) = true /\
  truthy (signed_in_storage !! REFRESH_TOKEN) = true /\
  getNotebooks 10 sample_config TOKEN_URL looping_env 0 signed_in_storage = None.
Proof.
  assert (Hg : forall j, exists r, graph_answer looping_env j = Ok r /\ gr_ok r = false /\
                                   gr_status r = 401)
    by (intros j; exists graph_401; split; [reflexivity|]; split; reflexivity).
  assert (Ht : forall j, exists rd e, token_answer looping_env j = Ok rd /\ rd_ok rd = true /\
                          to_js_string (rd_access_token rd) <> ""%string /\
                          rd_expires_in rd = Some e /\ Z.abs (clock looping_env j) <= MAX_TIME /\
                          Z.abs (clock looping_env j + e * 1000) <= MAX_TIME).
  { intros j. exists token_ok, 3600. split; [reflexivity|]. split; [reflexivity|].
    split; [discriminate|]. split; [reflexivity|]. cbn. unfold MAX_TIME. lia. }
  split; [exact Hg|]. split; [exact Ht|]. split; [reflexivity|]. split; [reflexivity|].
  exact (getNotebooks_retries_forever sample_config TOKEN_URL looping_env signed_in_storage
           Hg Ht eq_refl eq_refl 10 0).
Defined.


(** X22: when no state is stored, a same-origin PKCE_AUTH_CODE message whose state is null passes the state check and reaches [exchangeCodeForTokens]. *)
Theorem messageHandler_accepts_null_state (origin : string) (s : storage) (ex : exchange_env)
    (m : message) :
  m_origin m = origin -> d_type (m_data m) = JStr "PKCE_AUTH_CODE" ->
  d_state (m_data m) = JNull -> s !! STATE = None ->
  exists rest, fst (messageHandler origin s ex m) = EvExchange (d_code (m_data m)) :: rest.
Proof.
  intros Ho Ht Hst Hs. unfold messageHandler, retrieve_jsv, retrieveSecurely.
  rewrite Ho, String.eqb_refl, Ht, Hst, Hs. cbn [negb strict_eq String.eqb].
  unfold bind, call, run_local. destruct (ex_tokens ex) as [t|e].
  - destruct (snd (storeTokens s (ex_now ex) t)); [destruct (ex_notebooks ex)|];
      eexists; reflexivity.
  - eexists; reflexivity.
Qed.

Lemma messageHandler_accepts_null_state_witness :
  m_origin null_state_message = "https://localhost:3000"%string /\
  d_type (m_data null_state_message) = JStr "PKCE_AUTH_CODE" /\
  d_state (m_data null_state_message) = JNull /\ (∅ : storage) !! STATE = None /\
  exists rest, fst (messageHandler "https://localhost:3000" ∅ exchange_ok null_state_message)
                 = EvExchange (d_code (m_data null_state_message)) :: rest.
Proof.
  split; [reflexivity|]. split; [reflexivity|]. split; [reflexivity|]. split; [reflexivity|].
  exact (messageHandler_accepts_null_state "https://localhost:3000" ∅ exchange_ok
           null_state_message eq_refl eq_refl eq_refl eq_refl).
Defined.
